(** * MEMIT-LTI with rectified sparse insertion: a shallow embedding

    This development embeds [memit_lti/memit_lti_rect_main.py] and proves
    properties of its weight bookkeeping, its caches and its per-layer
    update dataflow.

    Conventions of the embedding:
    - a torch scalar is an element of an abstract type [R] carrying the
      operations the code applies to it ([Scalar]); no law is assumed of
      them, so every generic theorem holds of rounding arithmetic as well
      as of exact arithmetic;
    - a 2-D torch tensor is a shape and its row-major data ([tensor]);
      devices are not represented ([.to], [.cpu()], [.cuda()] keep the
      value), dtype casts are the scalar maps [to_double] and [to_float];
    - Python exceptions are values of [exn]; a computation is a function
      from the process state ([world]) to a result and the state it leaves
      behind, also when it raises;
    - the collaborators imported from other modules ([compute_z],
      [compute_ks], [layer_stats], [generate_fast], ...) and
      [torch.linalg.solve] are fields of the record [Externals];
    - the collaborators read the model and write nothing of the state;
    - printing (with the formatting of the prompts it does), timing, the
      dictionary of inside norms and the singular-value spectra flow into
      no weight and no cache and are left out. *)

From Stdlib Require Import Ascii String QArith Qcanon Qabs.
From stdpp Require Import base gmap strings list fin_maps pretty.

(** ** Scalars *)

Class Scalar (R : Type) := {
  rzero : R;
  rone : R;
  radd : R → R → R;
  rsub : R → R → R;
  rmul : R → R → R;
  rdiv : R → R → R;
  rabs : R → R;
  rleb : R → R → bool;          (* [x <= y] *)
  reqb : R → R → bool;          (* [x == y] *)
  of_nat : nat → R;             (* a Python int promoted to a scalar *)
  eps8 : R;                     (* the literal [1e-8] *)
  to_double : R → R;            (* [.double()] *)
  to_float : R → R;             (* [.float()] *)
  rnorm : list R → R;           (* [torch.norm] of a vector *)
}.

(** ** Exceptions and results *)

Inductive exn :=
  | IndexError
  | KeyError
  | LookupError
  | ValueError
  | RuntimeError
  | LinAlgError
  | ZeroDivisionError
  | TypeError
  | ExternalError (msg : string).

Inductive result (A : Type) :=
  | Ok (a : A)
  | Raise (e : exn).
Arguments Ok {A} a.
Arguments Raise {A} e.

Definition rbind {A B} (r : result A) (k : A → result B) : result B :=
  match r with
  | Ok a => k a
  | Raise e => Raise e
  end.

Notation "x <~ m ;; k" := (rbind m (fun x => k))
  (at level 100, m at next level, right associativity, only parsing).

Section Tensors.
Context {R : Type} `{Scalar R}.

(** ** Tensors *)

Record tensor := Tensor { tshape : nat * nat; tdata : list R }.

Definition numel (t : tensor) : nat := fst (tshape t) * snd (tshape t).

(** [t.shape] as a [torch.Size]. *)
Definition shape_of (t : tensor) : list nat := [fst (tshape t); snd (tshape t)].

Definition tget (t : tensor) (i j : nat) : R :=
  nth (i * snd (tshape t) + j) (tdata t) rzero.

Definition tabulate (r c : nat) (f : nat → nat → R) : tensor :=
  Tensor (r, c) (flat_map (fun i => map (f i) (seq 0 c)) (seq 0 r)).

(** [t.T] *)
Definition transpose (t : tensor) : tensor :=
  tabulate (snd (tshape t)) (fst (tshape t)) (fun i j => tget t j i).

Definition tmap (f : R → R) (t : tensor) : tensor :=
  Tensor (tshape t) (map f (tdata t)).

Definition double (t : tensor) : tensor := tmap to_double t.
Definition float (t : tensor) : tensor := tmap to_float t.

Definition rsum (l : list R) : R := fold_left radd l rzero.

(** [a @ b] *)
Definition matmul (a b : tensor) : result tensor :=
  if decide (snd (tshape a) = fst (tshape b)) then
    Ok (tabulate (fst (tshape a)) (snd (tshape b)) (fun i j =>
          rsum (map (fun k => rmul (tget a i k) (tget b k j))
                    (seq 0 (snd (tshape a))))))
  else Raise RuntimeError.

(** Broadcasting of two dimensions, and of two shapes. *)
Definition bdim (a b : nat) : option nat :=
  if decide (a = b) then Some a
  else if decide (a = 1) then Some b
  else if decide (b = 1) then Some a
  else None.

Definition broadcast_shapes (s t : nat * nat) : result (nat * nat) :=
  match bdim (fst s) (fst t), bdim (snd s) (snd t) with
  | Some r, Some c => Ok (r, c)
  | _, _ => Raise RuntimeError
  end.

Definition expand_to (t : tensor) (s : nat * nat) : result tensor :=
  if decide (tshape t = s) then Ok t
  else match broadcast_shapes (tshape t) s with
       | Ok s' =>
           if decide (s' = s) then
             Ok (tabulate (fst s) (snd s) (fun i j =>
                   tget t (if decide (fst (tshape t) = 1) then 0 else i)
                          (if decide (snd (tshape t) = 1) then 0 else j)))
           else Raise RuntimeError
       | Raise e => Raise e
       end.

(** An elementwise binary operation of two tensors. *)
Definition binop (f : R → R → R) (a b : tensor) : result tensor :=
  s <~ broadcast_shapes (tshape a) (tshape b);;
  a' <~ expand_to a s;;
  b' <~ expand_to b s;;
  Ok (Tensor s (zip_with f (tdata a') (tdata b'))).

Definition tadd := binop radd.
Definition tsub := binop rsub.
Definition tdiv := binop rdiv.

(** An in-place operation [a op= b]: the result keeps the shape of [a]. *)
Definition binop_ (f : R → R → R) (a b : tensor) : result tensor :=
  b' <~ expand_to b (tshape a);;
  Ok (Tensor (tshape a) (zip_with f (tdata a) (tdata b'))).

Definition tadd_ := binop_ radd.

(** Operations with a Python number. *)
Definition tadd_scalar (t : tensor) (x : R) : tensor := tmap (fun y => radd y x) t.
Definition tmul_scalar (t : tensor) (x : R) : tensor := tmap (fun y => rmul y x) t.
Definition tdiv_scalar (t : tensor) (x : R) : tensor := tmap (fun y => rdiv y x) t.
Definition tabs (t : tensor) : tensor := tmap rabs t.

(** [t.repeat_interleave(n, dim=1)] *)
Definition repeat_interleave (t : tensor) (n : nat) : tensor :=
  Tensor (fst (tshape t), snd (tshape t) * n)
         (flat_map (fun x => replicate n x) (tdata t)).

(** [torch.stack(zs, dim=1)] of 1-D tensors. *)
Definition stack_cols (zs : list (list R)) : result tensor :=
  match zs with
  | [] => Raise RuntimeError
  | z :: _ =>
      if forallb (fun z' => bool_decide (length z' = length z)) zs then
        Ok (tabulate (length z) (length zs) (fun i j =>
              nth i (nth j zs []) rzero))
      else Raise RuntimeError
  end.

(** Rows and columns, for [torch.norm(_, dim=1)] and [torch.norm(_, dim=0)]. *)
Definition trows (t : tensor) : list (list R) :=
  map (fun i => map (tget t i) (seq 0 (snd (tshape t)))) (seq 0 (fst (tshape t))).
Definition tcols (t : tensor) : list (list R) := trows (transpose t).

Definition rmean (l : list R) : R := rdiv (rsum l) (of_nat (length l)).

(** [torch.kthvalue(v, k).values]: the [k]-th smallest element, from 1. *)
Fixpoint insert_sorted (x : R) (l : list R) : list R :=
  match l with
  | [] => [x]
  | y :: l' => if rleb x y then x :: l else y :: insert_sorted x l'
  end.

Definition sort_asc (l : list R) : list R := foldr insert_sorted [] l.

Definition kthvalue (v : list R) (k : nat) : result R :=
  match k with
  | 0 => Raise RuntimeError
  | S k' => match sort_asc v !! k' with
            | Some x => Ok x
            | None => Raise RuntimeError
            end
  end.

(** ** [upd_matrix_match_shape] *)

Definition upd_matrix_match_shape (matrix : tensor) (shape : list nat) : result tensor :=
  if decide (shape_of matrix = shape) then Ok matrix
  else if decide (shape_of (transpose matrix) = shape) then Ok (transpose matrix)
  else Raise ValueError.

End Tensors.

Arguments tensor R : clear implicits.

(** ** Requests, hyper-parameters and the process state *)

(** A request as the collaborators read it. *)
Record request := Request {
  prompt : string;
  subject : string;
  target_new : string;          (* [request["target_new"]["str"]] *)
  case_id : Z;
}.

(** Requests are Python objects, shared by reference: [ListObj] is the
    list of the requests, [ReqDict] a request dictionary, whose
    ["target_new"] entry refers to a second dictionary [TargetDict] holding
    the ["str"] entry. *)
Definition loc := positive.

Inductive obj :=
  | ListObj (items : list loc)
  | ReqDict (req_prompt req_subject : string) (req_case_id : Z) (req_target_new : loc)
  | TargetDict (str : string).

Section Memit.
Context {R : Type} `{Scalar R}.

Record MEMITLTIHyperParams := {
  layers : list Z;
  rewrite_module_tmp : string;
  layer_module_tmp : string;
  mom2_dataset : string;
  mom2_n_samples : nat;
  mom2_dtype : string;
  mom2_update_weight : R;
  clamp_norm_factor : R;
  fact_token : string;
  sequential : bool;
  add_prev_edits : bool;
  calculate_norms : bool;
  calculate_objective_value : bool;
}.

(** Calls that leave the module, in the order they are made. *)
Inductive event :=
  | CallLayerStats (layer_name : string) (sample_size : nat) (force_recompute : bool)
  | CallSolve (A B : tensor R).

(** The state of the process: the parameters of the model being edited,
    the request objects, the three module-level caches, the files of the
    on-disk cache of target representations ([None]: a file that exists
    and cannot be read) and the calls made so far. *)
Record world := World {
  params : gmap string (tensor R);
  model_name : string;
  heap : gmap loc obj;
  COV_CACHE : gmap (list string) (tensor R);
  SEQ_CACHE : gmap Z (tensor R);
  CONTEXT_TEMPLATES_CACHE : option (list (list string));
  files : gmap string (option (list R));
  trace : list event;
}.

Definition set_params (f : gmap string (tensor R) → gmap string (tensor R)) (w : world) : world :=
  World (f (params w)) (model_name w) (heap w) (COV_CACHE w) (SEQ_CACHE w)
        (CONTEXT_TEMPLATES_CACHE w) (files w) (trace w).
Definition set_heap (f : gmap loc obj → gmap loc obj) (w : world) : world :=
  World (params w) (model_name w) (f (heap w)) (COV_CACHE w) (SEQ_CACHE w)
        (CONTEXT_TEMPLATES_CACHE w) (files w) (trace w).
Definition set_COV_CACHE (f : gmap (list string) (tensor R) → gmap (list string) (tensor R))
    (w : world) : world :=
  World (params w) (model_name w) (heap w) (f (COV_CACHE w)) (SEQ_CACHE w)
        (CONTEXT_TEMPLATES_CACHE w) (files w) (trace w).
Definition set_SEQ_CACHE (f : gmap Z (tensor R) → gmap Z (tensor R)) (w : world) : world :=
  World (params w) (model_name w) (heap w) (COV_CACHE w) (f (SEQ_CACHE w))
        (CONTEXT_TEMPLATES_CACHE w) (files w) (trace w).
Definition set_CONTEXT_TEMPLATES_CACHE (c : option (list (list string))) (w : world) : world :=
  World (params w) (model_name w) (heap w) (COV_CACHE w) (SEQ_CACHE w)
        c (files w) (trace w).
Definition set_files (f : gmap string (option (list R)) → gmap string (option (list R)))
    (w : world) : world :=
  World (params w) (model_name w) (heap w) (COV_CACHE w) (SEQ_CACHE w)
        (CONTEXT_TEMPLATES_CACHE w) (f (files w)) (trace w).
Definition log (e : event) (w : world) : world :=
  World (params w) (model_name w) (heap w) (COV_CACHE w) (SEQ_CACHE w)
        (CONTEXT_TEMPLATES_CACHE w) (files w) (trace w ++ [e]).

(** The collaborators, as functions of what they read: the parameters of
    the model and their arguments; [layer_stats] also receives the number of
    calls logged so far, so that two calls need not agree. What they do
    beside returning a value is outside the model: [layer_stats] keeps its
    statistics in files under [STATS_DIR] (lines 366 to 376), and these
    files are not among [files], which holds the files of target
    representations that lines 150 to 196 read and write. *)
Record Externals := {
  compute_z : gmap string (tensor R) → request → MEMITLTIHyperParams → Z →
              list (list string) → result (list R * R * R);
  compute_ks : gmap string (tensor R) → list request → MEMITLTIHyperParams → Z →
               list (list string) → result (tensor R);
  get_module_input_output_at_words :
    gmap string (tensor R) → Z → list string → list string → string → string →
    result (tensor R * tensor R);
  layer_stats : gmap string (tensor R) → string → string → nat → string → bool → nat →
                result (tensor R * tensor R);   (* [stat.mom2.moment()], [preserved_keys] *)
  generate_fast : gmap string (tensor R) → list string → nat → nat → result (list string);
  linalg_solve : tensor R → tensor R → result (tensor R);
  cache_path : string → Z → R → Z → string;     (* [Path(str(tmpl).format(l, f, id))] *)
}.

(** ** Computations *)

Definition M (A : Type) : Type := world → result A * world.

Definition ret {A} (a : A) : M A := fun w => (Ok a, w).
Definition raise {A} (e : exn) : M A := fun w => (Raise e, w).
Definition bind {A B} (m : M A) (k : A → M B) : M B :=
  fun w => match m w with
           | (Ok a, w') => k a w'
           | (Raise e, w') => (Raise e, w')
           end.
Definition lift {A} (r : result A) : M A := fun w => (r, w).
Definition get : M world := fun w => (Ok w, w).
Definition modify (f : world → world) : M unit := fun w => (Ok tt, f w).

End Memit.

Arguments MEMITLTIHyperParams R : clear implicits.
Arguments event R : clear implicits.
Arguments world R : clear implicits.
Arguments Externals R : clear implicits.
Arguments M R A : clear implicits.

Notation "x <- m ;; k" := (bind m (fun x => k))
  (at level 100, m at next level, right associativity, only parsing).
Notation "'let*' p := m 'in' k" := (bind m (fun x => match x with p => k end))
  (at level 100, p pattern, m at next level, right associativity, only parsing).

(** ** Python strings and dictionaries *)

(** [tmpl.format(arg)] for a template whose only replacement field is one
    pair of braces: the first pair is filled and the rest is kept as it
    is. Numbered or named fields, doubled braces and a second pair, which
    [str.format] treats otherwise, are outside the model. *)
Fixpoint py_format (tmpl arg : string) : string :=
  match tmpl with
  | EmptyString => EmptyString
  | String c rest =>
      match rest with
      | String c' rest' =>
          if (Ascii.eqb c "{"%char && Ascii.eqb c' "}"%char)%bool then arg +:+ rest'
          else String c (py_format rest arg)
      | EmptyString => String c EmptyString
      end
  end.

(** [s.replace(a, b)] for one-character strings. *)
Fixpoint replace_char (a b : Ascii.ascii) (s : string) : string :=
  match s with
  | EmptyString => EmptyString
  | String c rest => String (if Ascii.eqb c a then b else c) (replace_char a b rest)
  end.

(** [s.split(c)] *)
Fixpoint split_on (c : Ascii.ascii) (s : string) : list string :=
  match s with
  | EmptyString => [EmptyString]
  | String x rest =>
      if Ascii.eqb x c then EmptyString :: split_on c rest
      else match split_on c rest with
           | [] => [String x EmptyString]
           | p :: ps => String x p :: ps
           end
  end.

(** [s.endswith(suffix)] *)
Definition ends_with (suffix s : string) : bool :=
  String.eqb
    (substring (String.length s - String.length suffix) (String.length suffix) s)
    suffix
  && bool_decide (String.length suffix ≤ String.length s).

(** [d[k] = v] on a dictionary kept in insertion order. *)
Fixpoint dict_set {V} (k : string) (v : V) (d : list (string * V)) : list (string * V) :=
  match d with
  | [] => [(k, v)]
  | (k', v') :: d' => if decide (k' = k) then (k, v) :: d' else (k', v') :: dict_set k v d'
  end.

Fixpoint dict_get {V} (k : string) (d : list (string * V)) : option V :=
  match d with
  | [] => None
  | (k', v') :: d' => if decide (k' = k) then Some v' else dict_get k d'
  end.

(** [enumerate(l)] *)
Definition enumerate {A} (l : list A) : list (nat * A) := zip (seq 0 (length l)) l.

(** [a // b] on non-negative integers. *)
Definition floordiv (a b : nat) : result nat :=
  if decide (b = 0) then Raise ZeroDivisionError else Ok (a / b).

Section Program.
Context {R : Type} `{Scalar R}.
Variable ext : Externals R.

#[local] Abbreviation tensor := (tensor R).
#[local] Abbreviation M := (M R).
#[local] Abbreviation hparams := (MEMITLTIHyperParams R).

Fixpoint foldM {A B} (f : B → A → M B) (l : list A) (b : B) : M B :=
  match l with
  | [] => ret b
  | a :: l' => b' <- f b a;; foldM f l' b'
  end.

(** ** The model's parameters *)

(** [nethook.get_parameter(model, name)] *)
Definition get_parameter (name : string) : M tensor :=
  w <- get;;
  match params w !! name with
  | Some t => ret t
  | None => raise LookupError
  end.

(** [v[...] = x] for the parameter named [name]. *)
Definition assign_parameter (name : string) (x : tensor) : M unit :=
  v <- get_parameter name;;
  x' <- lift (expand_to x (tshape v));;
  modify (set_params <[name := x']>).

Definition weight_name (hp : hparams) (layer : Z) : string :=
  py_format (rewrite_module_tmp hp) (pretty layer) +:+ ".weight".

(** ** [get_context_templates] *)

Definition get_context_templates : M (list (list string)) :=
  w <- get;;
  match CONTEXT_TEMPLATES_CACHE w with
  | Some c => ret c
  | None =>
      gen <- lift (generate_fast ext (params w)
                     ["The"; "Therefore"; "Because"; "I"; "You"] (7 / 5) 10);;
      let c := [["{}"]] ++
               [map (fun f => replace_char "}" " " (replace_char "{" " " f) +:+ ". {}") gen] in
      _ <- modify (set_CONTEXT_TEMPLATES_CACHE (Some c));;
      ret c
  end.

(** ** [get_cov] *)

(** The two keys of a layer in [COV_CACHE], as [get_cov] builds them. *)
Definition cov_key (w : world R) (layer_name : string) : list string :=
  [replace_char "/" "_" (model_name w); layer_name].
Definition cov_feature_key (w : world R) (layer_name : string) : list string :=
  [replace_char "/" "_" (model_name w); layer_name; "preserved_keys"].

Definition get_cov (layer_name mom2_dataset : string) (mom2_n_samples : nat)
    (mom2_dtype : string) (force_recompute : bool) : M (tensor * tensor) :=
  w <- get;;
  let key := cov_key w layer_name in
  let feature_key := cov_feature_key w layer_name in
  _ <- (if bool_decide (COV_CACHE w !! key = None) || force_recompute then
          _ <- modify (log (CallLayerStats layer_name mom2_n_samples force_recompute));;
          let* (stat, preserved_keys) :=
            lift (layer_stats ext (params w) layer_name mom2_dataset mom2_n_samples
                    mom2_dtype force_recompute (length (trace w))) in
          _ <- modify (set_COV_CACHE <[key := float stat]>);;
          modify (set_COV_CACHE <[feature_key := preserved_keys]>)
        else ret tt);;
  w <- get;;
  match COV_CACHE w !! key with
  | None => raise KeyError
  | Some cov =>
      match COV_CACHE w !! feature_key with
      | None => raise KeyError
      | Some preserved_keys => ret (cov, preserved_keys)
      end
  end.

(** ** [calculate_distances] *)

Definition calculate_distances (original_weights new_weights edit_keys edit_values
    preserved_keys : tensor) : result (R * R * R) :=
  let flip := negb (bool_decide (fst (tshape original_weights) = snd (tshape preserved_keys))) in
  let original_weights := if flip then transpose original_weights else original_weights in
  let new_weights := if flip then transpose new_weights else new_weights in
  W_old_k_old <~ matmul (double preserved_keys) (double original_weights);;
  W_hat_k_old <~ matmul (double preserved_keys) (double new_weights);;
  W_old_k_edits <~ matmul (double (transpose original_weights)) (double edit_keys);;
  W_hat_k_edits <~ matmul (double (transpose new_weights)) (double edit_keys);;
  let v_edits := double edit_values in
  d1 <~ tsub W_hat_k_old W_old_k_old;;
  let preservation_distance := rmean (map rnorm (trows d1)) in
  d2 <~ tsub W_hat_k_edits v_edits;;
  let new_edit_distance := rmean (map rnorm (tcols d2)) in
  d3 <~ tsub W_old_k_edits v_edits;;
  let old_edit_distance := rmean (map rnorm (tcols d3)) in
  Ok (preservation_distance, new_edit_distance, old_edit_distance).

(** ** The request objects *)

Definition alloc (o : obj) : M loc :=
  w <- get;;
  let l := fresh (dom (heap w)) in
  _ <- modify (set_heap <[l := o]>);;
  ret l.

Definition load_obj (l : loc) : M obj :=
  w <- get;;
  match heap w !! l with
  | Some o => ret o
  | None => raise KeyError
  end.

(** [deepcopy] of one request dictionary, with the memo of the objects
    already copied: an object reached twice is copied once. *)
Definition deepcopy_target (memo : gmap loc loc) (l : loc) : M (loc * gmap loc loc) :=
  match memo !! l with
  | Some l' => ret (l', memo)
  | None =>
      o <- load_obj l;;
      match o with
      | TargetDict s =>
          l' <- alloc (TargetDict s);;
          ret (l', <[l := l']> memo)
      | _ => raise TypeError
      end
  end.

Definition deepcopy_request (memo : gmap loc loc) (l : loc) : M (loc * gmap loc loc) :=
  match memo !! l with
  | Some l' => ret (l', memo)
  | None =>
      o <- load_obj l;;
      match o with
      | ReqDict p s c t =>
          let* (t', memo) := deepcopy_target memo t in
          l' <- alloc (ReqDict p s c t');;
          ret (l', <[l := l']> memo)
      | _ => raise TypeError
      end
  end.

(** [deepcopy(requests)] *)
Definition deepcopy (requests : loc) : M loc :=
  o <- load_obj requests;;
  match o with
  | ListObj items =>
      let* (copies, _) :=
        foldM (fun '(acc, memo) l =>
                 let* (l', memo) := deepcopy_request memo l in
                 ret (acc ++ [l'], memo))
              items ([], ∅) in
      alloc (ListObj copies)
  | _ => raise TypeError
  end.

(** One turn of the loop that gives every target string its leading space. *)
Definition normalize_target (request : loc) : M unit :=
  o <- load_obj request;;
  match o with
  | ReqDict _ _ _ t =>
      o' <- load_obj t;;
      match o' with
      | TargetDict s =>
          match s with
          | EmptyString => raise IndexError
          | String c _ =>
              if Ascii.eqb c " "%char then ret tt
              else modify (set_heap <[t := TargetDict (" " +:+ s)]>)
          end
      | _ => raise TypeError
      end
  | _ => raise TypeError
  end.

(** The request as the collaborators are going to read it. *)
Definition read_request (l : loc) : M request :=
  o <- load_obj l;;
  match o with
  | ReqDict p s c t =>
      o' <- load_obj t;;
      match o' with
      | TargetDict str => ret (Request p s str c)
      | _ => raise TypeError
      end
  | _ => raise TypeError
  end.

(** ** [execute_memit_lti] *)

(** What [deltas[weight_name]] holds. *)
Record Delta := {
  adj_k : tensor;
  resid : tensor;
  distances : option (R * R * R);   (* preservation, new-edit and old-edit distance *)
}.

(** The dictionaries [weights] (its keys, in order) and [weights_copy]. *)
Definition collect_weights (hp : hparams) : M (list string * gmap string tensor) :=
  weights <-
    foldM (fun weights layer =>
             v <- get_parameter (weight_name hp layer);;
             ret (dict_set (weight_name hp layer) v weights))
          (layers hp) [];;
  ret (weights.*1, list_to_map weights).

(** [np.savez] appends the extension to a name that lacks it. *)
Definition npz_name (fname : string) : string :=
  if ends_with ".npz" fname then fname else fname +:+ ".npz".

(** One turn of the loop that collects the target representations. *)
Definition compute_z_step (hp : hparams) (cache_template : option string) (z_layer : Z)
    (context_templates : list (list string))
    (acc : list (list R) * list (nat * (R * R * R))) (item : nat * request)
    : M (list (list R) * list (nat * (R * R * R))) :=
  let '(z_list, z_norms) := acc in
  let '(r_id, request) := item in
  let cache_fname :=
    match cache_template with
    | Some tmpl => Some (cache_path ext tmpl z_layer (clamp_norm_factor hp) (case_id request))
    | None => None
    end in
  w <- get;;
  let loaded :=
    match cache_fname with
    | Some f => match files w !! f with
                | Some (Some v_star) => Some v_star
                | _ => None
                end
    | None => None
    end in
  match loaded with
  | Some v_star => ret (z_list ++ [v_star], z_norms)
  | None =>
      let* (cur_z, delta_norm, init_norm) :=
        lift (compute_z ext (params w) request hp z_layer context_templates) in
      _ <- match cache_fname with
           | Some f => modify (set_files <[npz_name f := Some cur_z]>)
           | None => ret tt
           end;;
      ret (z_list ++ [cur_z], z_norms ++ [(r_id, (delta_norm, init_norm, rnorm cur_z))])
  end.

(** Lines 262 to 276: the history of earlier batches and the solve. *)
Definition solve_layer (hp : hparams) (layer : Z) (cov layer_ks : tensor) : M tensor :=
  w <- get;;
  cov <- match SEQ_CACHE w !! layer with
         | Some history =>
             if sequential hp && add_prev_edits hp then lift (tadd_ cov history)
             else ret cov
         | None => ret cov
         end;;
  _ <- match SEQ_CACHE w !! layer with
       | None =>
           gram <- lift (matmul layer_ks (transpose layer_ks));;
           modify (set_SEQ_CACHE <[layer := gram]>)
       | Some history =>
           gram <- lift (matmul layer_ks (transpose layer_ks));;
           history' <- lift (tadd_ history gram);;
           modify (set_SEQ_CACHE <[layer := history']>)
       end;;
  gram <- lift (matmul layer_ks (transpose layer_ks));;
  A <- lift (tadd cov gram);;
  _ <- modify (log (CallSolve A layer_ks));;
  lift (linalg_solve ext A layer_ks).

(** Line 279. *)
Definition distribute_residual (hp : hparams) (i : nat) (targets : tensor) : tensor :=
  tdiv_scalar targets (of_nat (length (layers hp) - i)).

(** The residual of the batch at one layer, lines 213 to 226. *)
Definition layer_targets (hp : hparams) (requests : list request) (z_layer : Z)
    (zs layer_ks : tensor) : M (tensor * tensor) :=
  w <- get;;
  io <- lift (get_module_input_output_at_words ext (params w) z_layer
                (map prompt requests) (map subject requests)
                (layer_module_tmp hp) (fact_token hp));;
  let cur_zs := transpose (snd io) in
  targets <- lift (tsub zs cur_zs);;
  repeat_factor <- lift (floordiv (snd (tshape layer_ks)) (snd (tshape targets)));;
  ret (repeat_interleave targets repeat_factor, cur_zs).

(** Lines 250 and 251. *)
Definition scale_cov (hp : hparams) (cov : tensor) : tensor :=
  if negb (reqb (mom2_update_weight hp) rone)
  then tmul_scalar cov (mom2_update_weight hp) else cov.

(** The covariance of a layer after the cast and the scaling, lines 229 to 251. *)
Definition layer_cov (hp : hparams) (layer : Z) : M (tensor * tensor) :=
  let force_recompute := false in
  let* (cov, preserved_keys) :=
    get_cov (py_format (rewrite_module_tmp hp) (pretty layer)) (mom2_dataset hp)
            (if negb force_recompute then mom2_n_samples hp else mom2_n_samples hp / 10)
            (mom2_dtype hp) force_recompute in
  let cov := double cov in
  ret (scale_cov hp cov, preserved_keys).

(** One turn of the loop over [hparams.layers]. *)
Definition layer_step (hp : hparams) (requests : list request)
    (context_templates : list (list string)) (z_layer : Z) (zs : tensor)
    (weights_copy : gmap string tensor)
    (deltas : list (string * Delta)) (item : nat * Z) : M (list (string * Delta)) :=
  let '(i, layer) := item in
  w <- get;;
  ks <- lift (compute_ks ext (params w) requests hp layer context_templates);;
  let layer_ks := transpose ks in
  let* (targets, cur_zs) := layer_targets hp requests z_layer zs layer_ks in
  let* (cov, preserved_keys) := layer_cov hp layer in
  let layer_ks := double layer_ks in
  let targets := double targets in
  adj_k <- solve_layer hp layer cov layer_ks;;
  let resid := distribute_residual hp i targets in
  upd_matrix <- lift (matmul resid (transpose adj_k));;
  let weight_name := weight_name hp layer in
  v <- get_parameter weight_name;;
  upd_matrix <- lift (upd_matrix_match_shape upd_matrix (shape_of v));;
  match weights_copy !! weight_name with
  | None => raise KeyError
  | Some orig =>
      new <- lift (tadd orig (float upd_matrix));;
      _ <- assign_parameter weight_name new;;
      new <- get_parameter weight_name;;
      distances <-
        (if calculate_objective_value hp
         then d <- lift (calculate_distances orig new layer_ks zs preserved_keys);; ret (Some d)
         else ret None);;
      ret (dict_set weight_name (Build_Delta adj_k resid distances) deltas)
  end.

(** The last loop: every weight gets its saved value back. *)
Definition restore_weights (weights : list string) (weights_copy : gmap string tensor) : M unit :=
  foldM (fun _ k =>
           match weights_copy !! k with
           | None => raise KeyError
           | Some saved => assign_parameter k saved
           end)
        weights tt.

(** Lines 121 to 127: the requests are copied and the copies normalised;
    the result is what the collaborators read from the copies. The report
    of lines 128 to 132 is left out: it prints, for the first ten requests,
    [request['prompt'].format(request['subject'])], and so raises for a
    prompt that [str.format] cannot fill with one argument. *)
Definition normalize_requests (requests : loc) : M (list request) :=
  requests <- deepcopy requests;;
  o <- load_obj requests;;
  match o with
  | ListObj items =>
      _ <- foldM (fun _ request => normalize_target request) items tt;;
      foldM (fun acc l => r <- read_request l;; ret (acc ++ [r])) items []
  | _ => raise TypeError
  end.

(** Lines 134 to 342. *)
Definition compute_deltas (hp : hparams) (requests : list request)
    (cache_template : option string)
    : M (list (string * Delta) * list (nat * (R * R * R))) :=
  let* (weights, weights_copy) := collect_weights hp in
  context_templates <- get_context_templates;;
  z_layer <- lift (match last (layers hp) with
                   | Some l => Ok l
                   | None => Raise IndexError
                   end);;
  let* (z_list, z_norms) :=
    foldM (compute_z_step hp cache_template z_layer context_templates)
          (enumerate requests) ([], []) in
  zs <- lift (stack_cols z_list);;
  deltas <-
    foldM (layer_step hp requests context_templates z_layer zs weights_copy)
          (enumerate (layers hp)) [];;
  _ <- restore_weights weights weights_copy;;
  ret (deltas, z_norms).

Definition execute_memit_lti (hp : hparams) (requests : loc)
    (cache_template : option string)
    : M (list (string * Delta) * list (nat * (R * R * R))) :=
  requests <- normalize_requests requests;;
  compute_deltas hp requests cache_template.

(** ** [apply_memit_lti_rect_to_model] *)

(** [w[mask] += u[mask]] for a boolean mask of the shape of both. *)
Definition masked_add (w : tensor) (mask_shape : nat * nat) (mask : list bool)
    (u : tensor) : result tensor :=
  if decide (mask_shape = tshape u) then
    if decide (mask_shape = tshape w) then
      Ok (Tensor (tshape w)
            (zip_with (fun x (mu : bool * R) => if fst mu then radd x (snd mu) else x)
               (tdata w) (zip mask (tdata u))))
    else Raise IndexError
  else Raise IndexError.

(** Lines 63 to 69: the update is written where its magnitude relative to
    the weight reaches the threshold. *)
Definition sparse_insert (upd_matrix w : tensor) : result tensor :=
  let k_percent := 40 in
  let epsilon := eps8 in
  q <~ tdiv upd_matrix (tadd_scalar w epsilon);;
  let delta := tabs q in
  threshold <~ kthvalue (tdata delta) (numel delta * (100 - k_percent) / 100);;
  let mask := map (fun d => rleb threshold d) (tdata delta) in
  masked_add w (tshape delta) mask (float upd_matrix).

(** The entry of [distances] of one layer (without the spectra). *)
Record Report := {
  preservation_distance : option R;
  new_edit_distance : option R;
  old_edit_distance : option R;
  delta_norm : R;
  new_weights_norm : R;
  original_weights_norm : R;
}.

(** One turn of the loop over [deltas.items()]. *)
Definition insert_step (return_orig_weights : bool)
    (acc : gmap string tensor * list (string * Report)) (item : string * Delta)
    : M (gmap string tensor * list (string * Report)) :=
  let '(weights_copy, distances_) := acc in
  let '(w_name, d) := item in
  let key_mat := adj_k d in
  let val_mat := resid d in
  upd_matrix <- lift (matmul key_mat (transpose val_mat));;
  w <- get_parameter w_name;;
  upd_matrix <- lift (upd_matrix_match_shape upd_matrix (shape_of w));;
  let weights_copy :=
    if return_orig_weights && bool_decide (weights_copy !! w_name = None)
    then <[w_name := w]> weights_copy else weights_copy in
  let original_weights_norm := rnorm (tdata w) in
  w' <- lift (sparse_insert upd_matrix w);;
  _ <- modify (set_params <[w_name := w']>);;
  layer <- lift (match split_on "." w_name !! 2 with
                 | Some l => Ok l
                 | None => Raise IndexError
                 end);;
  let temp_dict :=
    {| preservation_distance := (fun d => fst (fst d)) <$> distances d;
       new_edit_distance := (fun d => snd (fst d)) <$> distances d;
       old_edit_distance := snd <$> distances d;
       delta_norm := rnorm (tdata upd_matrix);
       new_weights_norm := rnorm (tdata w');
       original_weights_norm := original_weights_norm |} in
  ret (weights_copy, dict_set layer temp_dict distances_).

(** The function edits the model it is given; with [copy=True] that model
    is the deep copy made on entry. *)
Definition apply_memit_lti_rect_to_model (hp : hparams) (requests : loc)
    (return_orig_weights : bool) (cache_template : option string)
    : M (gmap string tensor * list (string * Report) * list (nat * (R * R * R))) :=
  let* (deltas, z_norms) := execute_memit_lti hp requests cache_template in
  let* (weights_copy, distances_) := foldM (insert_step return_orig_weights) deltas (∅, []) in
  ret (weights_copy, distances_, z_norms).

End Program.

(** ** An instance: exact rational arithmetic *)

Module Exact.

(** Square roots leave the rationals: the norm reported by this instance is
    the squared one. Casts are exact. *)
#[export] Instance Qc_scalar : Scalar Qc := {|
  rzero := 0%Qc;
  rone := 1%Qc;
  radd := Qcplus;
  rsub := Qcminus;
  rmul := Qcmult;
  rdiv := Qcdiv;
  rabs := fun x => Q2Qc (Qabs x);
  rleb := fun x y => Qle_bool x y;
  reqb := Qc_eq_bool;
  of_nat := fun n => Q2Qc (inject_Z (Z.of_nat n));
  eps8 := Q2Qc (1 # 100000000)%Q;
  to_double := fun x => x;
  to_float := fun x => x;
  rnorm := fun l => fold_left Qcplus (map (fun x => Qcmult x x) l) 0%Qc;
|}.

(** A solver for systems with one unknown per column. *)
Definition solve1 (A B : tensor Qc) : result (tensor Qc) :=
  match tshape A, tdata A with
  | (1, 1), [a] =>
      if decide (fst (tshape B) = 1 ∧ length (tdata B) = snd (tshape B)) then
        if Qc_eq_bool a 0%Qc then Raise LinAlgError
        else Ok (Tensor (tshape B) (map (fun b => Qcdiv b a) (tdata B)))
      else Raise RuntimeError
  | _, _ => Raise RuntimeError
  end.

(** A model of width one: every request has the target representation [z],
    the key of a request at a layer is [key layer], the hidden state is
    null, and the second moment of the reference inputs is [mom2]. *)
Definition toy_ext (z : Qc) (key : Z → Qc) (mom2 : Qc) : Externals Qc := {|
  compute_z := fun _ _ _ _ _ => Ok ([z], 0%Qc, 0%Qc);
  compute_ks := fun _ requests _ layer _ =>
    Ok (Tensor (length requests, 1) (replicate (length requests) (key layer)));
  get_module_input_output_at_words := fun _ _ prompts _ _ _ =>
    Ok (Tensor (length prompts, 1) (replicate (length prompts) 0%Qc),
        Tensor (length prompts, 1) (replicate (length prompts) 0%Qc));
  layer_stats := fun _ _ _ _ _ _ _ => Ok (Tensor (1, 1) [mom2], Tensor (1, 1) [1%Qc]);
  generate_fast := fun _ _ _ _ => Ok ["The a"; "Therefore b"; "Because c"; "I d"; "You e"];
  linalg_solve := solve1;
  cache_path := fun tmpl _ _ id => tmpl +:+ pretty id;
|}.

Definition toy_hparams (ls : list Z) (weight : Qc) (seq add_prev : bool)
    : MEMITLTIHyperParams Qc := {|
  layers := ls;
  rewrite_module_tmp := "transformer.h.{}.mlp.c_proj";
  layer_module_tmp := "transformer.h.{}";
  mom2_dataset := "wikipedia";
  mom2_n_samples := 100;
  mom2_dtype := "float32";
  mom2_update_weight := weight;
  clamp_norm_factor := 1%Qc;
  fact_token := "subject_last";
  sequential := seq;
  add_prev_edits := add_prev;
  calculate_norms := false;
  calculate_objective_value := false;
|}.

Definition scalar1 (x : Qc) : tensor Qc := Tensor (1, 1) [x].

(** Two layers of weight 1 and, at location 3, the list of one request,
    "The capital of Italy is" to "Rome". *)
Definition toy_world : world Qc := {|
  params := {[ "transformer.h.0.mlp.c_proj.weight" := scalar1 1%Qc;
               "transformer.h.1.mlp.c_proj.weight" := scalar1 1%Qc ]};
  model_name := "gpt2/toy";
  heap := {[ 1%positive := ReqDict "The capital of {} is" "Italy" 7 2%positive;
             2%positive := TargetDict "Rome";
             3%positive := ListObj [1%positive] ]};
  COV_CACHE := ∅;
  SEQ_CACHE := ∅;
  CONTEXT_TEMPLATES_CACHE := None;
  files := ∅;
  trace := [];
|}.

End Exact.

(** ** Definitions used in the statements *)

Section StatementDefinitions.
Context {R : Type} `{Scalar R}.

(** Line 65, for one element: [|u / (x + epsilon)|]. *)
Definition relative_magnitude (u x : R) : R := rabs (rdiv u (radd x eps8)).

(** [preserves P m]: the state in which [m] stops, whether it returns or
    raises, is related by [P] to the state in which it started. *)
Definition preserves {A} (P : relation (world R)) (m : M R A) : Prop :=
  ∀ w r w', m w = (r, w') → P w w'.

(** The value of one component of the state is the same. *)
Definition same_on {X} (f : world R → X) : relation (world R) :=
  λ w w', f w' = f w.

(** The parameters keep their names and shapes, and those outside [N]
    keep their values. *)
Definition params_frame (N : string → Prop) : relation (world R) :=
  λ w w', ∀ k,
    match params w !! k with
    | Some t => ∃ t', params w' !! k = Some t' ∧ tshape t' = tshape t ∧ (¬ N k → t' = t)
    | None => params w' !! k = None
    end.

(** Relations that do not look at the caches, the files or the calls. *)
Class IgnoresCaches (P : relation (world R)) := {
  ignores_log : ∀ w e, P w (log e w);
  ignores_COV_CACHE : ∀ w f, P w (set_COV_CACHE f w);
  ignores_SEQ_CACHE : ∀ w f, P w (set_SEQ_CACHE f w);
  ignores_CONTEXT_TEMPLATES_CACHE : ∀ w c, P w (set_CONTEXT_TEMPLATES_CACHE c w);
  ignores_files : ∀ w f, P w (set_files f w);
}.

(** What a computation returned, or [d] when it raised. *)
Definition returned {A} (d : A) (r : result A) : A :=
  match r with
  | Ok a => a
  | Raise _ => d
  end.

(** An object whose references lead outside [D]. *)
Definition refers_outside (D : gset loc) (o : obj) : Prop :=
  match o with
  | ListObj items => ∀ x, x ∈ items → x ∉ D
  | ReqDict _ _ _ t => t ∉ D
  | TargetDict _ => True
  end.

(** The objects at the locations of [D] exist, and the objects elsewhere
    refer to objects elsewhere. *)
Definition heap_inv (D : gset loc) (w : world R) : Prop :=
  D ⊆ dom (heap w) ∧
  ∀ l o, l ∉ D → heap w !! l = Some o → refers_outside D o.

Definition memo_outside (D : gset loc) (memo : gmap loc loc) : Prop :=
  ∀ k v, memo !! k = Some v → v ∉ D.

(** The objects at the locations of [D] are the same. *)
Definition heap_agree (D : gset loc) : relation (world R) :=
  λ w w', ∀ l, l ∈ D → heap w' !! l = heap w !! l.

(** [hoare D m Q]: run from a state that satisfies [heap_inv D], [m] stops
    in such a state, with the objects at the locations of [D] as they
    were, and what it returns satisfies [Q]. *)
Definition hoare {A} (D : gset loc) (m : M R A) (Q : A → Prop) : Prop :=
  ∀ w r w', heap_inv D w → m w = (r, w') →
    heap_inv D w' ∧ heap_agree D w w' ∧ ∀ a, r = Ok a → Q a.

End StatementDefinitions.

Module ExactExamples.
Import Exact.

(** A 10x10 weight of ones and a 10x10 update with the entries 1 to 100,
    so that the relative magnitudes are pairwise distinct. *)
Definition ones10 : tensor Qc := Tensor (10, 10) (replicate 100 1%Qc).
Definition ramp10 : tensor Qc := Tensor (10, 10) (map (λ n, of_nat n) (seq 1 100)).

(** The number of positions at which two tensors differ. *)
Definition changed_count (w w' : tensor Qc) : nat :=
  length (filter (λ p : Qc * Qc, negb (Qc_eq_bool (fst p) (snd p)))
            (zip (tdata w) (tdata w'))).

(** A tensor as its shape and the fractions it holds. *)
Definition fractions (t : tensor Qc) : (nat * nat) * list Q :=
  (tshape t, map this (tdata t)).

(** A batch that fails at its second layer: the covariance prior is
    switched off ([mom2_update_weight = 0]) and the key of the request is 1
    at layer 0 and 0 at layer 1, where [C + K K^T] is therefore singular. *)
Definition failing_ext : Externals Qc :=
  toy_ext 2%Qc (λ layer, if decide (layer = 0%Z) then 1%Qc else 0%Qc) 1%Qc.
Definition failing_hparams : MEMITLTIHyperParams Qc :=
  toy_hparams [0; 1]%Z 0%Qc false false.

(** A weight of two elements and the delta of its layer. *)
Definition pair_world : world Qc := {|
  params := {[ "transformer.h.0.mlp.c_proj.weight" := Tensor (1, 2) [1%Qc; 1%Qc] ]};
  model_name := "gpt2/toy";
  heap := ∅;
  COV_CACHE := ∅;
  SEQ_CACHE := ∅;
  CONTEXT_TEMPLATES_CACHE := None;
  files := ∅;
  trace := [];
|}.
Definition pair_delta : Delta (R:=Qc) := {|
  adj_k := Tensor (1, 1) [1%Qc];
  resid := Tensor (2, 1) [1%Qc; 2%Qc];
  distances := None;
|}.

(** The toy state when layer 0 has the history [[1]]. *)
Definition world_with_history : world Qc :=
  set_SEQ_CACHE (λ _, {[ 0%Z := scalar1 1%Qc ]}) toy_world.

(** The toy model with the target representation 2, the key 1 at every
    layer and the second moment 1, and runs of it on the toy state. *)
Definition unit_ext : Externals Qc := toy_ext 2%Qc (λ _, 1%Qc) 1%Qc.

Definition toy_requests : list request :=
  [Request "The capital of {} is" "Italy" " Rome" 7].

Definition toy_execute (hp : MEMITLTIHyperParams Qc) (w : world Qc) :=
  execute_memit_lti unit_ext hp 3%positive None w.

Definition toy_layer_step (hp : MEMITLTIHyperParams Qc) (w : world Qc) :=
  layer_step unit_ext hp toy_requests [["{}"]] 0 (scalar1 2%Qc) (params toy_world) []
    (0, 0%Z) w.

(** One layer, with the options of the history set and not set. *)
Definition hp_history : MEMITLTIHyperParams Qc := toy_hparams [0%Z] 1%Qc true true.
Definition hp_plain : MEMITLTIHyperParams Qc := toy_hparams [0%Z] 1%Qc false false.
Definition hp_two_layers : MEMITLTIHyperParams Qc := toy_hparams [0; 1]%Z 1%Qc false false.

(** One layer with [mom2_update_weight = 2] and both options of the history
    set. *)
Definition hp_weighted : MEMITLTIHyperParams Qc := toy_hparams [0%Z] 2%Qc true true.

(** The insertion of [pair_delta] into [pair_world]. *)
Definition pair_insert :=
  insert_step false (∅, []) ("transformer.h.0.mlp.c_proj.weight", pair_delta) pair_world.

(** Two solves in a row at layer 0, with the keys [[1]] and then [[2]] and
    the covariance [[1]]. *)
Definition first_solve :=
  solve_layer unit_ext hp_history 0 (scalar1 1%Qc) (scalar1 1%Qc) toy_world.
Definition second_solve :=
  solve_layer unit_ext hp_history 0 (scalar1 1%Qc) (scalar1 (1 + 1)%Qc) (snd first_solve).

(** Two calls of [get_cov] in a row, the second one forced. *)
Definition first_cov :=
  get_cov unit_ext "transformer.h.0.mlp.c_proj" "wikipedia" 100 "float32" false toy_world.
Definition forced_cov :=
  get_cov unit_ext "transformer.h.0.mlp.c_proj" "wikipedia" 100 "float32" true
    (snd first_cov).

(** The toy model with the target representation 1 and an edit of three
    layers of it: the hidden state is null, so that the target residual is
    [[1]] at every layer. *)
Definition one_ext : Externals Qc := toy_ext 1%Qc (λ _, 1%Qc) 1%Qc.
Definition hp_three_layers : MEMITLTIHyperParams Qc :=
  toy_hparams [0; 1; 2]%Z 1%Qc false false.
Definition three_layers_world : world Qc :=
  set_params <["transformer.h.2.mlp.c_proj.weight" := scalar1 1%Qc]> toy_world.
Definition three_layers_execute :=
  execute_memit_lti one_ext hp_three_layers 3%positive None three_layers_world.

(** The residuals of the deltas, by weight. *)
Definition residuals (deltas : list (string * Delta (R:=Qc))) : list (string * list Q) :=
  map (λ p, (fst p, map this (tdata (resid (snd p))))) deltas.

(** A 3x5 matrix. *)
Definition matrix35 : tensor Qc := Tensor (3, 5) (replicate 15 1%Qc).

End ExactExamples.

(** ** Definitions used in the statements about the rest of the code *)

Section FurtherDefinitions.
Context {R : Type} `{Scalar R}.

(** The names of the weights that [hparams.layers] selects. *)
Definition edited_weight (hp : MEMITLTIHyperParams R) (k : string) : Prop :=
  ∃ layer, layer ∈ layers hp ∧ k = weight_name hp layer.

(** Everything but the request objects is the same. *)
Definition only_heap_differs : relation (world R) :=
  λ w w', w' = set_heap (λ _, heap w') w.

End FurtherDefinitions.

Section FurtherRelations.
Context {R : Type} `{Scalar R}.

(** Relations that do not look at the parameters or the request objects. *)
Class IgnoresModel (P : relation (world R)) := {
  ignores_params : ∀ w f, P w (set_params f w);
  ignores_heap : ∀ w f, P w (set_heap f w);
}.

(** The history of a layer is never dropped, and changes only for the
    layers of [L]. *)
Definition history_frame (L : Z → Prop) : relation (world R) :=
  λ w w', ∀ layer,
    (is_Some (SEQ_CACHE w !! layer) → is_Some (SEQ_CACHE w' !! layer)) ∧
    (¬ L layer → SEQ_CACHE w' !! layer = SEQ_CACHE w !! layer).

(** The calls of [layer_stats] among the calls made. *)
Definition is_stats_call (e : event R) : bool :=
  match e with CallLayerStats _ _ _ => true | CallSolve _ _ => false end.

Definition stats_calls (t : list (event R)) : list (event R) :=
  List.filter is_stats_call t.

(** In [COV_CACHE], a covariance comes with its preserved keys. *)
Definition cov_paired (w : world R) : Prop :=
  ∀ m l, is_Some (COV_CACHE w !! [m; l]) →
         is_Some (COV_CACHE w !! [m; l; "preserved_keys"]).

(** The covariance of every layer of [hparams.layers] is cached. *)
Definition cov_cached (hp : MEMITLTIHyperParams R) (w : world R) : Prop :=
  ∀ layer, layer ∈ layers hp →
    is_Some (COV_CACHE w !! cov_key w (py_format (rewrite_module_tmp hp) (pretty layer))) ∧
    is_Some (COV_CACHE w
               !! cov_feature_key w (py_format (rewrite_module_tmp hp) (pretty layer))).

(** The model keeps its name and no entry of [COV_CACHE] is dropped. *)
Definition cov_grows : relation (world R) :=
  λ w w', model_name w' = model_name w ∧
          ∀ k, is_Some (COV_CACHE w !! k) → is_Some (COV_CACHE w' !! k).

End FurtherRelations.

Section FurtherRelations2.
Context {R : Type} `{Scalar R}.

(** The pairing of [COV_CACHE] is not broken. *)
Definition keeps_cov_paired : relation (world R) :=
  λ w w', cov_paired w → cov_paired w'.

(** From a state where the covariances of [hparams.layers] are cached,
    they stay cached and [layer_stats] is not called. *)
Definition stats_quiet (hp : MEMITLTIHyperParams R) : relation (world R) :=
  λ w w', cov_cached hp w →
          cov_cached hp w' ∧ stats_calls (trace w') = stats_calls (trace w).

End FurtherRelations2.

Section FurtherRelations3.
Context {R : Type} `{Scalar R}.

(** Context templates that are cached stay the ones they are. *)
Definition templates_kept : relation (world R) :=
  λ w w', ∀ c, CONTEXT_TEMPLATES_CACHE w = Some c → CONTEXT_TEMPLATES_CACHE w' = Some c.

End FurtherRelations3.

(** A string without braces. *)
Fixpoint brace_free (s : string) : bool :=
  match s with
  | EmptyString => true
  | String c rest =>
      negb (Ascii.eqb c "{"%char) && negb (Ascii.eqb c "}"%char) && brace_free rest
  end.

(** A string without dots. *)
Fixpoint dot_free (s : string) : bool :=
  match s with
  | EmptyString => true
  | String c rest => negb (Ascii.eqb c "."%char) && dot_free rest
  end.

Section FurtherRelations4.
Context {R : Type} `{Scalar R}.

(** The calls that [execute_memit_lti] makes for [hp]: the statistics of a
    layer of [hparams.layers], with the sample size of the
    hyper-parameters and not forced; any solve. *)
Definition expected_call (hp : MEMITLTIHyperParams R) (e : event R) : Prop :=
  match e with
  | CallLayerStats name n force =>
      force = false ∧ n = mom2_n_samples hp ∧
      ∃ layer, layer ∈ layers hp ∧ name = py_format (rewrite_module_tmp hp) (pretty layer)
  | CallSolve _ _ => True
  end.

Definition calls_as_expected (hp : MEMITLTIHyperParams R) : relation (world R) :=
  λ w w', ∃ evs, trace w' = trace w ++ evs ∧ Forall (expected_call hp) evs.

End FurtherRelations4.

Section FurtherRelations5.
Context {R : Type} `{Scalar R}.

(** A computation that neither reads nor writes [SEQ_CACHE]. *)
Definition history_blind {A} (m : M R A) : Prop :=
  ∀ f w, m (set_SEQ_CACHE f w) = (fst (m w), set_SEQ_CACHE f (snd (m w))).

End FurtherRelations5.

(** ** The requests as objects *)

(** Lines 124 to 127 on one target string. *)
Definition with_leading_space (s : string) : string :=
  match s with
  | EmptyString => EmptyString
  | String c _ => if Ascii.eqb c " "%char then s else " " +:+ s
  end.

Definition normalized (r : request) : request :=
  Request (prompt r) (subject r) (with_leading_space (target_new r)) (case_id r).

(** The request that a location of the heap holds. *)
Definition read_heap (h : gmap loc obj) (l : loc) : option request :=
  match h !! l with
  | Some (ReqDict p s c t) =>
      match h !! t with
      | Some (TargetDict str) => Some (Request p s str c)
      | _ => None
      end
  | _ => None
  end.

(** The references an object holds; in a closed heap they lead to objects
    of the heap. *)
Definition refs (o : obj) : list loc :=
  match o with
  | ListObj items => items
  | ReqDict _ _ _ t => [t]
  | TargetDict _ => []
  end.

Definition heap_closed (h : gmap loc obj) : Prop :=
  ∀ l o x, h !! l = Some o → x ∈ refs o → is_Some (h !! x).

(** The memo of [deepcopy]: every object of the heap [h0] it lists has a
    copy in [h], outside [h0], whose references are the copies the memo
    lists. *)
Definition copy_inv (h0 h : gmap loc obj) (memo : gmap loc loc) : Prop :=
  ∀ k v, memo !! k = Some v →
    (v ∉ dom h0) ∧
    match h0 !! k with
    | Some (TargetDict s) => h !! v = Some (TargetDict s)
    | Some (ReqDict p s c t) => ∃ t', h !! v = Some (ReqDict p s c t') ∧ memo !! t = Some t'
    | _ => False
    end.

(** Between two heaps, the requests are the same up to the leading space of
    their targets. *)
Definition spaces (h h' : gmap loc obj) : Prop :=
  ∀ l, read_heap h' l = read_heap h l ∨ read_heap h' l = normalized <$> read_heap h l.

Module FurtherExamples.
Import Exact ExactExamples.

(** A solver for systems of two equations, by Cramer's rule. *)
Definition solve2 (A B : tensor Qc) : result (tensor Qc) :=
  match tshape A, tdata A with
  | (2, 2), [a; b; c; d] =>
      if decide (fst (tshape B) = 2 ∧ length (tdata B) = 2 * snd (tshape B)) then
        let det := (a * d - b * c)%Qc in
        if Qc_eq_bool det 0%Qc then Raise LinAlgError
        else Ok (tabulate 2 (snd (tshape B)) (λ i j,
                   match i with
                   | 0 => ((d * tget B 0 j - b * tget B 1 j) / det)%Qc
                   | _ => ((a * tget B 1 j - c * tget B 0 j) / det)%Qc
                   end))
      else Raise RuntimeError
  | _, _ => Raise RuntimeError
  end.

(** A model of width two: every request has the target representation
    [(1, 2)] and the key [(1, 0)], the hidden state is null, and the second
    moment of the reference inputs is the identity. *)
Definition wide_ext : Externals Qc := {|
  compute_z := λ _ _ _ _ _, Ok ([1%Qc; (1 + 1)%Qc], 0%Qc, 0%Qc);
  compute_ks := λ _ requests _ _ _,
    Ok (tabulate (length requests) 2 (λ _ j, match j with 0 => 1%Qc | _ => 0%Qc end));
  get_module_input_output_at_words := λ _ _ prompts _ _ _,
    Ok (tabulate (length prompts) 2 (λ _ _, 0%Qc),
        tabulate (length prompts) 2 (λ _ _, 0%Qc));
  layer_stats := λ _ _ _ _ _ _ _,
    Ok (Tensor (2, 2) [1%Qc; 0%Qc; 0%Qc; 1%Qc], Tensor (1, 2) [1%Qc; 1%Qc]);
  generate_fast := λ _ _ _ _, Ok ["The {a}"; "Therefore b"; "Because c"; "I d"; "You e"];
  linalg_solve := solve2;
  cache_path := λ tmpl _ _ id, tmpl +:+ pretty id +:+ ".npz";
|}.

(** Two layers with 2x2 weights and, at location 3, the list of one
    request. *)
Definition wide_world : world Qc := {|
  params := {[ "transformer.h.0.mlp.c_proj.weight" :=
                 Tensor (2, 2) [1%Qc; 1%Qc; 1%Qc; 1%Qc];
               "transformer.h.1.mlp.c_proj.weight" :=
                 Tensor (2, 2) [1%Qc; 1%Qc; 1%Qc; 1%Qc];
               "transformer.wte.weight" := Tensor (1, 2) [1%Qc; 1%Qc] ]};
  model_name := "gpt2/wide";
  heap := {[ 1%positive := ReqDict "The capital of {} is" "Italy" 7 2%positive;
             2%positive := TargetDict "Rome";
             3%positive := ListObj [1%positive] ]};
  COV_CACHE := ∅;
  SEQ_CACHE := {[ 5%Z := scalar1 1%Qc ]};
  CONTEXT_TEMPLATES_CACHE := None;
  files := ∅;
  trace := [];
|}.

Definition wide_execute (w : world Qc) :=
  execute_memit_lti wide_ext hp_two_layers 3%positive None w.
Definition wide_apply (return_orig_weights : bool) (w : world Qc) :=
  apply_memit_lti_rect_to_model wide_ext hp_two_layers 3%positive return_orig_weights
    None w.

(** Hyper-parameters that name a layer the model lacks, and none at all. *)
Definition hp_missing : MEMITLTIHyperParams Qc := toy_hparams [0; 5]%Z 1%Qc false false.
Definition hp_no_layers : MEMITLTIHyperParams Qc := toy_hparams [] 1%Qc false false.

(** The state after a first edit of the wide model. *)
Definition edited_world : world Qc := snd (wide_apply true wide_world).

(** The wide state with an empty list of requests at location 3 and the
    context templates cached. *)
Definition empty_batch_world : world Qc :=
  set_CONTEXT_TEMPLATES_CACHE (Some [["{}"]])
    (set_heap <[3%positive := ListObj []]> wide_world).

(** The wide model when the statistics cannot be computed. *)
Definition no_stats_ext : Externals Qc := {|
  compute_z := compute_z wide_ext;
  compute_ks := compute_ks wide_ext;
  get_module_input_output_at_words := get_module_input_output_at_words wide_ext;
  layer_stats := λ _ _ _ _ _ _ _, Raise (ExternalError "no statistics");
  generate_fast := generate_fast wide_ext;
  linalg_solve := linalg_solve wide_ext;
  cache_path := cache_path wide_ext;
|}.

(** A solve that fails: the matrix of the system is null. *)
Definition null_solve :=
  solve_layer unit_ext hp_plain 0 (scalar1 0%Qc) (scalar1 0%Qc) world_with_history.

(** A turn of the loop over the requests with a cache template. *)
Definition toy_request : request := Request "The capital of {} is" "Italy" " Rome" 7.
Definition cached_z_step :=
  compute_z_step wide_ext hp_two_layers (Some "cache/z_") 1 [["{}"]] ([], [])
    (0, toy_request) wide_world.

(** A model whose only weight has a name of two components. *)
Definition short_world : world Qc :=
  set_params (λ _, {[ "lm_head.weight" := Tensor (1, 2) [1%Qc; 1%Qc] ]}) pair_world.
Definition short_insert :=
  insert_step false (∅, []) ("lm_head.weight", pair_delta) short_world.

(** A batch of four requests: the first and the last are one object, the
    first two share their target, and the target of the third has its
    leading space. *)
Definition shared_world : world Qc :=
  set_heap (λ _, {[ 1%positive := ReqDict "The capital of {} is" "Italy" 7 2%positive;
                    2%positive := TargetDict "Rome";
                    3%positive := ListObj [1; 4; 5; 1]%positive;
                    4%positive := ReqDict "{} has its seat in" "The Vatican" 8 2%positive;
                    5%positive := ReqDict "The capital of {} is" "France" 9 6%positive;
                    6%positive := TargetDict " Paris" ]}) wide_world.

(** The wide state when layer 0 has a history. *)
Definition wide_world_with_history : world Qc :=
  set_SEQ_CACHE (λ _, {[ 0%Z := Tensor (2, 2) [(1 + 1)%Qc; 0%Qc; 0%Qc; (1 + 1)%Qc] ]})
    wide_world.

(** The insertion of a delta into the square weight of layer 0. *)
Definition square_delta : Delta (R:=Qc) := {|
  adj_k := Tensor (2, 1) [1%Qc; 0%Qc];
  resid := Tensor (2, 1) [1%Qc; (1 + 1)%Qc];
  distances := None;
|}.
Definition square_insert :=
  insert_step false (∅, []) ("transformer.h.0.mlp.c_proj.weight", square_delta) wide_world.

(** Two layers, with the distances asked for. *)
Definition hp_distances : MEMITLTIHyperParams Qc := {|
  layers := [0; 1]%Z;
  rewrite_module_tmp := "transformer.h.{}.mlp.c_proj";
  layer_module_tmp := "transformer.h.{}";
  mom2_dataset := "wikipedia";
  mom2_n_samples := 100;
  mom2_dtype := "float32";
  mom2_update_weight := 1%Qc;
  clamp_norm_factor := 1%Qc;
  fact_token := "subject_last";
  sequential := false;
  add_prev_edits := false;
  calculate_norms := false;
  calculate_objective_value := true;
|}.
Definition distances_execute :=
  execute_memit_lti wide_ext hp_distances 3%positive None wide_world.

End FurtherExamples.

(** * Properties *)

(** ** Reasoning about results and computations *)

Lemma rbind_Ok {A B} (r : result A) (k : A → result B) (b : B) :
  rbind r k = Ok b → ∃ a, r = Ok a ∧ k a = Ok b.
Proof. destruct r as [a|e]; simpl; [eauto | discriminate]. Qed.

Section MonadFacts.
Context {R : Type} `{Scalar R}.

Lemma bind_Ok {A B} (m : M R A) (k : A → M R B) w b w' :
  bind m k w = (Ok b, w') → ∃ a w1, m w = (Ok a, w1) ∧ k a w1 = (Ok b, w').
Proof.
  unfold bind. destruct (m w) as [[a|e] w1]; [eauto | discriminate].
Qed.

Lemma bind_inv {A B} (m : M R A) (k : A → M R B) w r w' :
  bind m k w = (r, w') →
  (∃ a w1, m w = (Ok a, w1) ∧ k a w1 = (r, w')) ∨
  (∃ e, m w = (Raise e, w') ∧ r = Raise e).
Proof.
  unfold bind. destruct (m w) as [[a|e] w1]; [eauto | ].
  intros [= <- <-]. eauto.
Qed.

Lemma lift_Ok {A} (r : result A) (w : world R) a w' :
  lift r w = (Ok a, w') → r = Ok a ∧ w' = w.
Proof. unfold lift. by intros [= -> ->]. Qed.

End MonadFacts.

(** Decomposes a hypothesis stating that a computation returned. *)
Ltac inv_ok :=
  repeat match goal with
    | H : bind _ _ _ = (Ok _, _) |- _ =>
        let a := fresh "a" in let w := fresh "w" in
        let H1 := fresh "Hm" in
        apply bind_Ok in H as (a & w & H1 & H)
    | H : lift _ _ = (Ok _, _) |- _ =>
        let E := fresh "E" in apply lift_Ok in H as [E ->]
    | H : get _ = (Ok _, _) |- _ => unfold get in H; simplify_eq
    | H : ret _ _ = (Ok _, _) |- _ => unfold ret in H; simplify_eq
    | H : modify _ _ = (Ok _, _) |- _ => unfold modify in H; simplify_eq
    | H : raise _ _ = (Ok _, _) |- _ => unfold raise in H; discriminate H
    | H : rbind _ _ = Ok _ |- _ =>
        let a := fresh "a" in let H1 := fresh "Hr" in
        apply rbind_Ok in H as (a & H1 & H)
    | H : Ok _ = Ok _ |- _ => simplify_eq
    | H : ?m _ = (Ok _, _) |- _ =>
        match m with
        | context [match ?x with _ => _ end] => is_var x; destruct x
        end
    | H : Raise _ = Ok _ |- _ => discriminate H
    end.

(** ** The shape contract of [upd_matrix_match_shape] *)

Section ShapeContract.
Context {R : Type} `{Scalar R}.

Lemma shape_of_transpose (m : tensor R) :
  shape_of (transpose m) = [snd (tshape m); fst (tshape m)].
Proof. reflexivity. Qed.

(** C7. [upd_matrix_match_shape] returns the matrix itself when its shape is
    the target, otherwise its transpose when the transpose has the target
    shape, and raises [ValueError] exactly when neither has it; whatever it
    returns has the target shape. A 3x5 matrix is returned as it is for
    (3,5), transposed for (5,3), and refused for (4,4). *)
Theorem upd_matrix_match_shape_contract (matrix : tensor R) (shape : list nat) :
  (shape_of matrix = shape → upd_matrix_match_shape matrix shape = Ok matrix) ∧
  (shape_of matrix ≠ shape → shape_of (transpose matrix) = shape →
     upd_matrix_match_shape matrix shape = Ok (transpose matrix)) ∧
  (upd_matrix_match_shape matrix shape = Raise ValueError ↔
     shape_of matrix ≠ shape ∧ shape_of (transpose matrix) ≠ shape) ∧
  (∀ e, upd_matrix_match_shape matrix shape = Raise e → e = ValueError) ∧
  (∀ m, upd_matrix_match_shape matrix shape = Ok m → shape_of m = shape) ∧
  (tshape matrix = (3, 5) →
     upd_matrix_match_shape matrix [3; 5] = Ok matrix ∧
     upd_matrix_match_shape matrix [5; 3] = Ok (transpose matrix) ∧
     upd_matrix_match_shape matrix [4; 4] = Raise ValueError).
Proof.
  unfold upd_matrix_match_shape.
  split_and!.
  1-5: destruct (decide (shape_of matrix = shape));
       destruct (decide (shape_of (transpose matrix) = shape));
       intuition congruence.
  intros E. rewrite !shape_of_transpose. unfold shape_of. rewrite E. simpl.
  split_and!; repeat destruct (decide _); congruence.
Qed.

End ShapeContract.

(** ** Frames: what a computation leaves alone *)

Section Frames.
Context {R : Type} `{Scalar R}.

Context (P : relation (world R)) `{!PreOrder P}.

Lemma preserves_ret {A} (a : A) : preserves P (ret a).
Proof. intros w r w' [= <- <-]. reflexivity. Qed.

Lemma preserves_raise {A} e : preserves P (@raise R A e).
Proof. intros w r w' [= <- <-]. reflexivity. Qed.

Lemma preserves_lift {A} (x : result A) : preserves P (lift x).
Proof. intros w r w' [= <- <-]. reflexivity. Qed.

Lemma preserves_get : preserves P get.
Proof. intros w r w' [= <- <-]. reflexivity. Qed.

Lemma preserves_modify f : (∀ w, P w (f w)) → preserves P (modify f).
Proof. intros Hf w r w' [= <- <-]. apply Hf. Qed.

Lemma preserves_bind {A B} (m : M R A) (k : A → M R B) :
  preserves P m → (∀ a, preserves P (k a)) → preserves P (bind m k).
Proof.
  intros Hm Hk w r w' Hrun. apply bind_inv in Hrun as [(a & w1 & H1 & H2)|(e & H1 & _)].
  - etrans; [by eapply Hm | by eapply Hk].
  - by eapply Hm.
Qed.

Lemma preserves_foldM {A B} (f : B → A → M R B) (l : list A) (b : B) :
  (∀ b a, a ∈ l → preserves P (f b a)) → preserves P (foldM f l b).
Proof.
  revert b. induction l as [|a l IH]; intros b Hf; simpl.
  - apply preserves_ret.
  - apply preserves_bind; [apply Hf; left|].
    intros b'. apply IH. intros ???. apply Hf. by right.
Qed.

End Frames.

(** Proves [preserves P m] by following the structure of [m]; what remains
    are the updates of the state and the calls of other functions. *)
Ltac frame_step :=
  cbv beta;
  match goal with
  | |- preserves ?P (ret _) => apply (preserves_ret P)
  | |- preserves ?P (raise _) => apply (preserves_raise P)
  | |- preserves ?P (lift _) => apply (preserves_lift P)
  | |- preserves ?P get => apply (preserves_get P)
  | |- preserves ?P (bind _ _) => apply (preserves_bind P); [|intros ?]
  | |- preserves ?P (foldM _ _ _) => apply (preserves_foldM P); intros ? ? ?
  | |- preserves _ (match ?x with _ => _ end) => destruct x
  | |- preserves _ ((match ?x with _ => _ end) _) => destruct x
  end.
Ltac frame := repeat frame_step.

(** ** The covariance cache *)

Section CovCache.
Context {R : Type} `{Scalar R}.
Variable ext : Externals R.

Lemma cov_keys_distinct (w : world R) (layer_name : string) :
  cov_key w layer_name ≠ cov_feature_key w layer_name.
Proof. unfold cov_key, cov_feature_key. discriminate. Qed.

(** What a call that returned leaves in the cache. *)
Lemma get_cov_returns layer_name ds n dt force (w w' : world R) cov pk :
  get_cov ext layer_name ds n dt force w = (Ok (cov, pk), w') →
  model_name w' = model_name w ∧
  COV_CACHE w' !! cov_key w layer_name = Some cov ∧
  COV_CACHE w' !! cov_feature_key w layer_name = Some pk.
Proof.
  unfold get_cov. intros Hrun. inv_ok.
  match goal with
  | Hc : (if _ then _ else _) ?w0 = (Ok _, ?w1) |- _ =>
      assert (model_name w1 = model_name w0) as Hn;
      [ destruct (bool_decide _ || force); by inv_ok | clear Hc ]
  end.
  repeat match type of Hrun with
         | context [match ?x with _ => _ end] => destruct x eqn:?
         end; inv_ok.
  done.
Qed.

(** The state in which [get_cov] ends, for every outcome. *)
Lemma get_cov_final_state layer_name ds n dt force (w w' : world R) r :
  get_cov ext layer_name ds n dt force w = (r, w') →
  (w' = w ∧ force = false ∧ is_Some (COV_CACHE w !! cov_key w layer_name)) ∨
  (w' = log (CallLayerStats layer_name n force) w ∧
   ∃ e, r = Raise e ∧
        layer_stats ext (params w) layer_name ds n dt force (length (trace w)) = Raise e) ∨
  (∃ stat pk,
     layer_stats ext (params w) layer_name ds n dt force (length (trace w))
       = Ok (stat, pk) ∧
     r = Ok (float stat, pk) ∧
     w' = set_COV_CACHE (λ c, <[cov_feature_key w layer_name := pk]>
                                (<[cov_key w layer_name := float stat]> c))
            (log (CallLayerStats layer_name n force) w)).
Proof.
  unfold get_cov. intros Hrun.
  unfold bind at 1 in Hrun. unfold get at 1 in Hrun.
  destruct (COV_CACHE w !! cov_key w layer_name) as [c|] eqn:Ec.
  - destruct force.
    + right. simpl in Hrun. unfold bind, modify, lift, get, ret in Hrun. simpl in Hrun.
      destruct (layer_stats _ _ _ _ _ _ _ _) as [[stat pk]|e] eqn:Es.
      * right. exists stat, pk. split; [done|].
        simpl in Hrun. rewrite lookup_insert_ne in Hrun by (unfold cov_key, cov_feature_key; discriminate).
        rewrite lookup_insert_eq in Hrun. rewrite lookup_insert_eq in Hrun.
        by simplify_eq.
      * left. simplify_eq. eauto.
    + left. simpl in Hrun. unfold bind, get, ret, raise in Hrun. rewrite Ec in Hrun.
      destruct (COV_CACHE w !! cov_feature_key w layer_name); simplify_eq; eauto.
  - right. simpl in Hrun. unfold bind, modify, lift, get, ret in Hrun. simpl in Hrun.
    destruct (layer_stats _ _ _ _ _ _ _ _) as [[stat pk]|e] eqn:Es.
    + right. exists stat, pk. split; [done|].
      simpl in Hrun. rewrite lookup_insert_ne in Hrun by (unfold cov_key, cov_feature_key; discriminate).
      rewrite lookup_insert_eq in Hrun. rewrite lookup_insert_eq in Hrun.
      by simplify_eq.
    + left. simplify_eq. eauto.
Qed.

(** A call that finds the covariance of the layer, and is not forced,
    leaves the state as it was. *)
Lemma get_cov_hit layer_name ds n dt (w w' : world R) c r :
  COV_CACHE w !! cov_key w layer_name = Some c →
  get_cov ext layer_name ds n dt false w = (r, w') →
  w' = w.
Proof.
  intros Hhit. unfold get_cov, bind, get. simpl. rewrite Hhit. simpl. rewrite Hhit.
  destruct (COV_CACHE w !! cov_feature_key w layer_name); unfold ret, raise; congruence.
Qed.

(** A call that finds none, or is forced, and returns. *)
Lemma get_cov_fresh layer_name ds n dt force (w w' : world R) cov pk :
  COV_CACHE w !! cov_key w layer_name = None ∨ force = true →
  get_cov ext layer_name ds n dt force w = (Ok (cov, pk), w') →
  ∃ stat,
    layer_stats ext (params w) layer_name ds n dt force (length (trace w))
      = Ok (stat, pk) ∧
    cov = float stat ∧
    w' = set_COV_CACHE (λ c, <[cov_feature_key w layer_name := pk]>
                               (<[cov_key w layer_name := float stat]> c))
           (log (CallLayerStats layer_name n force) w).
Proof.
  intros Hfresh Hrun.
  assert (bool_decide (COV_CACHE w !! cov_key w layer_name = None) || force = true)
    as Hcond.
  { destruct Hfresh as [Hnone| ->]; [|apply orb_true_r].
    by rewrite (bool_decide_eq_true_2 _ Hnone). }
  unfold get_cov in Hrun. unfold bind at 1 in Hrun. unfold get at 1 in Hrun.
  rewrite Hcond in Hrun.
  unfold bind, modify, lift, get, ret in Hrun. simpl in Hrun.
  destruct (layer_stats _ _ _ _ _ _ _ _) as [[stat pk']|e] eqn:Es; [|done].
  simpl in Hrun.
  rewrite lookup_insert_ne in Hrun by (unfold cov_key, cov_feature_key; discriminate).
  rewrite lookup_insert_eq in Hrun. rewrite lookup_insert_eq in Hrun.
  exists stat. by simplify_eq.
Qed.

(** C8. A call of [get_cov] that returns has either found the covariance
    of the layer in the cache, with [force_recompute=False], and then it
    leaves the whole state as it was; or it has found none, or was forced,
    and then it invoked [layer_stats] exactly once, stored the single
    precision cast of the second moment and the preserved keys under the two
    keys of the layer, and changed nothing else. In both cases what it
    returns is what the cache holds afterwards. Once it has returned, a call
    with [force_recompute=False] for the same model name and layer, in a
    state [w2] whose cache still holds the two entries, returns the same
    covariance and preserved keys and leaves the whole state as it was:
    nothing is added to the calls made, so [layer_stats] is not invoked
    again. A call with [force_recompute=True], here in a state [w3], invokes
    [layer_stats] exactly once; when that returns, its two results replace
    whatever the two keys of the layer held and are returned, and when it
    raises, the exception is passed on and the cache is left as it was. *)
Theorem get_cov_cache_contract layer_name ds n dt force (w w1 w2 w3 w4 : world R)
    cov pk ds' n' dt' ds'' n'' dt'' r :
  get_cov ext layer_name ds n dt force w = (Ok (cov, pk), w1) →
  model_name w2 = model_name w1 →
  COV_CACHE w2 !! cov_key w1 layer_name = COV_CACHE w1 !! cov_key w1 layer_name →
  COV_CACHE w2 !! cov_feature_key w1 layer_name
    = COV_CACHE w1 !! cov_feature_key w1 layer_name →
  get_cov ext layer_name ds'' n'' dt'' true w3 = (r, w4) →
  (is_Some (COV_CACHE w !! cov_key w layer_name) → force = false → w1 = w) ∧
  (COV_CACHE w !! cov_key w layer_name = None ∨ force = true →
   ∃ stat,
     layer_stats ext (params w) layer_name ds n dt force (length (trace w))
       = Ok (stat, pk) ∧
     cov = float stat ∧
     trace w1 = trace w ++ [CallLayerStats layer_name n force] ∧
     w1 = set_COV_CACHE (λ c, <[cov_feature_key w layer_name := pk]>
                                (<[cov_key w layer_name := float stat]> c))
            (log (CallLayerStats layer_name n force) w)) ∧
  model_name w1 = model_name w ∧
  COV_CACHE w1 !! cov_key w1 layer_name = Some cov ∧
  COV_CACHE w1 !! cov_feature_key w1 layer_name = Some pk ∧
  get_cov ext layer_name ds' n' dt' false w2 = (Ok (cov, pk), w2) ∧
  trace w4 = trace w3 ++ [CallLayerStats layer_name n'' true] ∧
  match layer_stats ext (params w3) layer_name ds'' n'' dt'' true (length (trace w3)) with
  | Ok (stat, keys) =>
      r = Ok (float stat, keys) ∧
      COV_CACHE w4 !! cov_key w3 layer_name = Some (float stat) ∧
      COV_CACHE w4 !! cov_feature_key w3 layer_name = Some keys
  | Raise e => r = Raise e ∧ COV_CACHE w4 = COV_CACHE w3
  end.
Proof.
  intros Hrun E2 Ec2 Ek2 Hforced.
  pose proof Hrun as Hfirst.
  apply get_cov_returns in Hfirst as (Hname & Hc & Hk).
  assert (∀ w' : world R, model_name w' = model_name w →
                          cov_key w' layer_name = cov_key w layer_name)
    as Hkey by (intros w' E; unfold cov_key; by rewrite E).
  assert (∀ w' : world R, model_name w' = model_name w →
                          cov_feature_key w' layer_name = cov_feature_key w layer_name)
    as Hfkey by (intros w' E; unfold cov_feature_key; by rewrite E).
  split_and!.
  - intros [c Hhit] ->. by eapply get_cov_hit.
  - intros Hfresh.
    destruct (get_cov_fresh _ _ _ _ _ _ _ _ _ Hfresh Hrun) as (stat & Es & -> & ->).
    exists stat. by split_and!.
  - done.
  - by rewrite (Hkey w1 Hname).
  - by rewrite (Hfkey w1 Hname).
  - rewrite (Hkey w1 Hname) in Ec2. rewrite (Hfkey w1 Hname) in Ek2.
    rewrite Hc in Ec2. rewrite Hk in Ek2.
    unfold get_cov, bind, get. simpl.
    rewrite (Hkey w2), (Hfkey w2) by congruence.
    rewrite Ec2. simpl. rewrite Ec2, Ek2. done.
  - revert Hforced. unfold get_cov, bind, get, modify, lift. simpl.
    rewrite orb_true_r.
    destruct (layer_stats _ _ _ _ _ _ _ _) as [[stat keys]|e] eqn:Es; simpl.
    + rewrite lookup_insert_ne by apply not_eq_sym, cov_keys_distinct.
      rewrite lookup_insert_eq. simpl. rewrite lookup_insert_eq.
      intros [= <- <-]. by simpl.
    + intros [= <- <-]. by simpl.
  - revert Hforced. unfold get_cov, bind, get, modify, lift. simpl.
    rewrite orb_true_r.
    destruct (layer_stats _ _ _ _ _ _ _ _) as [[stat keys]|e] eqn:Es; simpl.
    + rewrite lookup_insert_ne by apply not_eq_sym, cov_keys_distinct.
      rewrite lookup_insert_eq. simpl. rewrite lookup_insert_eq.
      intros [= <- <-]. simpl. split_and!; [done| |].
      * rewrite lookup_insert_ne by apply not_eq_sym, cov_keys_distinct.
        by rewrite lookup_insert_eq.
      * by rewrite lookup_insert_eq.
    + intros [= <- <-]. simpl. done.
Qed.

End CovCache.

(** ** The per-layer update *)

Section LayerUpdate.
Context {R : Type} `{Scalar R}.
Variable ext : Externals R.

(** Everything a successful run of lines 262 to 276 did. *)
Lemma solve_layer_inv (hp : MEMITLTIHyperParams R) layer cov K (w w' : world R) adj :
  solve_layer ext hp layer cov K w = (Ok adj, w') →
  ∃ C G Hnew A,
    match SEQ_CACHE w !! layer with
    | Some h => if sequential hp && add_prev_edits hp then tadd_ cov h = Ok C else C = cov
    | None => C = cov
    end ∧
    matmul K (transpose K) = Ok G ∧
    match SEQ_CACHE w !! layer with
    | Some h => tadd_ h G = Ok Hnew
    | None => Hnew = G
    end ∧
    tadd C G = Ok A ∧
    linalg_solve ext A K = Ok adj ∧
    w' = log (CallSolve A K) (set_SEQ_CACHE <[layer := Hnew]> w).
Proof.
  unfold solve_layer. intros Hrun. inv_ok.
  destruct (SEQ_CACHE _ !! layer) as [h|] eqn:Eh;
    [destruct (sequential hp && add_prev_edits hp)|];
    inv_ok; simplify_eq; eexists _, _, _, _; split_and!; eauto; congruence.
Qed.

Lemma get_parameter_Ok name (w w' : world R) t :
  get_parameter name w = (Ok t, w') → params w !! name = Some t ∧ w' = w.
Proof.
  unfold get_parameter. intros Hrun. inv_ok.
  destruct (params _ !! name) eqn:E; inv_ok. done.
Qed.

Lemma assign_parameter_Ok name x (w w' : world R) u :
  assign_parameter name x w = (Ok u, w') →
  ∃ v x', params w !! name = Some v ∧ expand_to x (tshape v) = Ok x' ∧
          w' = set_params <[name := x']> w.
Proof.
  unfold assign_parameter. intros Hrun. inv_ok.
  match goal with Hg : get_parameter _ _ = _ |- _ =>
    apply get_parameter_Ok in Hg as [? ->] end.
  inv_ok. eauto.
Qed.

Lemma layer_targets_Ok (hp : MEMITLTIHyperParams R) requests z_layer zs layer_ks
    (w w' : world R) targets cur_zs :
  layer_targets ext hp requests z_layer zs layer_ks w = (Ok (targets, cur_zs), w') →
  ∃ io t0 f,
    get_module_input_output_at_words ext (params w) z_layer
      (map prompt requests) (map subject requests)
      (layer_module_tmp hp) (fact_token hp) = Ok io ∧
    cur_zs = transpose (snd io) ∧
    tsub zs cur_zs = Ok t0 ∧
    floordiv (snd (tshape layer_ks)) (snd (tshape t0)) = Ok f ∧
    targets = repeat_interleave t0 f ∧
    w' = w.
Proof.
  unfold layer_targets. intros Hrun. inv_ok. eauto 10.
Qed.

Lemma layer_cov_Ok (hp : MEMITLTIHyperParams R) layer (w w' : world R) cov pk :
  layer_cov ext hp layer w = (Ok (cov, pk), w') →
  ∃ c0,
    get_cov ext (py_format (rewrite_module_tmp hp) (pretty layer)) (mom2_dataset hp)
      (mom2_n_samples hp) (mom2_dtype hp) false w = (Ok (c0, pk), w') ∧
    cov = scale_cov hp (double c0).
Proof.
  unfold layer_cov. simpl. intros Hrun. inv_ok. eauto.
Qed.

(** Everything a successful turn of the loop over the layers did. *)
Lemma layer_step_inv (hp : MEMITLTIHyperParams R) requests context_templates z_layer zs
    weights_copy deltas i layer (w w' : world R) deltas' :
  layer_step ext hp requests context_templates z_layer zs weights_copy deltas (i, layer) w
    = (Ok deltas', w') →
  ∃ ks targets cur_zs cov pk w1 adj w2 upd0 v upd orig new new' dist,
    compute_ks ext (params w) requests hp layer context_templates = Ok ks ∧
    layer_targets ext hp requests z_layer zs (transpose ks) w = (Ok (targets, cur_zs), w) ∧
    layer_cov ext hp layer w = (Ok (cov, pk), w1) ∧
    solve_layer ext hp layer cov (double (transpose ks)) w1 = (Ok adj, w2) ∧
    matmul (distribute_residual hp i (double targets)) (transpose adj) = Ok upd0 ∧
    params w2 !! weight_name hp layer = Some v ∧
    upd_matrix_match_shape upd0 (shape_of v) = Ok upd ∧
    weights_copy !! weight_name hp layer = Some orig ∧
    tadd orig (float upd) = Ok new ∧
    expand_to new (tshape v) = Ok new' ∧
    w' = set_params <[weight_name hp layer := new']> w2 ∧
    (if calculate_objective_value hp
     then ∃ d, calculate_distances orig new' (double (transpose ks)) zs pk = Ok d ∧
               dist = Some d
     else dist = None) ∧
    deltas' = dict_set (weight_name hp layer)
                (Build_Delta adj (distribute_residual hp i (double targets)) dist) deltas.
Proof.
  unfold layer_step. intros Hrun. inv_ok.
  match goal with Hg : layer_targets _ _ _ _ _ _ _ = _ |- _ =>
    pose proof Hg as Ht; apply layer_targets_Ok in Ht as (?&?&?&?&?&?&?&?&->) end.
  match goal with Hg : get_parameter _ _ = _ |- _ =>
    apply get_parameter_Ok in Hg as [? ->] end.
  destruct (weights_copy !! _) as [orig|] eqn:Eorig; inv_ok.
  match goal with Hg : assign_parameter _ _ _ = _ |- _ =>
    apply assign_parameter_Ok in Hg as (v' & x' & ? & ? & ->) end.
  match goal with Hg : get_parameter _ _ = _ |- _ =>
    apply get_parameter_Ok in Hg as [Hnew ->] end.
  simpl in Hnew. rewrite lookup_insert_eq in Hnew. simplify_eq.
  destruct (calculate_objective_value hp); inv_ok;
    eexists _, _, _, _, _, _, _, _, _, _, _, _, _, _, _;
    split_and!; eauto.
Qed.

End LayerUpdate.

(** ** Relations between states *)

Section Relations.
Context {R : Type} `{Scalar R}.

#[export] Instance same_on_preorder {X} (f : world R → X) : PreOrder (same_on f).
Proof. split; [by intros ?|]. intros x y z; unfold same_on; congruence. Qed.

#[export] Instance params_frame_preorder N : PreOrder (params_frame (R:=R) N).
Proof.
  split.
  - intros w k. destruct (params w !! k); eauto.
  - intros x y z Hxy Hyz k. specialize (Hxy k).
    destruct (params x !! k) as [t|].
    + destruct Hxy as (t' & Ey & Hs & Hn). specialize (Hyz k). rewrite Ey in Hyz.
      destruct Hyz as (t'' & Ez & Hs' & Hn'). exists t''. split_and!; [done|congruence|].
      intros Hk. rewrite Hn', Hn; done.
    + specialize (Hyz k). by rewrite Hxy in Hyz.
Qed.

Lemma same_params_frame N (w w' : world R) : params w' = params w → params_frame N w w'.
Proof. intros E k. rewrite E. destruct (params w !! k); eauto. Qed.

#[export] Instance heap_agree_preorder D : PreOrder (heap_agree (R:=R) D).
Proof.
  split; [by intros ?|]. intros x y z Hxy Hyz l Hl. by rewrite Hyz, Hxy.
Qed.

#[export] Instance same_on_params_ignores : IgnoresCaches (same_on (params (R:=R))).
Proof. by split. Qed.
#[export] Instance same_on_heap_ignores : IgnoresCaches (same_on (heap (R:=R))).
Proof. by split. Qed.
#[export] Instance params_frame_ignores N : IgnoresCaches (params_frame (R:=R) N).
Proof. split; intros; by apply same_params_frame. Qed.
#[export] Instance heap_agree_ignores D : IgnoresCaches (heap_agree (R:=R) D).
Proof. by split. Qed.

End Relations.

Ltac frame_caches :=
  frame;
  try match goal with
      | |- preserves ?P (modify _) =>
          apply (preserves_modify P); intros ?;
          first [ apply ignores_log | apply ignores_COV_CACHE | apply ignores_SEQ_CACHE
                | apply ignores_CONTEXT_TEMPLATES_CACHE | apply ignores_files ]
      end.

Section FrameLemmas.
Context {R : Type} `{Scalar R}.
Variable ext : Externals R.
Context (P : relation (world R)) `{!PreOrder P} `{!IgnoresCaches P}.

Lemma get_parameter_preserves name : preserves P (@get_parameter R name).
Proof. unfold get_parameter. frame. Qed.

Lemma get_context_templates_preserves : preserves P (get_context_templates ext).
Proof. unfold get_context_templates. frame_caches. Qed.

Lemma get_cov_preserves layer_name ds n dt force :
  preserves P (get_cov ext layer_name ds n dt force).
Proof. unfold get_cov. frame_caches. Qed.

Lemma compute_z_step_preserves hp ct zl templ acc item :
  preserves P (compute_z_step ext hp ct zl templ acc item).
Proof. unfold compute_z_step. destruct acc, item. frame_caches. Qed.

Lemma solve_layer_preserves hp layer cov K : preserves P (solve_layer ext hp layer cov K).
Proof. unfold solve_layer. frame_caches. Qed.

Lemma layer_targets_preserves hp requests zl zs K :
  preserves P (layer_targets ext hp requests zl zs K).
Proof. unfold layer_targets. frame. Qed.

Lemma layer_cov_preserves hp layer : preserves P (layer_cov ext hp layer).
Proof. unfold layer_cov. simpl. frame. apply get_cov_preserves. Qed.

Lemma layer_step_preserves hp requests ct zl zs wc deltas i layer :
  (∀ x, preserves P (assign_parameter (weight_name hp layer) x)) →
  preserves P (layer_step ext hp requests ct zl zs wc deltas (i, layer)).
Proof.
  intros Hassign. unfold layer_step. frame;
    first [ apply layer_targets_preserves | apply layer_cov_preserves
          | apply solve_layer_preserves | apply get_parameter_preserves
          | apply Hassign ].
Qed.

Lemma collect_weights_preserves hp : preserves P (@collect_weights R hp).
Proof. unfold collect_weights. frame. apply get_parameter_preserves. Qed.

Lemma restore_weights_preserves weights wc :
  (∀ k x, k ∈ weights → preserves P (assign_parameter k x)) →
  preserves P (restore_weights weights wc).
Proof. intros Hassign. unfold restore_weights. frame. by apply Hassign. Qed.

End FrameLemmas.

(** ** Restoration of the weights *)

Section Restoration.
Context {R : Type} `{Scalar R}.
Variable ext : Externals R.

Lemma expand_to_shape (t t' : tensor R) s : expand_to t s = Ok t' → tshape t' = s.
Proof.
  unfold expand_to. case_decide; [by intros [= <-]|].
  destruct (broadcast_shapes _ _); [|done]. case_decide; [|done].
  intros [= <-]. by destruct s.
Qed.

Lemma expand_to_same (t : tensor R) : expand_to t (tshape t) = Ok t.
Proof. unfold expand_to. by rewrite decide_True. Qed.

(** Whatever its outcome, an assignment either leaves the state alone or
    replaces one parameter by a tensor of its shape. *)
Lemma assign_parameter_inv name x (w w' : world R) r :
  assign_parameter name x w = (r, w') →
  w' = w ∨
  ∃ v x', params w !! name = Some v ∧ expand_to x (tshape v) = Ok x' ∧
          w' = set_params <[name := x']> w.
Proof.
  unfold assign_parameter, get_parameter, bind, get, lift, modify, ret, raise.
  destruct (params w !! name) as [v|] eqn:Ev; [|intros [= <- <-]; by left].
  destruct (expand_to x (tshape v)) as [x'|e] eqn:Ex; intros [= <- <-];
    [right; eauto|by left].
Qed.

Lemma assign_parameter_params_frame (N : string → Prop) name x :
  N name → preserves (params_frame N) (assign_parameter name x).
Proof.
  intros HN w r w' Hrun.
  apply assign_parameter_inv in Hrun as [->|(v & x' & Ev & Ex & ->)]; [reflexivity|].
  intros k. simpl. destruct (decide (k = name)) as [->|Hne].
  - rewrite Ev, lookup_insert_eq. exists x'. split_and!; [done| |done].
    by apply expand_to_shape in Ex.
  - rewrite lookup_insert_ne by done. destruct (params w !! k); eauto.
Qed.

Lemma assign_parameter_same_heap name x :
  preserves (same_on heap) (assign_parameter (R:=R) name x).
Proof.
  intros w r w' Hrun.
  by apply assign_parameter_inv in Hrun as [->|(v & x' & Ev & Ex & ->)].
Qed.

(** The keys of a dictionary filled by [dict_set]. *)
Lemma dict_set_elem {V} k (v : V) d k' v' :
  (k', v') ∈ dict_set k v d → (k', v') = (k, v) ∨ (k', v') ∈ d.
Proof.
  induction d as [|[k0 v0] d IH]; simpl.
  - intros ->%list_elem_of_singleton. by left.
  - case_decide; subst.
    + intros [->|?]%elem_of_cons; [by left|]. right. by right.
    + intros [->|?]%elem_of_cons; [right; by left|].
      destruct IH as [?|?]; [done|by left|]. right. by right.
Qed.

Lemma dict_set_key {V} k (v : V) d : k ∈ (dict_set k v d).*1.
Proof.
  induction d as [|[k0 v0] d IH]; simpl; [by left|].
  case_decide; simpl; [by left|by right].
Qed.

Lemma dict_set_keys_mono {V} k (v : V) d k' : k' ∈ d.*1 → k' ∈ (dict_set k v d).*1.
Proof.
  induction d as [|[k0 v0] d IH]; simpl; [by intros ?%elem_of_nil|].
  case_decide; subst; simpl; intros [->|?]%elem_of_cons; try by left.
  - by right.
  - right. by apply IH.
Qed.

Lemma dict_get_set_eq {V} k (v : V) d : dict_get k (dict_set k v d) = Some v.
Proof.
  induction d as [|[k0 v0] d IH]; simpl; [by rewrite decide_True|].
  case_decide; subst; simpl; [by rewrite decide_True|by rewrite decide_False].
Qed.

(** The dictionary [weights] is filled from the parameters of the model. *)
Lemma collect_loop_Ok (hp : MEMITLTIHyperParams R) ls acc (w w' : world R) weights :
  foldM (λ weights layer,
           v <- get_parameter (weight_name hp layer);;
           ret (dict_set (weight_name hp layer) v weights)) ls acc w = (Ok weights, w') →
  w' = w ∧
  (∀ k v, (k, v) ∈ weights → (k, v) ∈ acc ∨ params w !! k = Some v) ∧
  (∀ k, k ∈ acc.*1 → k ∈ weights.*1) ∧
  (∀ layer, layer ∈ ls → weight_name hp layer ∈ weights.*1).
Proof.
  revert acc. induction ls as [|layer ls IH]; intros acc; simpl; intros Hrun; inv_ok.
  - split_and!; [done|eauto|done|]. by intros ? ?%elem_of_nil.
  - match goal with Hg : get_parameter _ _ = _ |- _ =>
      apply get_parameter_Ok in Hg as [Hv ->] end.
    inv_ok. apply IH in Hrun as (-> & Hval & Hkeys & Hls).
    split_and!; [done| | |].
    + intros k v Hin. destruct (Hval k v Hin) as [Hacc|?]; [|by right].
      apply dict_set_elem in Hacc as [[= -> ->]|?]; eauto.
    + intros k Hk. by apply Hkeys, dict_set_keys_mono.
    + intros l [->|?]%elem_of_cons; [|by apply Hls].
      apply Hkeys, dict_set_key.
Qed.

Lemma collect_weights_Ok (hp : MEMITLTIHyperParams R) (w w' : world R) weights weights_copy :
  collect_weights hp w = (Ok (weights, weights_copy), w') →
  w' = w ∧
  (∀ k, k ∈ weights → is_Some (params w !! k) ∧ weights_copy !! k = params w !! k) ∧
  (∀ layer, layer ∈ layers hp → weight_name hp layer ∈ weights).
Proof.
  unfold collect_weights. intros Hrun. inv_ok.
  match goal with Hg : foldM _ _ _ _ = _ |- _ =>
    apply collect_loop_Ok in Hg as (-> & Hval & _ & Hls) end.
  split_and!; [done| |done].
  intros k Hk.
  destruct (list_to_map (M:=gmap string (tensor R)) a !! k) as [v|] eqn:Ev.
  - apply elem_of_list_to_map_2 in Ev.
    destruct (Hval _ _ Ev) as [?%elem_of_nil|Hp]; [done|]. by rewrite Hp.
  - by apply not_elem_of_list_to_map in Ev.
Qed.

(** The loop that restores the weights, when it runs to its end. *)
Lemma restore_weights_Ok weights (weights_copy : gmap string (tensor R)) (w w' : world R) u :
  (∀ k, k ∈ weights → ∃ v saved,
      params w !! k = Some v ∧ weights_copy !! k = Some saved ∧ tshape saved = tshape v) →
  restore_weights weights weights_copy w = (Ok u, w') →
  ∀ k, params w' !! k = if decide (k ∈ weights) then weights_copy !! k else params w !! k.
Proof.
  unfold restore_weights. destruct u.
  revert w. induction weights as [|k0 weights IH]; intros w Hpre Hrun;
    cbn [foldM] in Hrun; inv_ok.
  - intros k. case_decide as Hk; [by apply elem_of_nil in Hk|done].
  - destruct (weights_copy !! k0) as [saved|] eqn:Esaved; inv_ok.
    match goal with Hg : assign_parameter _ _ _ = _ |- _ =>
      apply assign_parameter_Ok in Hg as (v & x' & Ev & Ex & ->) end.
    destruct (Hpre k0) as (v0 & saved0 & Ev0 & Es0 & Hshape); [by left|].
    simplify_eq. rewrite <- Hshape, expand_to_same in Ex. simplify_eq.
    match type of Hrun with foldM _ _ _ ?w1 = _ =>
      assert (∀ k, k ∈ weights → ∃ v saved,
                params w1 !! k = Some v ∧ weights_copy !! k = Some saved ∧
                tshape saved = tshape v) as Hpre'
    end.
    { intros k Hk. simpl. destruct (decide (k = k0)) as [->|Hne].
      - rewrite lookup_insert_eq. eauto.
      - rewrite lookup_insert_ne by done. apply Hpre. by right. }
    destruct a. intros k. rewrite (IH _ Hpre' Hrun); clear IH Hrun Hpre'.
    simpl. destruct (decide (k = k0)) as [->|Hne].
    + rewrite lookup_insert_eq, (decide_True (P:=k0 ∈ k0 :: weights)) by (by left).
      by case_decide.
    + rewrite lookup_insert_ne by done.
      case_decide; [by rewrite decide_True by (by right)|].
      rewrite decide_False; [done|]. by intros [?|?]%elem_of_cons.
Qed.

End Restoration.

Section RestorationTheorem.
Context {R : Type} `{Scalar R}.
Variable ext : Externals R.

Lemma elem_of_enumerate {A} (l : list A) i x : (i, x) ∈ enumerate l → x ∈ l.
Proof. unfold enumerate. intros Hin. by apply elem_of_zip_r in Hin. Qed.

Lemma normalize_requests_same_params requests :
  preserves (same_on params) (normalize_requests (R:=R) requests).
Proof.
  unfold normalize_requests, deepcopy, deepcopy_request, deepcopy_target,
    normalize_target, read_request, alloc, load_obj.
  frame; by apply (preserves_modify (same_on params)).
Qed.

(** The update-computation stage gives the model back as it found it. *)
Lemma compute_deltas_restores (hp : MEMITLTIHyperParams R) requests cache_template
    (w w' : world R) r :
  compute_deltas ext hp requests cache_template w = (Ok r, w') →
  params w' = params w ∧
  ∀ layer, layer ∈ layers hp → is_Some (params w !! weight_name hp layer).
Proof.
  unfold compute_deltas. intros Hrun. inv_ok.
  match goal with Hg : collect_weights _ _ = _ |- _ =>
    apply collect_weights_Ok in Hg as (-> & Hcopy & Hnames) end.
  match goal with Hg : restore_weights ?ws ?wc ?w4 = _ |- _ =>
    rename Hg into Hrestore; set (N := λ k : string, k ∈ ws);
    assert (params_frame N w w4) as Hframe
  end.
  { etrans; [eapply (get_context_templates_preserves ext (params_frame N)); eassumption|].
    etrans.
    - match goal with Hg : foldM (compute_z_step _ _ _ _ _) _ _ _ = _ |- _ =>
        eapply (preserves_foldM (params_frame N)) in Hg; [exact Hg|] end.
      intros ???. apply (compute_z_step_preserves ext (params_frame N)).
    - match goal with Hg : foldM (layer_step _ _ _ _ _ _ _) _ _ _ = _ |- _ =>
        eapply (preserves_foldM (params_frame N)) in Hg; [exact Hg|] end.
      intros deltas [i layer] Hin.
      apply (layer_step_preserves ext (params_frame N)).
      intros x. apply assign_parameter_params_frame.
      apply Hnames. by eapply elem_of_enumerate. }
  split; [|intros layer Hl; by apply Hcopy, Hnames].
  apply map_eq. intros k.
  erewrite restore_weights_Ok; [| |exact Hrestore].
  - specialize (Hframe k). case_decide as Hk.
    + by apply Hcopy.
    + destruct (params w !! k); [|done].
      destruct Hframe as (t' & -> & _ & ->); done.
  - intros k' Hk'. destruct (Hcopy k' Hk') as [[v Ev] Ec]. specialize (Hframe k').
    rewrite Ev in Hframe. destruct Hframe as (t' & Et' & Hs & _).
    exists t', v. by rewrite Ec.
Qed.

(** C1. When [execute_memit_lti] returns, every parameter of the model,
    and so the weight of every layer of [hparams.layers], holds the very
    value it held on entry (and each of these weights exists), whatever the
    requests, the hyper-parameters and the collaborators are, and although
    the loop over the layers overwrote these weights. *)
Theorem execute_memit_lti_restores_weights (hp : MEMITLTIHyperParams R) requests
    cache_template (w w' : world R) r :
  execute_memit_lti ext hp requests cache_template w = (Ok r, w') →
  params w' = params w ∧
  ∀ layer, layer ∈ layers hp →
    is_Some (params w !! weight_name hp layer) ∧
    params w' !! weight_name hp layer = params w !! weight_name hp layer.
Proof.
  unfold execute_memit_lti. intros Hrun. inv_ok.
  match goal with Hg : normalize_requests _ _ = _ |- _ =>
    apply normalize_requests_same_params in Hg as Hn; unfold same_on in Hn end.
  apply compute_deltas_restores in Hrun as [Hp Hl].
  assert (params w' = params w) as E by congruence.
  split; [done|]. intros layer Hin. rewrite E. split; [|done].
  rewrite <- Hn. by apply Hl.
Qed.

End RestorationTheorem.

(** ** The solve, the history of earlier batches and the residual *)

Section LayerTheorems.
Context {R : Type} `{Scalar R}.
Variable ext : Externals R.

Lemma get_cov_same_SEQ_CACHE layer_name ds n dt force :
  preserves (same_on SEQ_CACHE) (get_cov ext layer_name ds n dt force).
Proof.
  unfold get_cov. frame; by apply (preserves_modify (same_on SEQ_CACHE)).
Qed.

(** C9. At every layer of every batch whose processing goes through, the
    adjusted keys recorded for the layer are what [torch.linalg.solve]
    returned for the matrix [C + K K^T] and the right-hand side [K], where
    [K] is the transposed key matrix cast to double precision and [C] is
    obtained from the covariance [c0] that [get_cov] returned in three
    steps: the cast to double precision; the scaling [S], which is the cast
    covariance as it is when [mom2_update_weight] equals 1 and its product
    by [mom2_update_weight] otherwise; and the addition of the history of
    the layer when there is one and both options are set. This call is the
    last one logged, and the adjusted keys are its result as it is: no
    inverse is formed. So when the solver meets its contract,
    [(C + K K^T) @ adj_k = K]. *)
Theorem adjusted_keys_solve_the_regularised_system (hp : MEMITLTIHyperParams R) requests
    context_templates z_layer zs weights_copy deltas i layer (w w' : world R) deltas' :
  (∀ A B X, linalg_solve ext A B = Ok X → matmul A X = Ok B) →
  layer_step ext hp requests context_templates z_layer zs weights_copy deltas (i, layer) w
    = (Ok deltas', w') →
  ∃ ks c0 pk w1 S C G A d,
    compute_ks ext (params w) requests hp layer context_templates = Ok ks ∧
    get_cov ext (py_format (rewrite_module_tmp hp) (pretty layer)) (mom2_dataset hp)
      (mom2_n_samples hp) (mom2_dtype hp) false w = (Ok (c0, pk), w1) ∧
    S = (if reqb (mom2_update_weight hp) rone then double c0
         else tmul_scalar (double c0) (mom2_update_weight hp)) ∧
    match SEQ_CACHE w !! layer with
    | Some history =>
        if sequential hp && add_prev_edits hp then tadd_ S history = Ok C else C = S
    | None => C = S
    end ∧
    matmul (double (transpose ks)) (transpose (double (transpose ks))) = Ok G ∧
    tadd C G = Ok A ∧
    dict_get (weight_name hp layer) deltas' = Some d ∧
    linalg_solve ext A (double (transpose ks)) = Ok (adj_k d) ∧
    last (trace w') = Some (CallSolve A (double (transpose ks))) ∧
    matmul A (adj_k d) = Ok (double (transpose ks)).
Proof.
  intros Hsolver Hrun.
  apply layer_step_inv in Hrun
    as (ks & targets & cur_zs & cov & pk & w1 & adj & w2 & upd0 & v & upd & orig & new &
        new' & dist & Hks & _ & Hcov & Hsolve & _ & _ & _ & _ & _ & _ & -> & _ & ->).
  apply layer_cov_Ok in Hcov as (c0 & Hcov & ->).
  apply solve_layer_inv in Hsolve as (C & G & Hnew & A & HC & HG & _ & HA & Hadj & ->).
  apply get_cov_same_SEQ_CACHE in Hcov as Hseq. unfold same_on in Hseq.
  rewrite Hseq in HC.
  exists ks, c0, pk, w1, (scale_cov hp (double c0)), C, G, A,
    (Build_Delta adj (distribute_residual hp i (double targets)) dist).
  split_and!; try done.
  - unfold scale_cov. by destruct (reqb (mom2_update_weight hp) rone).
  - apply dict_get_set_eq.
  - simpl. by rewrite last_snoc.
  - by apply Hsolver.
Qed.

(** C4. Two successive batches at one layer, the first finding no history:
    the matrix of the second solve is [C + K1 K1^T + K2 K2^T] when both
    options are set, and [C + K2 K2^T] otherwise, where [C] is the covariance
    given to the second batch; in both cases the history left behind is
    [K1 K1^T + K2 K2^T]. Between the batches the state may change in any
    way that keeps the history of the layer. *)
Theorem second_batch_solves_with_history (hp1 hp2 : MEMITLTIHyperParams R) layer
    C1 K1 C K2 (w0 w1 w1' w2 : world R) adj1 adj2 :
  SEQ_CACHE w0 !! layer = None →
  solve_layer ext hp1 layer C1 K1 w0 = (Ok adj1, w1) →
  SEQ_CACHE w1' !! layer = SEQ_CACHE w1 !! layer →
  solve_layer ext hp2 layer C K2 w1' = (Ok adj2, w2) →
  ∃ G1 G2 S A Hist,
    matmul K1 (transpose K1) = Ok G1 ∧
    matmul K2 (transpose K2) = Ok G2 ∧
    (if sequential hp2 && add_prev_edits hp2 then tadd_ C G1 = Ok S else S = C) ∧
    tadd S G2 = Ok A ∧
    trace w2 = trace w1' ++ [CallSolve A K2] ∧
    linalg_solve ext A K2 = Ok adj2 ∧
    SEQ_CACHE w1 !! layer = Some G1 ∧
    tadd_ G1 G2 = Ok Hist ∧
    SEQ_CACHE w2 !! layer = Some Hist.
Proof.
  intros Hnone Hfirst Hkeep Hsecond.
  apply solve_layer_inv in Hfirst as (C1' & G1 & H1 & A1 & _ & HG1 & HH1 & _ & _ & ->).
  rewrite Hnone in HH1. subst H1.
  simpl in Hkeep. rewrite lookup_insert_eq in Hkeep.
  apply solve_layer_inv in Hsecond as (S & G2 & Hist & A & HS & HG2 & HHist & HA & Hadj & ->).
  rewrite Hkeep in HS, HHist.
  exists G1, G2, S, A, Hist. simpl. rewrite !lookup_insert_eq. split_and!; done.
Qed.

(** C5, as the code has it. Processing a batch at a layer creates the
    history of the layer from the batch's [K K^T] when there is none, and
    adds [K K^T] into it when there is one, in both cases whatever the
    options are; the history of the other layers is left as it is. *)
Theorem history_is_always_updated (hp : MEMITLTIHyperParams R) requests
    context_templates z_layer zs weights_copy deltas i layer (w w' : world R) deltas' :
  layer_step ext hp requests context_templates z_layer zs weights_copy deltas (i, layer) w
    = (Ok deltas', w') →
  ∃ ks G,
    compute_ks ext (params w) requests hp layer context_templates = Ok ks ∧
    matmul (double (transpose ks)) (transpose (double (transpose ks))) = Ok G ∧
    match SEQ_CACHE w !! layer with
    | None => SEQ_CACHE w' !! layer = Some G
    | Some history =>
        ∃ history', tadd_ history G = Ok history' ∧ SEQ_CACHE w' !! layer = Some history'
    end ∧
    ∀ layer', layer' ≠ layer → SEQ_CACHE w' !! layer' = SEQ_CACHE w !! layer'.
Proof.
  intros Hrun.
  apply layer_step_inv in Hrun
    as (ks & targets & cur_zs & cov & pk & w1 & adj & w2 & upd0 & v & upd & orig & new &
        new' & dist & Hks & _ & Hcov & Hsolve & _ & _ & _ & _ & _ & _ & -> & _ & ->).
  apply layer_cov_Ok in Hcov as (c0 & Hcov & ->).
  apply get_cov_same_SEQ_CACHE in Hcov. unfold same_on in Hcov.
  apply solve_layer_inv in Hsolve as (C & G & Hnew & A & _ & HG & HH & _ & _ & ->).
  rewrite Hcov in HH. exists ks, G. simpl. split_and!; [done|done| |].
  - rewrite lookup_insert_eq. destruct (SEQ_CACHE w !! layer); [eauto|by subst].
  - intros layer' Hne. rewrite lookup_insert_ne by done. by rewrite Hcov.
Qed.

Lemma dict_get_set_ne {V} k k' (v : V) d :
  k' ≠ k → dict_get k (dict_set k' v d) = dict_get k d.
Proof.
  intros Hne. induction d as [|[k0 v0] d IH]; simpl.
  - by rewrite decide_False.
  - destruct (decide (k0 = k')) as [->|Hk]; simpl.
    + by rewrite !decide_False.
    + destruct (decide (k0 = k)); [done|apply IH].
Qed.

(** The turns of the loop for other weights keep the entry of a weight. *)
Lemma layer_loop_keeps_entry (hp : MEMITLTIHyperParams R) requests ct zl zs wc k items :
  ∀ deltas (w w' : world R) deltas',
    foldM (layer_step ext hp requests ct zl zs wc) items deltas w = (Ok deltas', w') →
    (∀ q i layer, items !! q = Some (i, layer) → weight_name hp layer ≠ k) →
    dict_get k deltas' = dict_get k deltas.
Proof.
  induction items as [|[i layer] items IH]; intros deltas w w' deltas' Hrun Hother;
    cbn [foldM] in Hrun.
  - unfold ret in Hrun. by simplify_eq.
  - apply bind_Ok in Hrun as (d1 & w1 & Hstep & Hrest).
    apply layer_step_inv in Hstep
      as (ks & targets & cur_zs & cov & pk & w0 & adj & w2 & upd0 & v & upd & orig &
          new & new' & dist & _ & _ & _ & _ & _ & _ & _ & _ & _ & _ & _ & _ & ->).
    rewrite (IH _ _ _ _ Hrest).
    + apply dict_get_set_ne. by apply (Hother 0 i).
    + intros q i' layer' Hq. by apply (Hother (S q) i').
Qed.

(** The turn of the loop at position [p], when no later turn is for the
    same weight: the entry of the weight in the result holds the residual
    of that turn, divided by what its index gives. *)
Lemma layer_loop_residual (hp : MEMITLTIHyperParams R) requests ct zl zs wc items :
  ∀ deltas (w w' : world R) deltas',
    foldM (layer_step ext hp requests ct zl zs wc) items deltas w = (Ok deltas', w') →
    ∀ p i layer,
      items !! p = Some (i, layer) →
      (∀ q i' layer', p < q → items !! q = Some (i', layer') →
                      weight_name hp layer' ≠ weight_name hp layer) →
      ∃ wi ks io t0 f d,
        compute_ks ext (params wi) requests hp layer ct = Ok ks ∧
        get_module_input_output_at_words ext (params wi) zl
          (map prompt requests) (map subject requests)
          (layer_module_tmp hp) (fact_token hp) = Ok io ∧
        tsub zs (transpose (snd io)) = Ok t0 ∧
        floordiv (snd (tshape (transpose ks))) (snd (tshape t0)) = Ok f ∧
        dict_get (weight_name hp layer) deltas' = Some d ∧
        resid d = tdiv_scalar (double (repeat_interleave t0 f))
                    (of_nat (length (layers hp) - i)).
Proof.
  induction items as [|[i0 layer0] items IH]; intros deltas w w' deltas' Hrun p i layer Hp
    Hlast; [done|].
  cbn [foldM] in Hrun. apply bind_Ok in Hrun as (d1 & w1 & Hstep & Hrest).
  destruct p as [|p].
  - injection Hp as -> ->.
    apply layer_step_inv in Hstep
      as (ks & targets & cur_zs & cov & pk & w0 & adj & w2 & upd0 & v & upd & orig & new &
          new' & dist & Hks & Ht & _ & _ & _ & _ & _ & _ & _ & _ & _ & _ & ->).
    apply layer_targets_Ok in Ht as (io & t0 & f & Hio & -> & Ht0 & Hf & -> & _).
    exists w, ks, io, t0, f,
      (Build_Delta adj (distribute_residual hp i (double (repeat_interleave t0 f))) dist).
    split_and!; try done.
    rewrite (layer_loop_keeps_entry _ _ _ _ _ _ _ _ _ _ _ _ Hrest).
    + apply dict_get_set_eq.
    + intros q i' layer' Hq. apply (Hlast (S q) i'); [lia|done].
  - apply (IH _ _ _ _ Hrest p i layer Hp).
    intros q i' layer' Hlt Hq. apply (Hlast (S q) i'); [lia|done].
Qed.

End LayerTheorems.

Import Exact ExactExamples.

(** ** The residual of a layer *)

(** C6. When [execute_memit_lti] returns, the loop over [hparams.layers]
    has given every layer its position as index: for the layer at position
    [i] (from 0) of the [L] layers, the residual recorded for the weight of
    the layer is the target residual [Z - H_l] of the normalised requests
    found in the state [wi] of that turn, with its columns repeated and cast
    to double precision, divided by [L - i]. (When a later position selects the same weight, the entry of
    the weight is that of the later position.) The quotients are not
    rescaled: in an edit of three layers at each of which the target
    residual is 1, the residuals recorded are 1/3, 1/2 and 1, whose sum is
    11/6 and not 1, and the last layer takes the whole residual. *)
Theorem residual_is_divided_by_remaining_layers {R : Type} `{Scalar R} (ext : Externals R)
    (hp : MEMITLTIHyperParams R) requests cache_template (w w' : world R) deltas z_norms :
  execute_memit_lti ext hp requests cache_template w = (Ok (deltas, z_norms), w') →
  (∃ reqs w0 context_templates z_layer zs,
     normalize_requests requests w = (Ok reqs, w0) ∧
     last (layers hp) = Some z_layer ∧
     ∀ i layer,
       layers hp !! i = Some layer →
       (∀ j layer', i < j → layers hp !! j = Some layer' →
                    weight_name hp layer' ≠ weight_name hp layer) →
       ∃ wi ks io t0 f d,
         compute_ks ext (params wi) reqs hp layer context_templates = Ok ks ∧
         get_module_input_output_at_words ext (params wi) z_layer
           (map prompt reqs) (map subject reqs)
           (layer_module_tmp hp) (fact_token hp) = Ok io ∧
         tsub zs (transpose (snd io)) = Ok t0 ∧
         floordiv (snd (tshape (transpose ks))) (snd (tshape t0)) = Ok f ∧
         dict_get (weight_name hp layer) deltas = Some d ∧
         resid d = tdiv_scalar (double (repeat_interleave t0 f))
                     (of_nat (length (layers hp) - i))) ∧
  residuals (fst (returned ([], []) (fst three_layers_execute)))
    = [("transformer.h.0.mlp.c_proj.weight", [(1 # 3)%Q]);
       ("transformer.h.1.mlp.c_proj.weight", [(1 # 2)%Q]);
       ("transformer.h.2.mlp.c_proj.weight", [1%Q])] ∧
  this (rsum (flat_map (λ p, tdata (resid (snd p)))
                (fst (returned ([], []) (fst three_layers_execute))))) = (11 # 6)%Q.
Proof.
  intros Hrun. split; [|split; by vm_compute].
  unfold execute_memit_lti in Hrun. apply bind_Ok in Hrun as (reqs & w0 & Hreqs & Hc).
  unfold compute_deltas in Hc. inv_ok.
  match goal with Hf : foldM (layer_step _ _ _ ?ct ?zl ?zs _) _ _ _ = _ |- _ =>
    rename Hf into Hloop; exists reqs, w0, ct, zl, zs end.
  split; [done|]. split.
  { match goal with E : match last (layers hp) with _ => _ end = Ok _ |- _ =>
      destruct (last (layers hp)); by simplify_eq end. }
  intros i layer Hi Hlast.
  assert (∀ j lj, enumerate (layers hp) !! j = Some (j, lj) ↔ layers hp !! j = Some lj)
    as Henum.
  { intros j lj. unfold enumerate. rewrite lookup_zip_with_Some. split.
    - intros (x & y & [= -> ->] & _ & Hy). done.
    - intros Hj. exists j, lj. split_and!; [done| |done].
      apply lookup_seq. split; [done|]. by eapply lookup_lt_Some. }
  apply (layer_loop_residual ext _ _ _ _ _ _ _ _ _ _ _ Hloop i i layer).
  - by apply Henum.
  - intros q i' layer' Hlt Hq. apply (Hlast q); [done|].
    unfold enumerate in Hq. apply lookup_zip_with_Some in Hq as (x & y & [= -> ->] & _ & Hy).
    done.
Qed.

(** ** The sparse insertion *)

Section SparseInsertion.
Context {R : Type} `{Scalar R}.

Lemma broadcast_shapes_same (s : nat * nat) : broadcast_shapes s s = Ok s.
Proof.
  unfold broadcast_shapes, bdim. rewrite !decide_True by done. by destruct s.
Qed.

Lemma binop_same_shape (f : R → R → R) (a b : tensor R) :
  tshape a = tshape b →
  binop f a b = Ok (Tensor (tshape a) (zip_with f (tdata a) (tdata b))).
Proof.
  intros E. unfold binop. rewrite <- E, broadcast_shapes_same. simpl.
  rewrite expand_to_same. simpl. rewrite E, expand_to_same. done.
Qed.

Lemma upd_matrix_match_shape_tshape (m m' : tensor R) (v : tensor R) :
  upd_matrix_match_shape m (shape_of v) = Ok m' → tshape m' = tshape v.
Proof.
  unfold upd_matrix_match_shape. intros Hm.
  assert (shape_of m' = shape_of v) as E by (repeat case_decide; congruence).
  unfold shape_of in E. destruct (tshape m'), (tshape v). simpl in E. by simplify_eq.
Qed.

(** The data written by lines 65 to 69, element by element. *)
Lemma masked_data (threshold : R) (ws us : list R) :
  zip_with (λ x (mu : bool * R), if fst mu then radd x (snd mu) else x) ws
    (zip (map (λ d, rleb threshold d)
            (map rabs (zip_with rdiv us (map (λ y, radd y eps8) ws))))
         (map to_float us))
  = zip_with (λ x u, if rleb threshold (relative_magnitude u x)
                     then radd x (to_float u) else x) ws us.
Proof.
  revert us. induction ws as [|x ws IH]; intros [|u us]; simpl; try done.
  by rewrite IH.
Qed.

Lemma sparse_insert_inv (upd_matrix w w' : tensor R) :
  tshape upd_matrix = tshape w →
  sparse_insert upd_matrix w = Ok w' →
  ∃ threshold,
    kthvalue (zip_with relative_magnitude (tdata upd_matrix) (tdata w))
      (numel w * 60 / 100) = Ok threshold ∧
    w' = Tensor (tshape w)
           (zip_with (λ x u, if rleb threshold (relative_magnitude u x)
                             then radd x (to_float u) else x)
              (tdata w) (tdata upd_matrix)).
Proof.
  intros Eshape. unfold sparse_insert, tdiv. rewrite binop_same_shape by done.
  simpl. intros Hrun. inv_ok. exists a. split.
  - rewrite <- Hr. f_equal; [|by unfold numel; simpl; rewrite Eshape].
    clear. generalize (tdata w). induction (tdata upd_matrix) as [|u us IH];
      intros [|x ws]; simpl; try done. by rewrite IH.
  - unfold masked_add in Hrun. simpl in Hrun.
    rewrite !decide_True in Hrun by done. simplify_eq. f_equal. apply masked_data.
Qed.

End SparseInsertion.

Section InsertionTheorem.
Context {R : Type} `{Scalar R}.

(** C3, as the code has it. The insertion step replaces the weight of the
    layer by the tensor in which the update entry (cast to the weight's
    precision) is added to every element whose relative magnitude
    [|U / (W + 1e-8)|] is at or above the threshold, and in which every
    other element is the original one; the threshold is the k-th smallest
    relative magnitude for k = floor(60 n / 100), n the number of elements;
    no other parameter of the model changes. *)
Theorem insertion_writes_at_or_above_threshold (return_orig_weights : bool)
    acc w_name (d : Delta) (w w' : world R) acc' :
  insert_step return_orig_weights acc (w_name, d) w = (Ok acc', w') →
  ∃ U0 U W W' threshold,
    matmul (adj_k d) (transpose (resid d)) = Ok U0 ∧
    params w !! w_name = Some W ∧
    upd_matrix_match_shape U0 (shape_of W) = Ok U ∧
    kthvalue (zip_with relative_magnitude (tdata U) (tdata W)) (numel W * 60 / 100)
      = Ok threshold ∧
    params w' = <[w_name := W']> (params w) ∧
    tshape W' = tshape W ∧
    ∀ p x u, tdata W !! p = Some x → tdata U !! p = Some u →
      tdata W' !! p = Some (if rleb threshold (relative_magnitude u x)
                            then radd x (to_float u) else x).
Proof.
  unfold insert_step. destruct acc as [weights_copy dists]. intros Hrun. inv_ok.
  match goal with Hg : get_parameter _ _ = _ |- _ =>
    apply get_parameter_Ok in Hg as [HW ->] end.
  inv_ok.
  match goal with Hs : sparse_insert _ _ = Ok _ |- _ =>
    apply sparse_insert_inv in Hs as (threshold & Hk & ->);
    [|by eapply upd_matrix_match_shape_tshape]
  end.
  destruct (split_on _ _ !! 2); inv_ok.
  eexists _, _, _, _, threshold. split_and!; try done.
  intros p x u Hx Hu. simpl. apply lookup_zip_with_Some. eauto.
Qed.

End InsertionTheorem.

Import ExactExamples.

(** C3 as stated fails. With a 10x10 weight of ones and the update 1, ...,
    100 the relative magnitudes are pairwise distinct, and 41 elements are
    incremented, the one of rank 41 from the top (the update entry 60) among
    them. With a 10x10 update of ones, all relative magnitudes are equal
    and all 100 elements are incremented. *)
Lemma insertion_increments_41_of_100 :
  (∃ w', sparse_insert ramp10 ones10 = Ok w' ∧
         changed_count ones10 w' = 41 ∧
         changed_count ones10 w' ≠ 40 ∧
         this <$> tdata ramp10 !! 59 = Some 60%Q ∧
         this <$> tdata ones10 !! 59 = Some 1%Q ∧
         this <$> tdata w' !! 59 = Some 61%Q) ∧
  (∃ w', sparse_insert ones10 ones10 = Ok w' ∧
         changed_count ones10 w' = 100).
Proof.
  split.
  - destruct (sparse_insert ramp10 ones10) as [w'|e] eqn:E;
      [|vm_compute in E; discriminate E].
    exists w'. split; [done|].
    vm_compute in E. injection E as <-. vm_compute. split_and!; done.
  - destruct (sparse_insert ones10 ones10) as [w'|e] eqn:E;
      [|vm_compute in E; discriminate E].
    exists w'. split; [done|].
    vm_compute in E. injection E as <-. by vm_compute.
Qed.

(** ** The caller's requests *)

Section Requests.
Context {R : Type} `{Scalar R}.

Lemma hoare_ret {A} D (a : A) (Q : A → Prop) : Q a → hoare (R:=R) D (ret a) Q.
Proof. intros HQ w r w' Hinv [= <- <-]. split_and!; [done|done|]. by intros ? [= <-]. Qed.

Lemma hoare_raise {A} D e (Q : A → Prop) : hoare (R:=R) D (raise e) Q.
Proof. intros w r w' Hinv [= <- <-]. split_and!; done. Qed.

Lemma hoare_bind {A B} D (m : M R A) (k : A → M R B) (Q1 : A → Prop) (Q2 : B → Prop) :
  hoare D m Q1 → (∀ a, Q1 a → hoare D (k a) Q2) → hoare D (bind m k) Q2.
Proof.
  intros Hm Hk w r w' Hinv Hrun.
  apply bind_inv in Hrun as [(a & w1 & H1 & H2)|(e & H1 & ->)].
  - destruct (Hm _ _ _ Hinv H1) as (Hinv1 & Hag1 & HQ1).
    destruct (Hk a (HQ1 _ eq_refl) _ _ _ Hinv1 H2) as (Hinv2 & Hag2 & HQ2).
    split_and!; [done| |done]. etrans; done.
  - destruct (Hm _ _ _ Hinv H1) as (Hinv1 & Hag1 & HQ1). split_and!; done.
Qed.

Lemma hoare_weaken {A} D (m : M R A) (Q Q' : A → Prop) :
  hoare D m Q → (∀ a, Q a → Q' a) → hoare D m Q'.
Proof.
  intros Hm HQ w r w' Hinv Hrun. destruct (Hm _ _ _ Hinv Hrun) as (?&?&HQm).
  split_and!; [done|done|]. intros a ->. by apply HQ, HQm.
Qed.

Lemma hoare_foldM {A B} D (f : B → A → M R B) (l : list A) (b : B)
    (QA : A → Prop) (QB : B → Prop) :
  (∀ b a, QB b → QA a → hoare D (f b a) QB) →
  Forall QA l → QB b → hoare D (foldM f l b) QB.
Proof.
  intros Hf Hl. revert b. induction Hl as [|a l Ha Hl IH]; intros b Hb; simpl.
  - by apply hoare_ret.
  - eapply hoare_bind; [by apply Hf|]. intros b' Hb'. by apply IH.
Qed.

(** Reading an object outside [D] gives an object that refers outside [D]. *)
Lemma hoare_load_obj D l :
  hoare (R:=R) D (load_obj l) (λ o, l ∉ D → refers_outside D o).
Proof.
  intros w r w' Hinv. unfold load_obj, bind, get, ret, raise.
  destruct (heap w !! l) as [o|] eqn:El; intros [= <- <-]; split_and!; try done.
  intros ? [= <-] Hl. destruct Hinv as [_ Hclosed]. by eapply Hclosed.
Qed.

(** A new object that refers outside [D] is stored outside [D]. *)
Lemma hoare_alloc D o :
  refers_outside D o → hoare (R:=R) D (alloc o) (λ l, l ∉ D).
Proof.
  intros Ho w r w' [Hdom Hclosed]. unfold alloc, bind, get, modify, ret.
  intros [= <- <-].
  assert (fresh (dom (heap w)) ∉ D) as Hfresh.
  { intros Hin. apply (is_fresh (dom (heap w))). by apply Hdom. }
  split_and!.
  - split; simpl.
    + rewrite dom_insert_L. set_solver.
    + intros l o' Hl. destruct (decide (l = fresh (dom (heap w)))) as [->|Hne].
      * rewrite lookup_insert_eq. by intros [= <-].
      * rewrite lookup_insert_ne by done. by apply Hclosed.
  - intros l Hl. simpl. rewrite lookup_insert_ne; [done|]. by intros <-.
  - by intros ? [= <-].
Qed.

(** Overwriting a target dictionary outside [D]. *)
Lemma hoare_store_target D t s :
  t ∉ D → hoare (R:=R) D (modify (set_heap <[t := TargetDict s]>)) (λ _, True).
Proof.
  intros Ht w r w' [Hdom Hclosed] [= <- <-]. split_and!; [|..|done].
  - split; simpl.
    + rewrite dom_insert_L. set_solver.
    + intros l o' Hl. destruct (decide (l = t)) as [->|Hne].
      * rewrite lookup_insert_eq. by intros [= <-].
      * rewrite lookup_insert_ne by done. by apply Hclosed.
  - intros l Hl. simpl. rewrite lookup_insert_ne; [done|]. by intros <-.
Qed.

Lemma deepcopy_target_hoare D memo t :
  memo_outside D memo →
  hoare (R:=R) D (deepcopy_target memo t)
    (λ tm, (fst tm ∉ D) ∧ memo_outside D (snd tm)).
Proof.
  intros Hmemo. unfold deepcopy_target.
  destruct (memo !! t) as [t'|] eqn:Et.
  { apply hoare_ret. simpl. split; [by eapply Hmemo|done]. }
  eapply hoare_bind; [apply hoare_load_obj|]. intros o _.
  destruct o; try apply hoare_raise.
  eapply hoare_bind; [by apply hoare_alloc|]. intros l' Hl'.
  apply hoare_ret. simpl. split; [done|].
  intros k v. destruct (decide (k = t)) as [->|Hne].
  - rewrite lookup_insert_eq. by intros [= <-].
  - rewrite lookup_insert_ne by done. apply Hmemo.
Qed.

Lemma deepcopy_request_hoare D memo l :
  memo_outside D memo →
  hoare (R:=R) D (deepcopy_request memo l)
    (λ lm, (fst lm ∉ D) ∧ memo_outside D (snd lm)).
Proof.
  intros Hmemo. unfold deepcopy_request.
  destruct (memo !! l) as [l'|] eqn:El.
  { apply hoare_ret. simpl. split; [by eapply Hmemo|done]. }
  eapply hoare_bind; [apply hoare_load_obj|]. intros o _.
  destruct o as [|p s c t|]; try apply hoare_raise.
  eapply hoare_bind; [by apply deepcopy_target_hoare|]. intros [t' memo'] [Ht' Hmemo'].
  eapply hoare_bind; [by apply hoare_alloc|]. intros l' Hl'.
  apply hoare_ret. simpl. split; [done|].
  intros k v. destruct (decide (k = l)) as [->|Hne].
  - rewrite lookup_insert_eq. by intros [= <-].
  - rewrite lookup_insert_ne by done. apply Hmemo'.
Qed.

Lemma deepcopy_hoare D requests : hoare (R:=R) D (deepcopy requests) (λ l, l ∉ D).
Proof.
  unfold deepcopy.
  eapply hoare_bind; [apply hoare_load_obj|]. intros o _.
  destruct o as [items| |]; try apply hoare_raise.
  eapply hoare_bind.
  - apply (hoare_foldM D _ items _ (λ _, True)
             (λ am, Forall (λ x, x ∉ D) (fst am) ∧ memo_outside D (snd am))).
    + intros [acc memo] l [Hacc Hmemo] _.
      eapply hoare_bind; [by apply deepcopy_request_hoare|].
      intros [l' memo'] [Hl' Hmemo']. apply hoare_ret. simpl in *. split; [|done].
      apply Forall_app. split; [done|]. by apply Forall_singleton.
    + by apply Forall_true.
    + simpl. split; [constructor|]. intros k v. by rewrite lookup_empty.
  - intros [copies memo] [Hcopies _]. apply hoare_alloc. simpl.
    by apply Forall_forall.
Qed.

Lemma normalize_target_hoare D request :
  request ∉ D → hoare (R:=R) D (normalize_target request) (λ _, True).
Proof.
  intros Hr. unfold normalize_target.
  eapply hoare_bind; [apply hoare_load_obj|]. intros o Ho.
  destruct o as [|p s c t|]; try apply hoare_raise.
  specialize (Ho Hr). simpl in Ho.
  eapply hoare_bind; [apply hoare_load_obj|]. intros o' _.
  destruct o' as [| |str]; try apply hoare_raise.
  destruct str as [|c' str]; [apply hoare_raise|].
  destruct (Ascii.eqb c' " "); [by apply hoare_ret|].
  by apply hoare_store_target.
Qed.

Lemma read_request_hoare D l : hoare (R:=R) D (read_request l) (λ _, True).
Proof.
  unfold read_request.
  eapply hoare_bind; [apply hoare_load_obj|]. intros o _.
  destruct o as [|p s c t|]; try apply hoare_raise.
  eapply hoare_bind; [apply hoare_load_obj|]. intros o' _.
  destruct o'; try apply hoare_raise. by apply hoare_ret.
Qed.

Lemma normalize_requests_hoare D requests :
  hoare (R:=R) D (normalize_requests requests) (λ _, True).
Proof.
  unfold normalize_requests.
  eapply hoare_bind; [apply deepcopy_hoare|]. intros copy Hcopy.
  eapply hoare_bind; [apply hoare_load_obj|]. intros o Ho.
  destruct o as [items| |]; try apply hoare_raise.
  specialize (Ho Hcopy). simpl in Ho.
  eapply hoare_bind.
  - apply (hoare_foldM D _ items _ (λ x, x ∉ D) (λ _, True)); [|by apply Forall_forall|done].
    intros _ request _ Hrequest. by apply normalize_target_hoare.
  - intros _ _.
    apply (hoare_foldM D _ items _ (λ _, True) (λ _, True)); [|by apply Forall_true|done].
    intros acc l _ _. eapply hoare_bind; [apply read_request_hoare|].
    intros r _. by apply hoare_ret.
Qed.

(** Every object of the heap is in the state [normalize_requests] leaves. *)
Lemma normalize_requests_keeps_objects requests (w w' : world R) r :
  normalize_requests requests w = (r, w') →
  ∀ l o, heap w !! l = Some o → heap w' !! l = Some o.
Proof.
  intros Hrun l o Hl.
  destruct (normalize_requests_hoare (dom (heap w)) requests w r w') as (_ & Hag & _).
  - split; [done|]. intros l' o' Hl' Ho'. exfalso. apply Hl'. by apply elem_of_dom.
  - done.
  - rewrite Hag; [done|]. by apply elem_of_dom.
Qed.

Lemma compute_deltas_same_heap (ext : Externals R) hp requests cache_template :
  preserves (same_on heap) (compute_deltas ext hp requests cache_template).
Proof.
  unfold compute_deltas. frame.
  - apply (collect_weights_preserves (same_on heap)).
  - apply (get_context_templates_preserves ext (same_on heap)).
  - apply (compute_z_step_preserves ext (same_on heap)).
  - match goal with x : (nat * Z)%type |- _ => destruct x end.
    apply (layer_step_preserves ext (same_on heap)).
    intros x. apply assign_parameter_same_heap.
  - apply (restore_weights_preserves (same_on heap)).
    intros k x _. apply assign_parameter_same_heap.
Qed.

Lemma insert_step_same_heap return_orig_weights acc item :
  preserves (same_on heap) (insert_step (R:=R) return_orig_weights acc item).
Proof.
  unfold insert_step. destruct acc, item. frame.
  - apply (get_parameter_preserves (same_on heap)).
  - by apply (preserves_modify (same_on heap)).
Qed.

(** C10. Whether they return or raise, [execute_memit_lti] and
    [apply_memit_lti_rect_to_model] leave every object that was in the heap
    when they were called as it was: the list of the caller's requests, the
    request dictionaries and their target dictionaries. The leading space
    is written into copies, which are new objects. *)
Theorem callers_requests_are_left_unchanged (ext : Externals R) hp requests
    return_orig_weights cache_template (w w' : world R) r1 r2 l o :
  execute_memit_lti ext hp requests cache_template w = (r1, w') ∨
  apply_memit_lti_rect_to_model ext hp requests return_orig_weights cache_template w
    = (r2, w') →
  heap w !! l = Some o →
  heap w' !! l = Some o.
Proof.
  assert (∀ r w', execute_memit_lti ext hp requests cache_template w = (r, w') →
            heap w !! l = Some o → heap w' !! l = Some o) as Hexec.
  { intros r w1 Hrun Hl. unfold execute_memit_lti in Hrun.
    apply bind_inv in Hrun as [(reqs & w0 & H1 & H2)|(e & H1 & _)].
    - apply compute_deltas_same_heap in H2. unfold same_on in H2. rewrite H2.
      by eapply normalize_requests_keeps_objects.
    - by eapply normalize_requests_keeps_objects. }
  intros [Hrun|Hrun] Hl; [by eapply Hexec|].
  unfold apply_memit_lti_rect_to_model in Hrun.
  apply bind_inv in Hrun as [([deltas z_norms] & w1 & H1 & H2)|(e & H1 & _)];
    [|by eapply Hexec].
  assert (heap w' = heap w1) as ->; [|by eapply Hexec].
  revert H2. generalize w1 r2 w'.
  change (preserves (same_on heap)
            (bind (foldM (insert_step return_orig_weights) deltas (∅, []))
               (λ x, let (weights_copy, distances_) := x in
                     ret (weights_copy, distances_, z_norms)))).
  frame. apply insert_step_same_heap.
Qed.

End Requests.

(** ** The examples, evaluated *)

Section ExactSolver.

Lemma Qc_solve_step (a b : Qc) : a ≠ 0%Qc → (0 + a * (b / a))%Qc = b.
Proof. intros Ha. rewrite Qcplus_0_l. by apply Qcmult_div_r. Qed.

(** The solver of the toy model meets the contract of a linear solve. *)
Lemma solve1_sound (A B X : tensor Qc) : solve1 A B = Ok X → matmul A X = Ok B.
Proof.
  unfold solve1. destruct A as [[ra ca] da], B as [[rb cb] db]. simpl.
  destruct ra as [|[|?]]; try done. destruct ca as [|[|?]]; try done.
  destruct da as [|a [|??]]; try done.
  case_decide as HB; [|done]. destruct HB as [-> Hlen]. simpl in Hlen.
  destruct (Qc_eq_bool a 0) eqn:Ea; [done|]. intros [= <-].
  assert (a ≠ 0%Qc) as Ha.
  { intros ->. unfold Qc_eq_bool in Ea. by destruct (Qcanon.Qc_eq_dec _ _). }
  unfold matmul. simpl. f_equal. unfold tabulate. simpl. f_equal.
  rewrite app_nil_r. subst cb. apply list_eq. intros j.
  rewrite list_lookup_fmap. destruct (db !! j) as [b|] eqn:Eb.
  - rewrite lookup_seq_lt by (by eapply lookup_lt_Some). simpl.
    unfold rsum, tget. simpl. f_equal.
    erewrite nth_lookup_Some; [|by rewrite list_lookup_fmap, Eb].
    by apply Qc_solve_step.
  - rewrite lookup_seq_ge; [done|]. by apply lookup_ge_None.
Qed.

End ExactSolver.

(** ** The claims at concrete inputs *)

(** C2 fails on the code. In the batch [failing_hparams], [failing_ext]
    the solve of layer 1 raises [LinAlgError]; the weight of layer 0, which
    was 1 on entry, is 2 when the exception reaches the caller: the function
    has no handler that would restore it. *)
Lemma error_at_second_layer_leaves_first_weight_edited :
  fst (execute_memit_lti failing_ext failing_hparams 3%positive None toy_world)
    = Raise LinAlgError ∧
  fractions <$> params toy_world !! "transformer.h.0.mlp.c_proj.weight"
    = Some ((1, 1), [1%Q]) ∧
  fractions <$>
    params (snd (execute_memit_lti failing_ext failing_hparams 3%positive None toy_world))
      !! "transformer.h.0.mlp.c_proj.weight"
    = Some ((1, 1), [2%Q]).
Proof. by vm_compute. Qed.

(** C5 as stated fails: with both options off and the history [[1]] at
    layer 0, processing a batch at layer 0 leaves the history [[2]]. *)
Lemma history_changes_with_options_off :
  sequential hp_plain = false ∧ add_prev_edits hp_plain = false ∧
  (∃ r, fst (toy_execute hp_plain world_with_history) = Ok r) ∧
  fractions <$> SEQ_CACHE world_with_history !! 0%Z = Some ((1, 1), [1%Q]) ∧
  fractions <$> SEQ_CACHE (snd (toy_execute hp_plain world_with_history)) !! 0%Z
    = Some ((1, 1), [2%Q]).
Proof.
  split_and!; try by vm_compute.
  destruct (fst (toy_execute hp_plain world_with_history)) as [r|e] eqn:E; [by eexists|].
  by vm_compute in E.
Qed.

(** The shape contract at a 3x5 matrix and the three target shapes. *)
Lemma upd_matrix_match_shape_contract_witness :
  upd_matrix_match_shape matrix35 [3; 5] = Ok matrix35 ∧
  upd_matrix_match_shape matrix35 [5; 3] = Ok (transpose matrix35) ∧
  upd_matrix_match_shape matrix35 [4; 4] = Raise ValueError ∧
  shape_of (transpose matrix35) = [5; 3].
Proof.
  destruct (upd_matrix_match_shape_contract matrix35 [3; 5]) as (H1 & _).
  destruct (upd_matrix_match_shape_contract matrix35 [5; 3]) as (_ & H2 & _ & _ & H5 & _).
  destruct (upd_matrix_match_shape_contract matrix35 [4; 4]) as (_ & _ & H3 & _).
  split_and!.
  - apply H1. reflexivity.
  - apply H2; [discriminate|reflexivity].
  - apply H3. split; discriminate.
  - apply H5, H2; [discriminate|reflexivity].
Defined.

(** A run of two layers and one request returns, and restores both weights. *)
Lemma execute_memit_lti_restores_weights_witness :
  toy_execute hp_two_layers toy_world
    = (Ok (returned ([], []) (fst (toy_execute hp_two_layers toy_world))),
       snd (toy_execute hp_two_layers toy_world)) ∧
  params (snd (toy_execute hp_two_layers toy_world)) = params toy_world ∧
  ∀ layer, layer ∈ layers hp_two_layers →
    is_Some (params toy_world !! weight_name hp_two_layers layer) ∧
    params (snd (toy_execute hp_two_layers toy_world)) !! weight_name hp_two_layers layer
      = params toy_world !! weight_name hp_two_layers layer.
Proof.
  assert (toy_execute hp_two_layers toy_world
            = (Ok (returned ([], []) (fst (toy_execute hp_two_layers toy_world))),
               snd (toy_execute hp_two_layers toy_world))) as Hrun
    by (vm_compute; reflexivity).
  split; [exact Hrun|].
  exact (execute_memit_lti_restores_weights unit_ext hp_two_layers 3%positive None
           toy_world _ _ Hrun).
Defined.

(** The insertion of a delta into a weight of two elements. *)
Lemma insertion_writes_at_or_above_threshold_witness :
  pair_insert = (Ok (returned (∅, []) (fst pair_insert)), snd pair_insert) ∧
  ∃ U0 U W W' threshold,
    matmul (adj_k pair_delta) (transpose (resid pair_delta)) = Ok U0 ∧
    params pair_world !! "transformer.h.0.mlp.c_proj.weight" = Some W ∧
    upd_matrix_match_shape U0 (shape_of W) = Ok U ∧
    kthvalue (zip_with relative_magnitude (tdata U) (tdata W)) (numel W * 60 / 100)
      = Ok threshold ∧
    params (snd pair_insert)
      = <["transformer.h.0.mlp.c_proj.weight" := W']> (params pair_world) ∧
    tshape W' = tshape W ∧
    ∀ p x u, tdata W !! p = Some x → tdata U !! p = Some u →
      tdata W' !! p = Some (if rleb threshold (relative_magnitude u x)
                            then radd x (to_float u) else x).
Proof.
  assert (pair_insert = (Ok (returned (∅, []) (fst pair_insert)), snd pair_insert))
    as Hrun by (vm_compute; reflexivity).
  split; [exact Hrun|].
  exact (insertion_writes_at_or_above_threshold false (∅, [])
           "transformer.h.0.mlp.c_proj.weight" pair_delta pair_world _ _ Hrun).
Defined.

(** Two batches at layer 0 with both options set: the second solve has the
    matrix 1 + 1 + 4. *)
Lemma second_batch_solves_with_history_witness :
  SEQ_CACHE toy_world !! 0%Z = None ∧
  first_solve = (Ok (returned (scalar1 0%Qc) (fst first_solve)), snd first_solve) ∧
  second_solve = (Ok (returned (scalar1 0%Qc) (fst second_solve)), snd second_solve) ∧
  ∃ G1 G2 S A Hist,
    matmul (scalar1 1%Qc) (transpose (scalar1 1%Qc)) = Ok G1 ∧
    matmul (scalar1 (1 + 1)%Qc) (transpose (scalar1 (1 + 1)%Qc)) = Ok G2 ∧
    (if sequential hp_history && add_prev_edits hp_history
     then tadd_ (scalar1 1%Qc) G1 = Ok S else S = scalar1 1%Qc) ∧
    tadd S G2 = Ok A ∧
    trace (snd second_solve)
      = trace (snd first_solve) ++ [CallSolve A (scalar1 (1 + 1)%Qc)] ∧
    linalg_solve unit_ext A (scalar1 (1 + 1)%Qc)
      = Ok (returned (scalar1 0%Qc) (fst second_solve)) ∧
    SEQ_CACHE (snd first_solve) !! 0%Z = Some G1 ∧
    tadd_ G1 G2 = Ok Hist ∧
    SEQ_CACHE (snd second_solve) !! 0%Z = Some Hist.
Proof.
  assert (SEQ_CACHE toy_world !! 0%Z = None) as Hnone by reflexivity.
  assert (first_solve = (Ok (returned (scalar1 0%Qc) (fst first_solve)), snd first_solve))
    as Hfirst by (vm_compute; reflexivity).
  assert (second_solve
            = (Ok (returned (scalar1 0%Qc) (fst second_solve)), snd second_solve))
    as Hsecond by (vm_compute; reflexivity).
  split_and!; [exact Hnone|exact Hfirst|exact Hsecond|].
  exact (second_batch_solves_with_history unit_ext hp_history hp_history 0%Z
           (scalar1 1%Qc) (scalar1 1%Qc) (scalar1 1%Qc) (scalar1 (1 + 1)%Qc)
           toy_world (snd first_solve) (snd first_solve) (snd second_solve) _ _
           Hnone Hfirst eq_refl Hsecond).
Defined.

(** A batch at a layer that has a history, with both options off. *)
Lemma history_is_always_updated_witness :
  toy_layer_step hp_plain world_with_history
    = (Ok (returned [] (fst (toy_layer_step hp_plain world_with_history))),
       snd (toy_layer_step hp_plain world_with_history)) ∧
  ∃ ks G,
    compute_ks unit_ext (params world_with_history) toy_requests hp_plain 0 [["{}"]]
      = Ok ks ∧
    matmul (double (transpose ks)) (transpose (double (transpose ks))) = Ok G ∧
    match SEQ_CACHE world_with_history !! 0%Z with
    | None => SEQ_CACHE (snd (toy_layer_step hp_plain world_with_history)) !! 0%Z = Some G
    | Some history =>
        ∃ history', tadd_ history G = Ok history' ∧
          SEQ_CACHE (snd (toy_layer_step hp_plain world_with_history)) !! 0%Z
            = Some history'
    end ∧
    ∀ layer', layer' ≠ 0%Z →
      SEQ_CACHE (snd (toy_layer_step hp_plain world_with_history)) !! layer'
        = SEQ_CACHE world_with_history !! layer'.
Proof.
  assert (toy_layer_step hp_plain world_with_history
            = (Ok (returned [] (fst (toy_layer_step hp_plain world_with_history))),
               snd (toy_layer_step hp_plain world_with_history))) as Hrun
    by (vm_compute; reflexivity).
  split; [exact Hrun|].
  exact (history_is_always_updated unit_ext hp_plain toy_requests [["{}"]] 0
           (scalar1 2%Qc) (params toy_world) [] 0 0%Z world_with_history _ _ Hrun).
Defined.

(** An edit of three layers, at each of which the target residual is 1. *)
Lemma residual_is_divided_by_remaining_layers_witness :
  three_layers_execute
    = (Ok (returned ([], []) (fst three_layers_execute)), snd three_layers_execute) ∧
  (∃ reqs w0 context_templates z_layer zs,
     normalize_requests 3%positive three_layers_world = (Ok reqs, w0) ∧
     last (layers hp_three_layers) = Some z_layer ∧
     ∀ i layer,
       layers hp_three_layers !! i = Some layer →
       (∀ j layer', i < j → layers hp_three_layers !! j = Some layer' →
                    weight_name hp_three_layers layer' ≠ weight_name hp_three_layers layer) →
       ∃ wi ks io t0 f d,
         compute_ks one_ext (params wi) reqs hp_three_layers layer context_templates
           = Ok ks ∧
         get_module_input_output_at_words one_ext (params wi) z_layer
           (map prompt reqs) (map subject reqs)
           (layer_module_tmp hp_three_layers) (fact_token hp_three_layers) = Ok io ∧
         tsub zs (transpose (snd io)) = Ok t0 ∧
         floordiv (snd (tshape (transpose ks))) (snd (tshape t0)) = Ok f ∧
         dict_get (weight_name hp_three_layers layer)
           (fst (returned ([], []) (fst three_layers_execute))) = Some d ∧
         resid d = tdiv_scalar (double (repeat_interleave t0 f))
                     (of_nat (length (layers hp_three_layers) - i))) ∧
  residuals (fst (returned ([], []) (fst three_layers_execute)))
    = [("transformer.h.0.mlp.c_proj.weight", [(1 # 3)%Q]);
       ("transformer.h.1.mlp.c_proj.weight", [(1 # 2)%Q]);
       ("transformer.h.2.mlp.c_proj.weight", [1%Q])] ∧
  this (rsum (flat_map (λ p, tdata (resid (snd p)))
                (fst (returned ([], []) (fst three_layers_execute))))) = (11 # 6)%Q.
Proof.
  assert (three_layers_execute
            = (Ok (fst (returned ([], []) (fst three_layers_execute)),
                   snd (returned ([], []) (fst three_layers_execute))),
               snd three_layers_execute)) as Hrun
    by (vm_compute; reflexivity).
  split; [vm_compute; reflexivity|].
  exact (residual_is_divided_by_remaining_layers one_ext hp_three_layers 3%positive None
           three_layers_world _ _ _ Hrun).
Defined.

(** A first call, which finds the cache empty and asks [layer_stats] once,
    a second call served from the cache and a forced call. *)
Lemma get_cov_cache_contract_witness :
  first_cov
    = (Ok (returned (scalar1 0%Qc, scalar1 0%Qc) (fst first_cov)), snd first_cov) ∧
  forced_cov = (fst forced_cov, snd forced_cov) ∧
  COV_CACHE toy_world !! cov_key toy_world "transformer.h.0.mlp.c_proj" = None ∧
  trace (snd first_cov) = [CallLayerStats "transformer.h.0.mlp.c_proj" 100 false] ∧
  (is_Some (COV_CACHE toy_world !! cov_key toy_world "transformer.h.0.mlp.c_proj") →
   false = false → snd first_cov = toy_world) ∧
  (COV_CACHE toy_world !! cov_key toy_world "transformer.h.0.mlp.c_proj" = None ∨
   false = true →
   ∃ stat,
     layer_stats unit_ext (params toy_world) "transformer.h.0.mlp.c_proj" "wikipedia" 100
       "float32" false (length (trace toy_world))
       = Ok (stat, snd (returned (scalar1 0%Qc, scalar1 0%Qc) (fst first_cov))) ∧
     fst (returned (scalar1 0%Qc, scalar1 0%Qc) (fst first_cov)) = float stat ∧
     trace (snd first_cov)
       = trace toy_world ++ [CallLayerStats "transformer.h.0.mlp.c_proj" 100 false] ∧
     snd first_cov
       = set_COV_CACHE
           (λ c, <[cov_feature_key toy_world "transformer.h.0.mlp.c_proj"
                     := snd (returned (scalar1 0%Qc, scalar1 0%Qc) (fst first_cov))]>
                   (<[cov_key toy_world "transformer.h.0.mlp.c_proj" := float stat]> c))
           (log (CallLayerStats "transformer.h.0.mlp.c_proj" 100 false) toy_world)) ∧
  model_name (snd first_cov) = model_name toy_world ∧
  COV_CACHE (snd first_cov) !! cov_key (snd first_cov) "transformer.h.0.mlp.c_proj"
    = Some (fst (returned (scalar1 0%Qc, scalar1 0%Qc) (fst first_cov))) ∧
  COV_CACHE (snd first_cov) !! cov_feature_key (snd first_cov) "transformer.h.0.mlp.c_proj"
    = Some (snd (returned (scalar1 0%Qc, scalar1 0%Qc) (fst first_cov))) ∧
  get_cov unit_ext "transformer.h.0.mlp.c_proj" "wikipedia" 100 "float32" false
    (snd first_cov)
    = (Ok (returned (scalar1 0%Qc, scalar1 0%Qc) (fst first_cov)), snd first_cov) ∧
  trace (snd forced_cov)
    = trace (snd first_cov) ++ [CallLayerStats "transformer.h.0.mlp.c_proj" 100 true] ∧
  match layer_stats unit_ext (params (snd first_cov)) "transformer.h.0.mlp.c_proj"
          "wikipedia" 100 "float32" true (length (trace (snd first_cov))) with
  | Ok (stat, keys) =>
      fst forced_cov = Ok (float stat, keys) ∧
      COV_CACHE (snd forced_cov) !! cov_key (snd first_cov) "transformer.h.0.mlp.c_proj"
        = Some (float stat) ∧
      COV_CACHE (snd forced_cov)
        !! cov_feature_key (snd first_cov) "transformer.h.0.mlp.c_proj" = Some keys
  | Raise e => fst forced_cov = Raise e ∧ COV_CACHE (snd forced_cov) = COV_CACHE (snd first_cov)
  end.
Proof.
  assert (first_cov
            = (Ok (fst (returned (scalar1 0%Qc, scalar1 0%Qc) (fst first_cov)),
                   snd (returned (scalar1 0%Qc, scalar1 0%Qc) (fst first_cov))),
               snd first_cov))
    as Hfirst by (vm_compute; reflexivity).
  assert (forced_cov = (fst forced_cov, snd forced_cov)) as Hforced
    by (vm_compute; reflexivity).
  split; [vm_compute; reflexivity|]. split; [exact Hforced|].
  split; [vm_compute; reflexivity|]. split; [vm_compute; reflexivity|].
  exact (get_cov_cache_contract unit_ext "transformer.h.0.mlp.c_proj" "wikipedia" 100
           "float32" false toy_world (snd first_cov) (snd first_cov) (snd first_cov)
           (snd forced_cov) _ _ "wikipedia" 100 "float32" "wikipedia" 100 "float32" _
           Hfirst eq_refl eq_refl eq_refl Hforced).
Defined.

(** The solver of the toy model meets its contract, and a batch goes
    through at a layer with the history [[1]], the covariance [[1]], the
    key [[1]] and [mom2_update_weight = 2]: the matrix of the solve is
    [2 * 1 + 1 + 1 * 1 = 4] and the adjusted key is 1/4. *)
Lemma adjusted_keys_solve_the_regularised_system_witness :
  (∀ A B X, linalg_solve unit_ext A B = Ok X → matmul A X = Ok B) ∧
  toy_layer_step hp_weighted world_with_history
    = (Ok (returned [] (fst (toy_layer_step hp_weighted world_with_history))),
       snd (toy_layer_step hp_weighted world_with_history)) ∧
  match last (trace (snd (toy_layer_step hp_weighted world_with_history))) with
  | Some (CallSolve A B) =>
      fractions A = ((1, 1), [4%Q]) ∧ fractions B = ((1, 1), [1%Q])
  | _ => False
  end ∧
  map (λ p, fractions (adj_k (snd p)))
    (returned [] (fst (toy_layer_step hp_weighted world_with_history)))
    = [((1, 1), [(1 # 4)%Q])] ∧
  ∃ ks c0 pk w1 S C G A d,
    compute_ks unit_ext (params world_with_history) toy_requests hp_weighted 0 [["{}"]]
      = Ok ks ∧
    get_cov unit_ext (py_format (rewrite_module_tmp hp_weighted) (pretty 0%Z))
      (mom2_dataset hp_weighted) (mom2_n_samples hp_weighted) (mom2_dtype hp_weighted)
      false world_with_history = (Ok (c0, pk), w1) ∧
    S = (if reqb (mom2_update_weight hp_weighted) rone then double c0
         else tmul_scalar (double c0) (mom2_update_weight hp_weighted)) ∧
    match SEQ_CACHE world_with_history !! 0%Z with
    | Some history =>
        if sequential hp_weighted && add_prev_edits hp_weighted
        then tadd_ S history = Ok C else C = S
    | None => C = S
    end ∧
    matmul (double (transpose ks)) (transpose (double (transpose ks))) = Ok G ∧
    tadd C G = Ok A ∧
    dict_get (weight_name hp_weighted 0)
      (returned [] (fst (toy_layer_step hp_weighted world_with_history))) = Some d ∧
    linalg_solve unit_ext A (double (transpose ks)) = Ok (adj_k d) ∧
    last (trace (snd (toy_layer_step hp_weighted world_with_history)))
      = Some (CallSolve A (double (transpose ks))) ∧
    matmul A (adj_k d) = Ok (double (transpose ks)).
Proof.
  assert (toy_layer_step hp_weighted world_with_history
            = (Ok (returned [] (fst (toy_layer_step hp_weighted world_with_history))),
               snd (toy_layer_step hp_weighted world_with_history))) as Hrun
    by (vm_compute; reflexivity).
  split; [exact solve1_sound|]. split; [exact Hrun|].
  split; [by vm_compute|]. split; [by vm_compute|].
  exact (adjusted_keys_solve_the_regularised_system unit_ext hp_weighted toy_requests
           [["{}"]] 0 (scalar1 2%Qc) (params toy_world) [] 0 0%Z world_with_history _ _
           solve1_sound Hrun).
Defined.

(** After a run the caller's target dictionary still holds "Rome", without
    the leading space. *)
Lemma callers_requests_are_left_unchanged_witness :
  (toy_execute hp_two_layers toy_world
     = (fst (toy_execute hp_two_layers toy_world),
        snd (toy_execute hp_two_layers toy_world)) ∨
   apply_memit_lti_rect_to_model unit_ext hp_two_layers 3%positive false None toy_world
     = (Raise RuntimeError, snd (toy_execute hp_two_layers toy_world))) ∧
  heap toy_world !! 2%positive = Some (TargetDict "Rome") ∧
  heap (snd (toy_execute hp_two_layers toy_world)) !! 2%positive = Some (TargetDict "Rome").
Proof.
  assert (toy_execute hp_two_layers toy_world
            = (fst (toy_execute hp_two_layers toy_world),
               snd (toy_execute hp_two_layers toy_world))) as Hrun
    by (vm_compute; reflexivity).
  assert (heap toy_world !! 2%positive = Some (TargetDict "Rome")) as Hl by reflexivity.
  split; [left; exact Hrun|]. split; [exact Hl|].
  exact (callers_requests_are_left_unchanged unit_ext hp_two_layers 3%positive false None
           toy_world _ _ (Raise RuntimeError) 2%positive (TargetDict "Rome")
           (or_introl Hrun) Hl).
Defined.

(** * Further properties of the code *)

(** ** Dictionaries in insertion order *)

Section Dictionaries.
Context {V : Type}.

Lemma dict_set_keys k (v : V) d k' : k' ∈ (dict_set k v d).*1 ↔ k' = k ∨ k' ∈ d.*1.
Proof.
  induction d as [|[k0 v0] d IH]; simpl.
  - rewrite list_elem_of_singleton. split; [by left|].
    by intros [?|?%elem_of_nil].
  - destruct (decide (k0 = k)); subst; simpl; rewrite !elem_of_cons; [tauto|].
    rewrite IH. tauto.
Qed.

Lemma dict_set_NoDup k (v : V) d : NoDup d.*1 → NoDup (dict_set k v d).*1.
Proof.
  induction d as [|[k0 v0] d IH]; simpl; intros Hd.
  - apply NoDup_singleton.
  - apply NoDup_cons in Hd as [Hk0 Hd]. destruct (decide (k0 = k)); subst; simpl.
    + by apply NoDup_cons.
    + apply NoDup_cons. split; [|by apply IH].
      rewrite dict_set_keys. intros [?|?]; [congruence|done].
Qed.

Lemma dict_get_is_Some k (d : list (string * V)) : is_Some (dict_get k d) ↔ k ∈ d.*1.
Proof.
  induction d as [|[k0 v0] d IH]; simpl.
  - split; [by intros [? ?]|by intros ?%elem_of_nil].
  - destruct (decide (k0 = k)); subst; rewrite elem_of_cons.
    + split; [by left|by eexists].
    + rewrite IH. split; [by right|]. intros [?|?]; [congruence|done].
Qed.

End Dictionaries.

(** ** Which weights are touched, whatever happens *)

Section TouchedWeights.
Context {R : Type} `{Scalar R}.
Variable ext : Externals R.

#[export] Instance only_heap_differs_preorder : PreOrder (only_heap_differs (R:=R)).
Proof.
  split.
  - intros w. by destruct w.
  - intros x y z Hxy Hyz. unfold only_heap_differs in *.
    rewrite Hyz, Hxy. by destruct x.
Qed.

Lemma normalize_requests_only_heap requests :
  preserves only_heap_differs (normalize_requests (R:=R) requests).
Proof.
  unfold normalize_requests, deepcopy, deepcopy_request, deepcopy_target,
    normalize_target, read_request, alloc, load_obj.
  frame; apply (preserves_modify only_heap_differs); intros w; by destruct w.
Qed.

(** The keys of [weights] are names of edited weights. *)
Lemma collect_loop_keys (hp : MEMITLTIHyperParams R) ls acc (w w' : world R) weights :
  foldM (λ weights layer,
           v <- get_parameter (weight_name hp layer);;
           ret (dict_set (weight_name hp layer) v weights)) ls acc w = (Ok weights, w') →
  ∀ k, k ∈ weights.*1 → k ∈ acc.*1 ∨ ∃ layer, layer ∈ ls ∧ k = weight_name hp layer.
Proof.
  revert acc. induction ls as [|layer ls IH]; intros acc; simpl; intros Hrun; inv_ok.
  - eauto.
  - match goal with Hg : get_parameter _ _ = _ |- _ =>
      apply get_parameter_Ok in Hg as [Hv ->] end.
    inv_ok. intros k Hk. destruct (IH _ Hrun k Hk) as [Hacc|(l & Hl & ->)].
    + apply dict_set_keys in Hacc as [->|?]; [|by left].
      right. exists layer. split; [by left|done].
    + right. exists l. split; [by right|done].
Qed.

Lemma collect_weights_keys (hp : MEMITLTIHyperParams R) (w w' : world R) weights wc :
  collect_weights hp w = (Ok (weights, wc), w') → ∀ k, k ∈ weights → edited_weight hp k.
Proof.
  unfold collect_weights. intros Hrun. inv_ok. intros k Hk.
  match goal with Hg : foldM _ _ _ _ = _ |- _ =>
    destruct (collect_loop_keys _ _ _ _ _ _ Hg k Hk) as [?%elem_of_nil|?]; done end.
Qed.

(** One turn of the insertion loop, whatever its outcome, either leaves the
    state alone or replaces the weight by a tensor of its shape. *)
Lemma sparse_insert_shape (u w w' : tensor R) :
  sparse_insert u w = Ok w' → tshape w' = tshape w.
Proof.
  unfold sparse_insert, masked_add. intros Hrun. inv_ok.
  repeat case_decide; by simplify_eq.
Qed.

Lemma insert_step_inv_any return_orig_weights acc w_name (d : Delta) (w w' : world R) r :
  insert_step return_orig_weights acc (w_name, d) w = (r, w') →
  w' = w ∨
  ∃ W W', params w !! w_name = Some W ∧ tshape W' = tshape W ∧
          w' = set_params <[w_name := W']> w.
Proof.
  unfold insert_step, get_parameter, bind, get, lift, modify, ret, raise.
  destruct acc as [wc dists].
  destruct (matmul _ _) as [U0|e]; [|intros [= <- <-]; by left].
  destruct (params w !! w_name) as [W|] eqn:EW; [|intros [= <- <-]; by left].
  destruct (upd_matrix_match_shape _ _) as [U|e]; [|intros [= <- <-]; by left].
  destruct (sparse_insert U W) as [W'|e] eqn:EI; [|intros [= <- <-]; by left].
  apply sparse_insert_shape in EI.
  destruct (split_on _ _ !! 2); intros [= <- <-]; right; eauto.
Qed.

Lemma insert_step_params_frame (N : string → Prop) return_orig_weights acc w_name
    (d : Delta (R:=R)) :
  N w_name → preserves (params_frame N) (insert_step return_orig_weights acc (w_name, d)).
Proof.
  intros HN w r w' Hrun.
  apply insert_step_inv_any in Hrun as [->|(W & W' & EW & Hs & ->)]; [reflexivity|].
  intros k. simpl. destruct (decide (k = w_name)) as [->|Hne].
  - rewrite EW, lookup_insert_eq. exists W'. split_and!; [done|done|].
    intros Hn. by destruct Hn.
  - rewrite lookup_insert_ne by done. destruct (params w !! k); eauto.
Qed.

(** The keys of [deltas] after the loop over the layers. *)
Lemma layer_loop_keys (hp : MEMITLTIHyperParams R) requests ct zl zs wc items acc
    (w w' : world R) deltas :
  foldM (layer_step ext hp requests ct zl zs wc) items acc w = (Ok deltas, w') →
  (NoDup acc.*1 → NoDup deltas.*1) ∧
  ∀ k, k ∈ deltas.*1 ↔
       k ∈ acc.*1 ∨ ∃ i layer, (i, layer) ∈ items ∧ k = weight_name hp layer.
Proof.
  revert acc w. induction items as [|[i layer] items IH]; intros acc w Hrun;
    cbn [foldM] in Hrun; inv_ok.
  - split; [done|]. intros k. split; [by left|].
    intros [?|(?&?&?%elem_of_nil&_)]; done.
  - match goal with Hg : layer_step _ _ _ _ _ _ _ _ _ _ = _ |- _ =>
      apply layer_step_inv in Hg
        as (ks & targets & cur_zs & cov & pk & w1 & adj & w2 & upd0 & v & upd & orig &
            new & new' & dist & _ & _ & _ & _ & _ & _ & _ & _ & _ & _ & _ & _ & ->) end.
    apply IH in Hrun as [Hnd Hkeys]. split.
    + intros Hacc. by apply Hnd, dict_set_NoDup.
    + intros k. rewrite Hkeys, dict_set_keys. split.
      * intros [[->|?]|(j & l & Hin & ->)]; [right|by left|right].
        -- exists i, layer. split; [by left|done].
        -- exists j, l. split; [by right|done].
      * intros [?|(j & l & [[= -> ->]|Hin]%elem_of_cons & ->)]; [left; by right|..].
        -- left. by left.
        -- right. eauto.
Qed.

Lemma elem_of_enumerate_2 {A} (l : list A) x : x ∈ l → ∃ i, (i, x) ∈ enumerate l.
Proof.
  intros (i & Hi)%list_elem_of_lookup. exists i. unfold enumerate.
  apply list_elem_of_lookup. exists i. apply lookup_zip_with_Some.
  exists i, x. split_and!; [done| |done].
  apply lookup_seq. split; [done|]. by eapply lookup_lt_Some.
Qed.

(** What the update-computation stage returns as [deltas]. *)
Lemma compute_deltas_keys (hp : MEMITLTIHyperParams R) requests cache_template
    (w w' : world R) deltas z_norms :
  compute_deltas ext hp requests cache_template w = (Ok (deltas, z_norms), w') →
  NoDup deltas.*1 ∧ ∀ k, k ∈ deltas.*1 ↔ edited_weight hp k.
Proof.
  unfold compute_deltas. intros Hrun. inv_ok.
  match goal with Hg : foldM (layer_step _ _ _ _ _ _ _) _ _ _ = _ |- _ =>
    apply layer_loop_keys in Hg as [Hnd Hkeys] end.
  split; [apply Hnd; constructor|].
  intros k. rewrite Hkeys. unfold edited_weight. split.
  - intros [?%elem_of_nil|(i & layer & Hin & ->)]; [done|].
    exists layer. split; [by eapply elem_of_enumerate|done].
  - intros (layer & Hin & ->). right.
    destruct (elem_of_enumerate_2 _ _ Hin) as [i Hi]. eauto.
Qed.

Lemma compute_deltas_params_frame (hp : MEMITLTIHyperParams R) requests cache_template :
  preserves (params_frame (edited_weight hp))
    (compute_deltas ext hp requests cache_template).
Proof.
  intros w r w' Hrun. unfold compute_deltas in Hrun.
  apply bind_inv in Hrun as [([weights wc] & w1 & Hc & Hrest)|(e & Hc & _)];
    [|by eapply (collect_weights_preserves (params_frame (edited_weight hp)))].
  pose proof (collect_weights_keys _ _ _ _ _ Hc) as Hkeys.
  apply collect_weights_Ok in Hc as (-> & _ & _).
  revert Hrest. generalize w r w'.
  match goal with |- ∀ w r w', ?m w = (r, w') → _ =>
    change (preserves (params_frame (edited_weight hp)) m) end.
  frame.
  - apply (get_context_templates_preserves ext _).
  - apply (compute_z_step_preserves ext _).
  - match goal with x : (nat * Z)%type |- _ => destruct x as [i layer] end.
    apply (layer_step_preserves ext _). intros x.
    apply assign_parameter_params_frame. exists layer.
    split; [by eapply elem_of_enumerate|done].
  - apply (restore_weights_preserves _). intros k x Hk.
    by apply assign_parameter_params_frame, Hkeys.
Qed.

(** X1. Whether [execute_memit_lti] and [apply_memit_lti_rect_to_model]
    return or raise, the model has the same parameter names as before, every
    parameter has the shape it had, and every parameter that is not the
    weight of a layer of [hparams.layers] has the value it had. *)
Theorem only_edited_weights_are_touched (hp : MEMITLTIHyperParams R) requests
    return_orig_weights cache_template (w w' : world R) r1 r2 :
  execute_memit_lti ext hp requests cache_template w = (r1, w') ∨
  apply_memit_lti_rect_to_model ext hp requests return_orig_weights cache_template w
    = (r2, w') →
  ∀ k,
    match params w !! k with
    | Some t => ∃ t', params w' !! k = Some t' ∧ tshape t' = tshape t ∧
                      (¬ edited_weight hp k → t' = t)
    | None => params w' !! k = None
    end.
Proof.
  assert (preserves (params_frame (edited_weight hp))
            (execute_memit_lti ext hp requests cache_template)) as Hexec.
  { unfold execute_memit_lti. apply (preserves_bind _).
    - intros w0 r w0' Hrun. apply same_params_frame.
      by apply normalize_requests_same_params in Hrun.
    - intros reqs. apply compute_deltas_params_frame. }
  intros [Hrun|Hrun]; [by apply Hexec in Hrun|].
  change (params_frame (edited_weight hp) w w').
  unfold apply_memit_lti_rect_to_model in Hrun.
  apply bind_inv in Hrun as [([deltas z_norms] & w1 & H1 & H2)|(e & H1 & _)];
    [|by apply Hexec in H1].
  etrans; [by apply Hexec in H1|].
  unfold execute_memit_lti in H1. apply bind_Ok in H1 as (reqs & w0 & _ & H1).
  apply compute_deltas_keys in H1 as [_ Hkeys].
  revert H2. generalize w1 r2 w'.
  match goal with |- ∀ w r w', ?m w = (r, w') → _ =>
    change (preserves (params_frame (edited_weight hp)) m) end.
  frame. match goal with x : (string * Delta)%type |- _ => destruct x as [w_name d] end.
  apply insert_step_params_frame, Hkeys.
  apply list_elem_of_fmap. by exists (w_name, d).
Qed.

End TouchedWeights.

(** ** Batches that cannot be processed *)

Section Refusals.
Context {R : Type} `{Scalar R}.
Variable ext : Externals R.

Lemma collect_loop_missing (hp : MEMITLTIHyperParams R) ls acc (w : world R) :
  (∃ layer, layer ∈ ls ∧ params w !! weight_name hp layer = None) →
  foldM (λ weights layer,
           v <- get_parameter (weight_name hp layer);;
           ret (dict_set (weight_name hp layer) v weights)) ls acc w
    = (Raise LookupError, w).
Proof.
  revert acc. induction ls as [|layer ls IH]; intros acc (l & Hl & Hnone).
  - by apply elem_of_nil in Hl.
  - cbn [foldM]. unfold bind at 1. unfold bind at 1. unfold get_parameter, bind, get.
    destruct (params w !! weight_name hp layer) as [v|] eqn:Ev.
    + unfold ret. apply elem_of_cons in Hl as [->|Hl]; [congruence|].
      apply IH. eauto.
    + done.
Qed.

(** X2. When the weight of one of the layers of [hparams.layers] is not a
    parameter of the model, the update-computation stage raises
    [LookupError] before anything else happens: the state is the one it was
    called in. [execute_memit_lti] then does not return either, and has
    changed nothing but the request objects (the copies it made): no
    collaborator was called, no cache and no weight was written. *)
Theorem missing_weight_fails_first (hp : MEMITLTIHyperParams R) requests reqs
    cache_template (w w' : world R) r layer :
  layer ∈ layers hp →
  params w !! weight_name hp layer = None →
  execute_memit_lti ext hp requests cache_template w = (r, w') →
  compute_deltas ext hp reqs cache_template w = (Raise LookupError, w) ∧
  (∃ e, r = Raise e) ∧
  w' = set_heap (λ _, heap w') w.
Proof.
  intros Hin Hnone Hrun.
  assert (∀ (reqs : list request) (w0 : world R), params w0 = params w →
            compute_deltas ext hp reqs cache_template w0 = (Raise LookupError, w0))
    as Hfail.
  { intros reqs0 w0 E. unfold compute_deltas, collect_weights.
    unfold bind at 1. unfold bind at 1.
    rewrite collect_loop_missing; [done|]. exists layer. by rewrite E. }
  split; [by apply Hfail|].
  unfold execute_memit_lti in Hrun.
  apply bind_inv in Hrun as [(reqs0 & w1 & H1 & H2)|(e & H1 & ->)].
  - pose proof (normalize_requests_same_params _ _ _ _ H1) as Hp.
    rewrite (Hfail reqs0 w1 Hp) in H2. injection H2 as <- <-.
    split; [by eexists|]. by apply normalize_requests_only_heap in H1.
  - split; [by eexists|]. by apply normalize_requests_only_heap in H1.
Qed.

(** X3. With an empty [hparams.layers] the function cannot return: the
    update-computation stage raises, and it raises [IndexError] (from
    [hparams.layers[-1]]) without changing the state when the context
    templates are already cached. *)
Theorem empty_layers_are_refused (hp : MEMITLTIHyperParams R) requests reqs
    cache_template (w w' : world R) r :
  layers hp = [] →
  execute_memit_lti ext hp requests cache_template w = (r, w') →
  (∃ e, r = Raise e) ∧
  (is_Some (CONTEXT_TEMPLATES_CACHE w) →
   compute_deltas ext hp reqs cache_template w = (Raise IndexError, w)).
Proof.
  intros Hl Hrun. split.
  - destruct r as [[deltas zn]|e]; [|by eexists]. exfalso.
    unfold execute_memit_lti, compute_deltas in Hrun. rewrite Hl in Hrun.
    by inv_ok.
  - intros [c Hc]. unfold compute_deltas, collect_weights, get_context_templates.
    rewrite Hl. unfold bind, get, ret, lift. simpl. by rewrite Hc.
Qed.

(** The copy of an empty list of requests. *)
Lemma normalize_requests_empty requests (w : world R) :
  heap w !! requests = Some (ListObj []) →
  ∃ w1, normalize_requests requests w = (Ok [], w1).
Proof.
  intros Hl. eexists.
  unfold normalize_requests, deepcopy, load_obj, alloc, bind, get, ret, modify.
  rewrite Hl. simpl. rewrite lookup_insert_eq. simpl. reflexivity.
Qed.

Lemma collect_loop_total (hp : MEMITLTIHyperParams R) ls acc (w : world R) :
  (∀ layer, layer ∈ ls → is_Some (params w !! weight_name hp layer)) →
  ∃ weights,
    foldM (λ weights layer,
             v <- get_parameter (weight_name hp layer);;
             ret (dict_set (weight_name hp layer) v weights)) ls acc w
      = (Ok weights, w).
Proof.
  revert acc. induction ls as [|layer ls IH]; intros acc Hall.
  - by eexists.
  - destruct (Hall layer) as [v Hv]; [by apply elem_of_cons; left|].
    destruct (IH (dict_set (weight_name hp layer) v acc)) as [weights Hw].
    { intros l Hl. apply Hall. by apply elem_of_cons; right. }
    exists weights. cbn [foldM]. unfold bind at 1. unfold bind at 1.
    unfold get_parameter, bind, get. rewrite Hv. unfold ret. exact Hw.
Qed.

(** X4. With an empty list of requests the function cannot return: the
    update-computation stage has no target representation to stack. When
    the weights of the layers exist and the context templates are cached,
    the exception is the [RuntimeError] of [torch.stack]. *)
Theorem empty_batch_is_refused (hp : MEMITLTIHyperParams R) requests cache_template
    (w w' : world R) r :
  heap w !! requests = Some (ListObj []) →
  execute_memit_lti ext hp requests cache_template w = (r, w') →
  (∃ e, r = Raise e) ∧
  ((∀ layer, layer ∈ layers hp → is_Some (params w !! weight_name hp layer)) →
   layers hp ≠ [] →
   is_Some (CONTEXT_TEMPLATES_CACHE w) →
   r = Raise RuntimeError).
Proof.
  intros Hl Hrun.
  destruct (normalize_requests_empty requests w Hl) as [w1 Hn].
  pose proof (normalize_requests_only_heap _ _ _ _ Hn) as Hw1.
  unfold execute_memit_lti, bind in Hrun. rewrite Hn in Hrun. split.
  - destruct r as [[deltas zn]|e]; [|by eexists]. exfalso.
    unfold compute_deltas in Hrun. inv_ok.
    match goal with Hf : foldM _ (enumerate []) _ _ = _ |- _ => cbn in Hf end.
    by inv_ok.
  - intros Hall Hne [c Hc].
    assert (params w1 = params w) as Ep by (by rewrite Hw1).
    assert (CONTEXT_TEMPLATES_CACHE w1 = Some c) as Ec by (by rewrite Hw1).
    destruct (collect_loop_total hp (layers hp) [] w1) as [weights Hcol].
    { intros layer Hin. rewrite Ep. by apply Hall. }
    destruct (last (layers hp)) as [zl|] eqn:Elast;
      [|by apply last_None in Elast].
    unfold compute_deltas, collect_weights, get_context_templates in Hrun.
    unfold bind at 1 in Hrun. unfold bind at 1 in Hrun. rewrite Hcol in Hrun.
    unfold ret at 1 in Hrun. unfold bind, get, ret, lift in Hrun.
    rewrite Ec, Elast in Hrun. cbn in Hrun. by simplify_eq.
Qed.

(** X5. When [execute_memit_lti] returns, [deltas] has exactly one entry
    for each weight that [hparams.layers] selects, and no other entry. *)
Theorem deltas_cover_the_edited_layers (hp : MEMITLTIHyperParams R) requests
    cache_template (w w' : world R) deltas z_norms :
  execute_memit_lti ext hp requests cache_template w = (Ok (deltas, z_norms), w') →
  NoDup deltas.*1 ∧
  (∀ k, k ∈ deltas.*1 ↔ edited_weight hp k) ∧
  ∀ layer, layer ∈ layers hp → is_Some (dict_get (weight_name hp layer) deltas).
Proof.
  unfold execute_memit_lti. intros Hrun. inv_ok.
  apply compute_deltas_keys in Hrun as [Hnd Hkeys]. split_and!; [done|done|].
  intros layer Hin. apply dict_get_is_Some, Hkeys. by exists layer.
Qed.

End Refusals.

(** ** Frames of the two entry points in terms of their cache accesses *)

Ltac frame_model :=
  frame;
  try match goal with
      | |- preserves ?P (modify _) =>
          apply (preserves_modify P); intros ?;
          first [ apply ignores_params | apply ignores_heap ]
      end.

Section ComponentsOfTheState.
Context {R : Type} `{Scalar R}.

#[export] Instance same_SEQ_CACHE_ignores : IgnoresModel (same_on (R:=R) SEQ_CACHE).
Proof. by split. Qed.
#[export] Instance same_COV_CACHE_ignores : IgnoresModel (same_on (R:=R) COV_CACHE).
Proof. by split. Qed.
#[export] Instance same_trace_ignores : IgnoresModel (same_on (R:=R) trace).
Proof. by split. Qed.
#[export] Instance same_model_name_ignores : IgnoresModel (same_on (R:=R) model_name).
Proof. by split. Qed.

End ComponentsOfTheState.

Section TemplatesIgnored.
Context {R : Type} `{Scalar R}.
Variable ext : Externals R.

Lemma get_context_templates_ignored (P : relation (world R)) `{!PreOrder P} :
  (∀ w c, P w (set_CONTEXT_TEMPLATES_CACHE c w)) →
  preserves P (get_context_templates ext).
Proof.
  intros Hc. unfold get_context_templates.
  frame. apply (preserves_modify P). intros ?. apply Hc.
Qed.

Lemma compute_z_step_ignored (P : relation (world R)) `{!PreOrder P} :
  (∀ w f, P w (set_files f w)) →
  ∀ hp cache_template zl ct acc item,
    preserves P (compute_z_step ext hp cache_template zl ct acc item).
Proof.
  intros Hf hp cache_template zl ct [z_list z_norms] [r_id request].
  unfold compute_z_step. frame. apply (preserves_modify P). intros ?. apply Hf.
Qed.

End TemplatesIgnored.

Section EntryPointFrames.
Context {R : Type} `{Scalar R}.
Variable ext : Externals R.
Context (P : relation (world R)) `{!PreOrder P} `{!IgnoresModel P}.
Hypothesis templates_P : preserves P (get_context_templates ext).
Variable hp : MEMITLTIHyperParams R.
Hypothesis layer_cov_P : ∀ layer, layer ∈ layers hp → preserves P (layer_cov ext hp layer).
Hypothesis solve_layer_P :
  ∀ layer cov K, layer ∈ layers hp → preserves P (solve_layer ext hp layer cov K).

Lemma normalize_requests_preserves requests :
  preserves P (normalize_requests (R:=R) requests).
Proof.
  unfold normalize_requests, deepcopy, deepcopy_request, deepcopy_target,
    normalize_target, read_request, alloc, load_obj.
  frame_model.
Qed.

Lemma assign_parameter_preserves name x : preserves P (assign_parameter name x).
Proof. unfold assign_parameter, get_parameter. frame_model. Qed.

Lemma restore_weights_preserves_gen weights wc :
  preserves P (restore_weights (R:=R) weights wc).
Proof. unfold restore_weights. frame. apply assign_parameter_preserves. Qed.

Lemma layer_step_preserves_gen requests ct zl zs wc deltas i layer :
  layer ∈ layers hp →
  preserves P (layer_step ext hp requests ct zl zs wc deltas (i, layer)).
Proof.
  intros Hin. unfold layer_step, layer_targets, get_parameter.
  frame_model; first [ by apply layer_cov_P | by apply solve_layer_P
                     | apply assign_parameter_preserves ].
Qed.

Lemma insert_step_preserves_gen return_orig_weights acc item :
  preserves P (insert_step (R:=R) return_orig_weights acc item).
Proof. unfold insert_step, get_parameter. destruct acc, item. frame_model. Qed.

Section WithCacheTemplate.
Variable cache_template : option string.
Hypothesis z_step_P :
  ∀ zl ct acc item, preserves P (compute_z_step ext hp cache_template zl ct acc item).

Lemma compute_deltas_preserves_gen requests :
  preserves P (compute_deltas ext hp requests cache_template).
Proof.
  unfold compute_deltas, collect_weights, restore_weights, get_parameter.
  frame_model.
  - apply templates_P.
  - apply z_step_P.
  - match goal with x : (nat * Z)%type |- _ => destruct x as [i layer] end.
    apply layer_step_preserves_gen. by eapply elem_of_enumerate.
  - apply assign_parameter_preserves.
Qed.

Lemma execute_memit_lti_preserves_gen requests :
  preserves P (execute_memit_lti ext hp requests cache_template).
Proof.
  unfold execute_memit_lti. frame.
  - apply normalize_requests_preserves.
  - apply compute_deltas_preserves_gen.
Qed.

Lemma apply_memit_lti_rect_to_model_preserves_gen requests return_orig_weights :
  preserves P (apply_memit_lti_rect_to_model ext hp requests return_orig_weights
                 cache_template).
Proof.
  unfold apply_memit_lti_rect_to_model. frame.
  - apply execute_memit_lti_preserves_gen.
  - apply insert_step_preserves_gen.
Qed.

End WithCacheTemplate.

(** What every turn of the loop over the layers establishes, and later
    turns keep, holds for all the layers when an entry point returns. *)
Section Established.
Variable Q : Z → world R → Prop.
Hypothesis Q_stable : ∀ layer w w', P w w' → Q layer w → Q layer w'.
Hypothesis Q_step :
  ∀ requests ct zl zs wc deltas i layer (w w' : world R) deltas',
    layer ∈ layers hp →
    layer_step ext hp requests ct zl zs wc deltas (i, layer) w = (Ok deltas', w') →
    Q layer w'.

Lemma layer_loop_establishes requests ct zl zs wc items :
  (∀ item, item ∈ items → item.2 ∈ layers hp) →
  ∀ deltas (w w' : world R) deltas',
    foldM (layer_step ext hp requests ct zl zs wc) items deltas w = (Ok deltas', w') →
    ∀ item, item ∈ items → Q item.2 w'.
Proof.
  induction items as [|[i layer] items IH]; intros Hall deltas w w' deltas' Hrun item Hin.
  - by apply elem_of_nil in Hin.
  - cbn [foldM] in Hrun.
    apply bind_Ok in Hrun as (d1 & w1 & Hstep & Hrest).
    apply elem_of_cons in Hin as [->|Hin].
    + simpl. apply Q_step in Hstep; [|apply (Hall (i, layer)); by apply elem_of_cons; left].
      assert (preserves P (foldM (layer_step ext hp requests ct zl zs wc) items d1)) as Hp.
      { apply (preserves_foldM P). intros acc [j l] Hjl.
        apply layer_step_preserves_gen.
        apply (Hall (j, l)). by apply elem_of_cons; right. }
      eapply Q_stable; [|exact Hstep]. by eapply Hp.
    + eapply IH; [|exact Hrest|exact Hin].
      intros it Hit. apply Hall. by apply elem_of_cons; right.
Qed.

Lemma compute_deltas_establishes requests cache_template (w w' : world R) v :
  compute_deltas ext hp requests cache_template w = (Ok v, w') →
  ∀ layer, layer ∈ layers hp → Q layer w'.
Proof.
  intros Hrun layer Hin. unfold compute_deltas in Hrun. inv_ok.
  match goal with Hr : restore_weights _ _ _ = _ |- _ =>
    apply restore_weights_preserves_gen in Hr;
    eapply Q_stable; [exact Hr|] end.
  destruct (elem_of_enumerate_2 _ _ Hin) as [i Hi].
  assert (∀ item, item ∈ enumerate (layers hp) → item.2 ∈ layers hp) as Hall.
  { intros [? ?] ?. by eapply elem_of_enumerate. }
  match goal with Hf : foldM (layer_step _ _ _ _ _ _ _) _ _ _ = _ |- _ =>
    exact (layer_loop_establishes _ _ _ _ _ _ Hall _ _ _ _ Hf _ Hi) end.
Qed.

Lemma entry_points_establish requests return_orig_weights cache_template
    (w w' : world R) v1 v2 :
  execute_memit_lti ext hp requests cache_template w = (Ok v1, w') ∨
  apply_memit_lti_rect_to_model ext hp requests return_orig_weights cache_template w
    = (Ok v2, w') →
  ∀ layer, layer ∈ layers hp → Q layer w'.
Proof.
  assert (∀ w w' v1, execute_memit_lti ext hp requests cache_template w = (Ok v1, w') →
            ∀ layer, layer ∈ layers hp → Q layer w') as Hex.
  { intros w0 w0' v Hrun. unfold execute_memit_lti in Hrun.
    apply bind_Ok in Hrun as (reqs & w1 & _ & Hc).
    by eapply compute_deltas_establishes. }
  intros [Hrun|Hrun]; [by eapply Hex|].
  unfold apply_memit_lti_rect_to_model in Hrun.
  apply bind_Ok in Hrun as ([deltas zn] & w1 & Hrun & Hins).
  apply bind_Ok in Hins as ([wc rep] & w2 & Hins & Hret).
  unfold ret in Hret. simplify_eq.
  intros layer Hin.
  assert (preserves P (foldM (insert_step (R:=R) return_orig_weights) deltas (∅, [])))
    as Hp.
  { apply (preserves_foldM P). intros acc item _. apply insert_step_preserves_gen. }
  eapply Q_stable; [by eapply Hp|]. by eapply Hex.
Qed.

End Established.

End EntryPointFrames.

(** ** The history of edited keys, [SEQ_CACHE] *)

Section History.
Context {R : Type} `{Scalar R}.
Variable ext : Externals R.

#[export] Instance history_frame_preorder L : PreOrder (history_frame (R:=R) L).
Proof.
  split.
  - intros w layer. done.
  - intros w1 w2 w3 H12 H23 layer.
    destruct (H12 layer) as [A1 B1], (H23 layer) as [A2 B2]. split.
    + intros Hs. by apply A2, A1.
    + intros Hn. by rewrite B2, B1.
Qed.

Lemma same_history L (w w' : world R) :
  SEQ_CACHE w' = SEQ_CACHE w → history_frame L w w'.
Proof. intros E layer. by rewrite E. Qed.

#[export] Instance history_frame_ignores L : IgnoresModel (history_frame (R:=R) L).
Proof. split; intros; by apply same_history. Qed.

Lemma templates_history L : preserves (history_frame L) (get_context_templates ext).
Proof.
  apply (get_context_templates_ignored ext (history_frame L)).
  intros; by apply same_history.
Qed.

Lemma z_step_history L hp cache_template zl ct acc item :
  preserves (history_frame L) (compute_z_step ext hp cache_template zl ct acc item).
Proof.
  apply (compute_z_step_ignored ext (history_frame L)).
  intros; by apply same_history.
Qed.

Lemma layer_cov_history L (hp : MEMITLTIHyperParams R) layer :
  preserves (history_frame L) (layer_cov ext hp layer).
Proof.
  unfold layer_cov, get_cov.
  frame; apply (preserves_modify (history_frame L)); intros ?; by apply same_history.
Qed.

Lemma insert_history (L : Z → Prop) layer (x : tensor R) (w : world R) :
  L layer → history_frame L w (set_SEQ_CACHE <[layer := x]> w).
Proof.
  intros Hl l. simpl. destruct (decide (l = layer)) as [->|Hne].
  - rewrite lookup_insert_eq. split; [by eauto|done].
  - by rewrite lookup_insert_ne.
Qed.

Lemma solve_layer_history (L : Z → Prop) (hp : MEMITLTIHyperParams R) layer cov K :
  L layer → preserves (history_frame L) (solve_layer ext hp layer cov K).
Proof.
  intros Hl. unfold solve_layer.
  frame; apply (preserves_modify (history_frame L)); intros ?;
    first [ by apply insert_history | by apply same_history ].
Qed.

(** X6. Whatever the outcome of [execute_memit_lti] or of
    [apply_memit_lti_rect_to_model], the history of a layer that had one is
    still there afterwards, and the history of a layer outside
    [hparams.layers] is the one it was. *)
Theorem history_changes_only_for_edited_layers (hp : MEMITLTIHyperParams R) requests
    return_orig_weights cache_template (w w' : world R) r1 r2 :
  execute_memit_lti ext hp requests cache_template w = (r1, w') ∨
  apply_memit_lti_rect_to_model ext hp requests return_orig_weights cache_template w
    = (r2, w') →
  ∀ layer,
    (is_Some (SEQ_CACHE w !! layer) → is_Some (SEQ_CACHE w' !! layer)) ∧
    (layer ∉ layers hp → SEQ_CACHE w' !! layer = SEQ_CACHE w !! layer).
Proof.
  intros [Hrun|Hrun].
  - eapply (execute_memit_lti_preserves_gen ext (history_frame (λ l, l ∈ layers hp)));
      [apply templates_history|intros; apply layer_cov_history
      |intros; by apply solve_layer_history|apply z_step_history|exact Hrun].
  - eapply (apply_memit_lti_rect_to_model_preserves_gen ext
              (history_frame (λ l, l ∈ layers hp)));
      [apply templates_history|intros; apply layer_cov_history
      |intros; by apply solve_layer_history|apply z_step_history|exact Hrun].
Qed.

Lemma layer_step_history_set (hp : MEMITLTIHyperParams R) requests ct zl zs wc deltas i
    layer (w w' : world R) deltas' :
  layer_step ext hp requests ct zl zs wc deltas (i, layer) w = (Ok deltas', w') →
  is_Some (SEQ_CACHE w' !! layer).
Proof.
  intros Hrun.
  apply layer_step_inv in Hrun
    as (ks&targets&cur&cov&pk&w1&adj&w2&upd0&v&upd&orig&new&new'&dist&
        _&_&_&Hs&_&_&_&_&_&_&->&_).
  apply solve_layer_inv in Hs as (C&G&Hn&A&_&_&_&_&_&->).
  simpl. rewrite lookup_insert_eq. by eauto.
Qed.

(** X7. After an edit that returned, every layer of [hparams.layers] has a
    history in [SEQ_CACHE], whatever the values of [hparams.sequential] and
    [hparams.add_prev_edits]. *)
Theorem every_edited_layer_has_a_history (hp : MEMITLTIHyperParams R) requests
    return_orig_weights cache_template (w w' : world R) v1 v2 :
  execute_memit_lti ext hp requests cache_template w = (Ok v1, w') ∨
  apply_memit_lti_rect_to_model ext hp requests return_orig_weights cache_template w
    = (Ok v2, w') →
  ∀ layer, layer ∈ layers hp → is_Some (SEQ_CACHE w' !! layer).
Proof.
  apply (entry_points_establish ext (history_frame (λ l, l ∈ layers hp)) hp
           (λ layer _, layer_cov_history _ hp layer)
           (λ layer cov K Hin, solve_layer_history _ hp layer cov K Hin)
           (λ layer w, is_Some (SEQ_CACHE w !! layer))).
  - intros layer w0 w0' Hf. by apply Hf.
  - intros. by eapply layer_step_history_set.
Qed.

(** X8. When [solve_layer] raises after having called the solver, the
    history of the layer already counts the keys of the batch: the failed
    solve is not undone, and the exception is the solver's. *)
Theorem failed_solve_keeps_the_history (hp : MEMITLTIHyperParams R) layer cov K
    (w w' : world R) e :
  solve_layer ext hp layer cov K w = (Raise e, w') →
  trace w' ≠ trace w →
  ∃ G A,
    matmul K (transpose K) = Ok G ∧
    linalg_solve ext A K = Raise e ∧
    trace w' = trace w ++ [CallSolve A K] ∧
    match SEQ_CACHE w !! layer with
    | None => SEQ_CACHE w' !! layer = Some G
    | Some h => ∃ h', tadd_ h G = Ok h' ∧ SEQ_CACHE w' !! layer = Some h'
    end.
Proof.
  unfold solve_layer. intros Hrun Htrace.
  unfold bind at 1 in Hrun. unfold get at 1 in Hrun.
  destruct (SEQ_CACHE w !! layer) as [h|] eqn:Eh.
  - destruct (sequential hp && add_prev_edits hp).
    + unfold bind, lift, get, ret, modify in Hrun.
      destruct (tadd_ cov h) as [C|]; [|by simplify_eq].
      destruct (matmul K (transpose K)) as [G|] eqn:EG; [|by simplify_eq].
      destruct (tadd_ h G) as [h'|] eqn:Eh'; [|by simplify_eq].
      destruct (tadd C G) as [A|]; [|by simplify_eq].
      destruct (linalg_solve ext A K) eqn:Es; simplify_eq.
      exists G, A. split_and!; try done. exists h'. split; [done|]. simpl. by rewrite lookup_insert_eq.
    + unfold bind, lift, get, ret, modify in Hrun.
      destruct (matmul K (transpose K)) as [G|] eqn:EG; [|by simplify_eq].
      destruct (tadd_ h G) as [h'|] eqn:Eh'; [|by simplify_eq].
      destruct (tadd cov G) as [A|]; [|by simplify_eq].
      destruct (linalg_solve ext A K) eqn:Es; simplify_eq.
      exists G, A. split_and!; try done. exists h'. split; [done|]. simpl. by rewrite lookup_insert_eq.
  - unfold bind, lift, get, ret, modify in Hrun.
    destruct (matmul K (transpose K)) as [G|] eqn:EG; [|by simplify_eq].
    destruct (tadd cov G) as [A|]; [|by simplify_eq].
    destruct (linalg_solve ext A K) eqn:Es; simplify_eq.
    exists G, A. split_and!; try done. simpl. by rewrite lookup_insert_eq.
Qed.

End History.

(** ** The cache of covariances, [COV_CACHE] *)

Section Covariances.
Context {R : Type} `{Scalar R}.
Variable ext : Externals R.

#[export] Instance keeps_cov_paired_preorder : PreOrder (keeps_cov_paired (R:=R)).
Proof.
  split; [by intros w Hp|]. intros w1 w2 w3 H12 H23 Hp. by apply H23, H12.
Qed.

Lemma same_cov_paired (w w' : world R) :
  COV_CACHE w' = COV_CACHE w → keeps_cov_paired w w'.
Proof. intros E Hp m l. rewrite E. apply Hp. Qed.

#[export] Instance keeps_cov_paired_ignores : IgnoresModel (keeps_cov_paired (R:=R)).
Proof. split; intros; by apply same_cov_paired. Qed.

Lemma get_cov_keeps_paired layer_name ds n dt force :
  preserves keeps_cov_paired (get_cov ext layer_name ds n dt force).
Proof.
  intros w r w' Hrun.
  apply get_cov_final_state in Hrun as [(-> & _)|[(-> & _)|(stat & pk & _ & _ & ->)]];
    [done|by apply same_cov_paired|].
  intros Hp m l. simpl. unfold cov_key, cov_feature_key.
  set (mn := replace_char "/" "_" (model_name w)).
  destruct (decide ([m; l] = [mn; layer_name])) as [E|Hne].
  - injection E as -> ->. rewrite lookup_insert_eq. by eauto.
  - rewrite lookup_insert_ne by discriminate.
    rewrite lookup_insert_ne by congruence.
    intros Hs. apply Hp in Hs.
    rewrite lookup_insert_ne by congruence.
    by rewrite lookup_insert_ne by discriminate.
Qed.

Lemma layer_cov_keeps_paired (hp : MEMITLTIHyperParams R) layer :
  preserves keeps_cov_paired (layer_cov ext hp layer).
Proof. unfold layer_cov. frame. apply get_cov_keeps_paired. Qed.

Lemma solve_layer_same_cov (P : relation (world R)) `{!PreOrder P}
    (hp : MEMITLTIHyperParams R) layer cov K :
  (∀ w x, P w (set_SEQ_CACHE <[layer := x]> w)) →
  (∀ w A, P w (log (CallSolve A K) w)) →
  preserves P (solve_layer ext hp layer cov K).
Proof.
  intros Hs Hl. unfold solve_layer.
  frame; apply (preserves_modify P); intros ?; first [apply Hs|apply Hl].
Qed.

(** X9. An entry of [COV_CACHE] for a layer comes with the entry of its
    preserved keys: when this holds before [execute_memit_lti] or
    [apply_memit_lti_rect_to_model], it holds afterwards, whatever the
    outcome. *)
Theorem cov_cache_stays_paired (hp : MEMITLTIHyperParams R) requests return_orig_weights
    cache_template (w w' : world R) r1 r2 :
  cov_paired w →
  execute_memit_lti ext hp requests cache_template w = (r1, w') ∨
  apply_memit_lti_rect_to_model ext hp requests return_orig_weights cache_template w
    = (r2, w') →
  cov_paired w'.
Proof.
  intros Hp Hrun.
  assert (∀ layer cov K, layer ∈ layers hp →
            preserves keeps_cov_paired (solve_layer ext hp layer cov K)) as Hs.
  { intros layer cov K _.
    apply (solve_layer_same_cov keeps_cov_paired); intros; by apply same_cov_paired. }
  assert (preserves keeps_cov_paired (get_context_templates ext)) as Ht.
  { apply (get_context_templates_ignored ext keeps_cov_paired).
    intros; by apply same_cov_paired. }
  assert (∀ zl ct acc item,
            preserves keeps_cov_paired (compute_z_step ext hp cache_template zl ct acc item))
    as Hz.
  { apply (compute_z_step_ignored ext keeps_cov_paired). intros; by apply same_cov_paired. }
  destruct Hrun as [Hrun|Hrun].
  - by apply (execute_memit_lti_preserves_gen ext keeps_cov_paired Ht hp
                (λ layer _, layer_cov_keeps_paired hp layer) Hs _ Hz _ _ _ _ Hrun).
  - by apply (apply_memit_lti_rect_to_model_preserves_gen ext keeps_cov_paired Ht hp
                (λ layer _, layer_cov_keeps_paired hp layer) Hs _ Hz _ _ _ _ _ Hrun).
Qed.

(** X10. When every cached covariance comes with its preserved keys,
    [get_cov] raises only what [layer_stats] raised: no lookup in
    [COV_CACHE] fails, and a failed computation leaves the cache as it
    was. *)
Theorem get_cov_fails_only_with_layer_stats layer_name ds n dt force (w w' : world R) e :
  cov_paired w →
  get_cov ext layer_name ds n dt force w = (Raise e, w') →
  layer_stats ext (params w) layer_name ds n dt force (length (trace w)) = Raise e ∧
  COV_CACHE w' = COV_CACHE w.
Proof.
  intros Hp Hrun.
  pose proof Hrun as Hst.
  apply get_cov_final_state in Hst
    as [(-> & -> & Hc)|[(-> & e' & E & Hl)|(stat & pk & _ & ? & _)]]; [|by simplify_eq|done].
  exfalso. destruct Hc as [c Ec].
  destruct (Hp (replace_char "/" "_" (model_name w)) layer_name) as [pk Hpk];
    [by exists c|].
  unfold get_cov, bind, get, ret in Hrun. simpl in Hrun.
  rewrite Ec in Hrun. simpl in Hrun. rewrite Ec in Hrun.
  unfold cov_feature_key in Hrun. rewrite Hpk in Hrun. discriminate.
Qed.

#[export] Instance cov_grows_preorder : PreOrder (cov_grows (R:=R)).
Proof.
  split.
  - by intros w.
  - intros w1 w2 w3 [N12 C12] [N23 C23]. split; [congruence|].
    intros k Hk. by apply C23, C12.
Qed.

Lemma same_cov_grows (w w' : world R) :
  model_name w' = model_name w → COV_CACHE w' = COV_CACHE w → cov_grows w w'.
Proof. intros En Ec. split; [done|]. intros k. by rewrite Ec. Qed.

#[export] Instance cov_grows_ignores : IgnoresModel (cov_grows (R:=R)).
Proof. split; intros; by apply same_cov_grows. Qed.

Lemma layer_cov_grows (hp : MEMITLTIHyperParams R) layer :
  preserves cov_grows (layer_cov ext hp layer).
Proof.
  unfold layer_cov. frame. intros w r w' Hrun.
  apply get_cov_final_state in Hrun as [(-> & _)|[(-> & _)|(stat & pk & _ & _ & ->)]];
    [done|by apply same_cov_grows|].
  split; [done|]. intros k [c Hk]. simpl.
  destruct (decide (k = cov_feature_key w (py_format (rewrite_module_tmp hp) (pretty layer))))
    as [->|Hne]; [rewrite lookup_insert_eq; by eauto|].
  rewrite lookup_insert_ne by done.
  destruct (decide (k = cov_key w (py_format (rewrite_module_tmp hp) (pretty layer))))
    as [->|Hne']; [rewrite lookup_insert_eq; by eauto|].
  rewrite lookup_insert_ne by done. by eauto.
Qed.

Lemma solve_layer_cov_grows (hp : MEMITLTIHyperParams R) layer cov K :
  preserves cov_grows (solve_layer ext hp layer cov K).
Proof. apply (solve_layer_same_cov cov_grows); intros; by apply same_cov_grows. Qed.

(** X11. After an edit that returned, the covariance and the preserved keys
    of every layer of [hparams.layers] are in [COV_CACHE]. *)
Theorem an_edit_caches_the_covariances (hp : MEMITLTIHyperParams R) requests
    return_orig_weights cache_template (w w' : world R) v1 v2 :
  execute_memit_lti ext hp requests cache_template w = (Ok v1, w') ∨
  apply_memit_lti_rect_to_model ext hp requests return_orig_weights cache_template w
    = (Ok v2, w') →
  cov_cached hp w'.
Proof.
  unfold cov_cached.
  apply (entry_points_establish ext cov_grows hp
           (λ layer _, layer_cov_grows hp layer)
           (λ layer cov K _, solve_layer_cov_grows hp layer cov K)
           (λ layer w,
              is_Some (COV_CACHE w
                         !! cov_key w (py_format (rewrite_module_tmp hp) (pretty layer))) ∧
              is_Some (COV_CACHE w
                         !! cov_feature_key w
                              (py_format (rewrite_module_tmp hp) (pretty layer))))).
  - intros layer w0 w0' [En Hc] [H1 H2]. unfold cov_key, cov_feature_key in *.
    rewrite En. split; by apply Hc.
  - intros requests0 ct zl zs wc deltas i layer w0 w0' deltas' Hin Hstep.
    apply layer_step_inv in Hstep
      as (ks&targets&cur&cov&pk&w1&adj&w2&upd0&v&upd&orig&new&new'&dist&
          _&_&Hcov&Hs&_&_&_&_&_&_&->&_).
    apply solve_layer_cov_grows in Hs as [En Hc].
    unfold layer_cov in Hcov. apply bind_Ok in Hcov as ([c p] & w3 & Hg & Hret).
    unfold ret in Hret. simplify_eq.
    apply get_cov_returns in Hg as (En' & Hk & Hf).
    unfold cov_key, cov_feature_key in *. simpl. rewrite En, En'.
    split; apply Hc; by eauto.
Qed.

#[export] Instance stats_quiet_preorder hp : PreOrder (stats_quiet (R:=R) hp).
Proof.
  split.
  - by intros w Hc.
  - intros w1 w2 w3 H12 H23 Hc. destruct (H12 Hc) as [Hc2 E12].
    destruct (H23 Hc2) as [Hc3 E23]. split; [done|congruence].
Qed.

Lemma same_stats_quiet hp (w w' : world R) :
  model_name w' = model_name w → COV_CACHE w' = COV_CACHE w →
  stats_calls (trace w') = stats_calls (trace w) → stats_quiet hp w w'.
Proof.
  intros En Ec Et Hc. split; [|done]. intros layer Hin.
  unfold cov_key, cov_feature_key. rewrite En, Ec. by apply Hc.
Qed.

#[export] Instance stats_quiet_ignores hp : IgnoresModel (stats_quiet (R:=R) hp).
Proof. split; intros; by apply same_stats_quiet. Qed.

Lemma layer_cov_stats_quiet (hp : MEMITLTIHyperParams R) layer :
  layer ∈ layers hp → preserves (stats_quiet hp) (layer_cov ext hp layer).
Proof.
  intros Hin. unfold layer_cov. frame. intros w r w' Hrun Hc.
  destruct (Hc layer Hin) as [[c Ec] _].
  unfold get_cov, bind, get, ret in Hrun. simpl in Hrun. rewrite Ec in Hrun.
  simpl in Hrun. rewrite Ec in Hrun.
  destruct (COV_CACHE w !! cov_feature_key w _); unfold raise in Hrun; by simplify_eq.
Qed.

Lemma solve_layer_stats_quiet (hp : MEMITLTIHyperParams R) layer cov K :
  preserves (stats_quiet hp) (solve_layer ext hp layer cov K).
Proof.
  apply (solve_layer_same_cov (stats_quiet hp)); intros; apply same_stats_quiet;
    try done.
  simpl. unfold stats_calls. rewrite List.filter_app. simpl. by rewrite app_nil_r.
Qed.

(** X12. When the covariances of the layers of [hparams.layers] are cached,
    [execute_memit_lti] and [apply_memit_lti_rect_to_model] do not call
    [layer_stats], and the covariances are still cached afterwards,
    whatever the outcome. *)
Theorem cached_covariances_are_not_recomputed (hp : MEMITLTIHyperParams R) requests
    return_orig_weights cache_template (w w' : world R) r1 r2 :
  cov_cached hp w →
  execute_memit_lti ext hp requests cache_template w = (r1, w') ∨
  apply_memit_lti_rect_to_model ext hp requests return_orig_weights cache_template w
    = (r2, w') →
  cov_cached hp w' ∧ stats_calls (trace w') = stats_calls (trace w).
Proof.
  assert (preserves (stats_quiet hp) (get_context_templates ext)) as Ht.
  { apply (get_context_templates_ignored ext (stats_quiet hp)).
    intros; by apply same_stats_quiet. }
  assert (∀ zl ct acc item,
            preserves (stats_quiet hp) (compute_z_step ext hp cache_template zl ct acc item))
    as Hz.
  { apply (compute_z_step_ignored ext (stats_quiet hp)). intros; by apply same_stats_quiet. }
  intros Hc [Hrun|Hrun].
  - by apply (execute_memit_lti_preserves_gen ext (stats_quiet hp) Ht hp
                (layer_cov_stats_quiet hp)
                (λ layer cov K _, solve_layer_stats_quiet hp layer cov K) _ Hz _ _ _ _ Hrun).
  - by apply (apply_memit_lti_rect_to_model_preserves_gen ext (stats_quiet hp) Ht hp
                (layer_cov_stats_quiet hp)
                (λ layer cov K _, solve_layer_stats_quiet hp layer cov K)
                _ Hz _ _ _ _ _ Hrun).
Qed.

End Covariances.

(** ** The context templates, [CONTEXT_TEMPLATES_CACHE] *)

Section ContextTemplates.
Context {R : Type} `{Scalar R}.
Variable ext : Externals R.

(** X13. [get_context_templates] generates the templates at most once: what
    it returns is cached, and a call in any state with that cache returns
    the same templates without calling the generator, whatever the model;
    a failure of the generator is not cached and leaves the state as it
    was. *)
Theorem context_templates_are_computed_once (w w' : world R) r :
  get_context_templates ext w = (r, w') →
  match r with
  | Ok c =>
      CONTEXT_TEMPLATES_CACHE w' = Some c ∧
      ∀ (ext' : Externals R) (w'' : world R),
        CONTEXT_TEMPLATES_CACHE w'' = Some c →
        get_context_templates ext' w'' = (Ok c, w'')
  | Raise e =>
      w' = w ∧ CONTEXT_TEMPLATES_CACHE w = None ∧
      generate_fast ext (params w) ["The"; "Therefore"; "Because"; "I"; "You"] 1 10
        = Raise e
  end.
Proof.
  intros Hrun.
  assert (∀ c (ext' : Externals R) (w'' : world R),
            CONTEXT_TEMPLATES_CACHE w'' = Some c →
            get_context_templates ext' w'' = (Ok c, w'')) as Hhit.
  { intros c ext' w'' Hc. unfold get_context_templates, bind, get, ret.
    by rewrite Hc. }
  unfold get_context_templates, bind, get, ret, lift, modify in Hrun.
  destruct (CONTEXT_TEMPLATES_CACHE w) as [c|] eqn:Ec.
  - simplify_eq. split; [done|]. apply Hhit.
  - change (7 / 5) with 1 in Hrun.
    destruct (generate_fast ext (params w) _ 1 10) as [gen|e] eqn:Eg; simplify_eq.
    + split; [done|]. apply Hhit.
    + done.
Qed.

#[export] Instance templates_kept_preorder : PreOrder (templates_kept (R:=R)).
Proof.
  split; [by intros w c|]. intros w1 w2 w3 H12 H23 c Hc. by apply H23, H12.
Qed.

Lemma same_templates_kept (w w' : world R) :
  CONTEXT_TEMPLATES_CACHE w' = CONTEXT_TEMPLATES_CACHE w → templates_kept w w'.
Proof. intros E c. by rewrite E. Qed.

#[export] Instance templates_kept_ignores : IgnoresModel (templates_kept (R:=R)).
Proof. split; intros; by apply same_templates_kept. Qed.

Lemma get_context_templates_kept : preserves templates_kept (get_context_templates ext).
Proof.
  intros w r w' Hrun c Hc.
  unfold get_context_templates, bind, get, ret in Hrun. rewrite Hc in Hrun.
  by simplify_eq.
Qed.

Lemma layer_cov_templates_kept (hp : MEMITLTIHyperParams R) layer :
  preserves templates_kept (layer_cov ext hp layer).
Proof.
  unfold layer_cov, get_cov.
  frame; apply (preserves_modify templates_kept); intros ?; by apply same_templates_kept.
Qed.

Lemma solve_layer_templates_kept (hp : MEMITLTIHyperParams R) layer cov K :
  preserves templates_kept (solve_layer ext hp layer cov K).
Proof.
  unfold solve_layer.
  frame; apply (preserves_modify templates_kept); intros ?; by apply same_templates_kept.
Qed.

(** X14. Context templates that are cached when [execute_memit_lti] or
    [apply_memit_lti_rect_to_model] is called are the cached ones
    afterwards, whatever the outcome and whatever the model. *)
Theorem cached_templates_are_kept (hp : MEMITLTIHyperParams R) requests
    return_orig_weights cache_template (w w' : world R) r1 r2 c :
  CONTEXT_TEMPLATES_CACHE w = Some c →
  execute_memit_lti ext hp requests cache_template w = (r1, w') ∨
  apply_memit_lti_rect_to_model ext hp requests return_orig_weights cache_template w
    = (r2, w') →
  CONTEXT_TEMPLATES_CACHE w' = Some c.
Proof.
  assert (∀ zl ct acc item,
            preserves templates_kept (compute_z_step ext hp cache_template zl ct acc item))
    as Hz.
  { apply (compute_z_step_ignored ext templates_kept).
    intros; by apply same_templates_kept. }
  intros Hc [Hrun|Hrun].
  - by apply (execute_memit_lti_preserves_gen ext templates_kept
                get_context_templates_kept hp
                (λ layer _, layer_cov_templates_kept hp layer)
                (λ layer cov K _, solve_layer_templates_kept hp layer cov K)
                _ Hz _ _ _ _ Hrun).
  - by apply (apply_memit_lti_rect_to_model_preserves_gen ext templates_kept
                get_context_templates_kept hp
                (λ layer _, layer_cov_templates_kept hp layer)
                (λ layer cov K _, solve_layer_templates_kept hp layer cov K)
                _ Hz _ _ _ _ _ Hrun).
Qed.

End ContextTemplates.

Lemma brace_free_replaced (f : string) :
  brace_free (replace_char "}" " " (replace_char "{" " " f)) = true.
Proof.
  induction f as [|c f IH]; [done|]. cbn [replace_char brace_free]. rewrite IH.
  destruct (Ascii.eqb c "{") eqn:E1; [done|].
  destruct (Ascii.eqb c "}") eqn:E2; [done|].
  by rewrite E1, E2.
Qed.

Lemma string_app_cons c (s t : string) : String c s +:+ t = String c (s +:+ t).
Proof. done. Qed.

Lemma brace_free_app (s t : string) :
  brace_free (s +:+ t) = brace_free s && brace_free t.
Proof.
  induction s as [|c s IH]; [done|]. rewrite string_app_cons. cbn [brace_free].
  rewrite IH. by rewrite !andb_assoc.
Qed.

Lemma string_app_assoc (s t u : string) : (s +:+ t) +:+ u = s +:+ (t +:+ u).
Proof.
  induction s as [|c s IH]; [done|]. rewrite !string_app_cons. by rewrite IH.
Qed.

Lemma string_app_nil_r (s : string) : s +:+ "" = s.
Proof. induction s as [|c s IH]; [done|]. rewrite string_app_cons. by rewrite IH. Qed.

Lemma py_format_step c (rest x : string) :
  Ascii.eqb c "{" = false → rest ≠ "" →
  py_format (String c rest) x = String c (py_format rest x).
Proof.
  intros Hc Hr. destruct rest as [|a rest]; [done|].
  change (py_format (String c (String a rest)) x)
    with (if (Ascii.eqb c "{" && Ascii.eqb a "}")%bool then x +:+ rest
          else String c (py_format (String a rest) x)).
  by rewrite Hc.
Qed.

Lemma py_format_placeholder_last (body x : string) :
  brace_free body = true → py_format (body +:+ "{}") x = body +:+ x.
Proof.
  induction body as [|c body IH]; intros Hb.
  - cbn. apply string_app_nil_r.
  - cbn [brace_free] in Hb. apply andb_prop in Hb as [Hc Hb].
    apply andb_prop in Hc as [Hc _]. apply negb_true_iff in Hc.
    rewrite !string_app_cons, py_format_step, IH; [done..|].
    by destruct body.
Qed.

Section GeneratedTemplates.
Context {R : Type} `{Scalar R}.
Variable ext : Externals R.

(** X15. Every context template that [get_context_templates] generates is a
    text without braces followed by the placeholder, so formatting it with
    [x] gives that text followed by [x], whatever the generator wrote. *)
Theorem generated_templates_end_in_the_placeholder (w w' : world R) c :
  CONTEXT_TEMPLATES_CACHE w = None →
  get_context_templates ext w = (Ok c, w') →
  ∀ group t, group ∈ c → t ∈ group →
    ∃ body, brace_free body = true ∧ t = body +:+ "{}" ∧
            ∀ x, py_format t x = body +:+ x.
Proof.
  intros Hnone Hrun group t Hg Ht.
  unfold get_context_templates, bind, get, ret, lift, modify in Hrun.
  rewrite Hnone in Hrun.
  destruct (generate_fast ext (params w) _ _ _) as [gen|e]; simplify_eq.
  assert (∀ body, brace_free body = true →
            ∃ body0, brace_free body0 = true ∧ body +:+ "{}" = body0 +:+ "{}" ∧
                     ∀ x, py_format (body +:+ "{}") x = body0 +:+ x) as Hok.
  { intros body Hb. exists body. split_and!; [done|done|].
    intros x. by apply py_format_placeholder_last. }
  apply elem_of_cons in Hg as [->|Hg].
  - apply list_elem_of_singleton in Ht as ->. apply (Hok ""). done.
  - apply list_elem_of_singleton in Hg as ->.
    apply list_elem_of_fmap in Ht as (f & -> & _).
    change ". {}" with (". " +:+ "{}"). rewrite <- string_app_assoc.
    apply Hok. rewrite brace_free_app, brace_free_replaced. done.
Qed.

End GeneratedTemplates.

(** ** The insertion step at its bounds *)

Section InsertionBounds.
Context {R : Type} `{Scalar R}.

Lemma insert_sorted_length (x : R) l : length (insert_sorted x l) = S (length l).
Proof.
  induction l as [|y l IH]; [done|]. simpl. destruct (rleb x y); simpl; by rewrite ?IH.
Qed.

Lemma sort_asc_length (l : list R) : length (sort_asc l) = length l.
Proof.
  induction l as [|x l IH]; [done|]. simpl. by rewrite insert_sorted_length, IH.
Qed.

Lemma kthvalue_in_range (v : list R) k :
  1 ≤ k ≤ length v → ∃ x, kthvalue v k = Ok x.
Proof.
  intros [H1 H2]. destruct k as [|k']; [lia|]. unfold kthvalue.
  destruct (sort_asc v !! k') as [x|] eqn:E; [by eexists|].
  apply lookup_ge_None in E. rewrite sort_asc_length in E. lia.
Qed.

(** X16. For an update of the shape of the weight (what
    [upd_matrix_match_shape] returns), the sparse insertion is defined
    exactly when the weight has at least two elements: with fewer, the rank
    [int(numel * 60 / 100)] is 0 and [torch.kthvalue] raises. *)
Theorem sparse_insert_needs_two_elements (U W : tensor R) :
  tshape U = tshape W →
  length (tdata U) = numel U →
  length (tdata W) = numel W →
  (numel W < 2 → sparse_insert U W = Raise RuntimeError) ∧
  (2 ≤ numel W → ∃ W', sparse_insert U W = Ok W').
Proof.
  intros Es HU HW.
  assert (numel U = numel W) as En by (unfold numel; by rewrite Es).
  unfold sparse_insert, tdiv.
  rewrite binop_same_shape by done. cbn [rbind].
  assert (numel (tabs (Tensor (tshape U)
                         (zip_with rdiv (tdata U) (tdata (tadd_scalar W eps8)))))
          = numel W) as Ek by (unfold numel; simpl; by rewrite Es).
  rewrite Ek. split.
  - intros Hsmall.
    assert (numel W * (100 - 40) / 100 = 0) as -> by (apply Nat.div_small; lia).
    done.
  - intros Hbig.
    destruct (kthvalue_in_range
                (tdata (tabs (Tensor (tshape U)
                                (zip_with rdiv (tdata U) (tdata (tadd_scalar W eps8))))))
                (numel W * (100 - 40) / 100)) as [threshold Ht].
    { split.
      - apply Nat.div_str_pos. lia.
      - transitivity (numel W); [apply Nat.Div0.div_le_upper_bound; lia|].
        unfold tabs, tmap, tadd_scalar, tmap. cbn [tdata].
        rewrite length_fmap, length_zip_with, length_fmap, HU, HW, En.
        by rewrite Nat.min_id. }
    rewrite Ht. cbn [rbind]. unfold masked_add. simpl.
    rewrite decide_True by done. rewrite decide_True by done. by eexists.
Qed.

End InsertionBounds.

(** ** The weights that [apply_memit_lti_rect_to_model] returns *)

Section ReturnedWeights.
Context {R : Type} `{Scalar R}.
Variable ext : Externals R.

Lemma insert_step_Ok (b : bool) wc0 d0 k (δ : Delta) (w w' : world R) wc1 d1 :
  insert_step b (wc0, d0) (k, δ) w = (Ok (wc1, d1), w') →
  ∃ W W', params w !! k = Some W ∧ w' = set_params <[k := W']> w ∧
          (wc1 = if b && bool_decide (wc0 !! k = None) then <[k := W]> wc0 else wc0) ∧
          (∃ layer report, split_on "." k !! 2 = Some layer ∧
                           d1 = dict_set layer report d0) ∧
          ∃ U0 U, matmul (adj_k δ) (transpose (resid δ)) = Ok U0 ∧
                  upd_matrix_match_shape U0 (shape_of W) = Ok U ∧
                  sparse_insert U W = Ok W'.
Proof.
  unfold insert_step. intros Hrun. inv_ok.
  match goal with Hg : get_parameter _ _ = _ |- _ =>
    apply get_parameter_Ok in Hg as [HW ->] end.
  inv_ok. destruct (split_on _ _ !! 2) eqn:Es; inv_ok.
  eexists _, _. split_and!; [done..| |]; by eexists _, _.
Qed.

Lemma insert_loop_snapshot (b : bool) (items : list (string * Delta (R:=R))) :
  NoDup items.*1 →
  ∀ wc0 d0 (w w' : world R) wc d,
    foldM (insert_step b) items (wc0, d0) w = (Ok (wc, d), w') →
    (∀ k, k ∈ items.*1 → wc0 !! k = None) →
    (∀ k, k ∉ items.*1 → params w' !! k = params w !! k ∧ wc !! k = wc0 !! k) ∧
    (∀ k, k ∈ items.*1 →
          is_Some (params w !! k) ∧ wc !! k = if b then params w !! k else None).
Proof.
  induction items as [|[k δ] items IH]; intros Hnd wc0 d0 w w' wc d Hrun Hfresh.
  - cbn in Hrun. unfold ret in Hrun. simplify_eq. split; [done|].
    by intros k ?%elem_of_nil.
  - cbn [foldM] in Hrun. apply bind_Ok in Hrun as ([wc1 d1] & w1 & Hstep & Hrest).
    apply insert_step_Ok in Hstep as (W & W' & HW & -> & Ewc & _ & _).
    rewrite fmap_cons in Hnd. apply NoDup_cons in Hnd as [Hk Hnd]. simpl in Hk.
    assert (wc0 !! k = None) as Hk0 by (apply Hfresh; rewrite fmap_cons; left).
    assert (∀ k', k' ≠ k → wc1 !! k' = wc0 !! k') as Hother.
    { intros k' Hne. rewrite Ewc.
      destruct (b && bool_decide (wc0 !! k = None)); [|done].
      by rewrite lookup_insert_ne. }
    assert (wc1 !! k = if b then Some W else None) as Hthis.
    { rewrite Ewc, bool_decide_eq_true_2 by done. destruct b; simpl; [|done].
      by rewrite lookup_insert_eq. }
    destruct (IH Hnd wc1 d1 _ _ _ _ Hrest) as [Hout Hin].
    { intros k' Hk'. rewrite Hother; [|by intros ->].
      apply Hfresh. rewrite fmap_cons. by right. }
    split.
    + intros k' Hk'. rewrite fmap_cons in Hk'. apply not_elem_of_cons in Hk' as [Hne Hk'].
      destruct (Hout k' Hk') as [-> ->]. simpl. rewrite lookup_insert_ne by done.
      by rewrite Hother.
    + intros k' Hk'. rewrite fmap_cons in Hk'. apply elem_of_cons in Hk' as [->|Hk'].
      * simpl. rewrite HW. split; [by eauto|].
        destruct (Hout k Hk) as [_ ->]. exact Hthis.
      * assert (k' ≠ k) as Hne by (by intros ->).
        destruct (Hin k' Hk') as [Hs ->]. simpl in *.
        by rewrite lookup_insert_ne in * by done.
Qed.

(** X17. When [apply_memit_lti_rect_to_model] returns with
    [return_orig_weights] set, the weights it returns are the values that
    the weights of the layers of [hparams.layers] had on entry, and no
    others: writing them back over the edited parameters gives the
    parameters of the model as they were. With [return_orig_weights] unset
    it returns no weight. *)
Theorem returned_weights_undo_the_edit (hp : MEMITLTIHyperParams R) requests
    return_orig_weights cache_template (w w' : world R) weights_copy distances_ z_norms :
  apply_memit_lti_rect_to_model ext hp requests return_orig_weights cache_template w
    = (Ok (weights_copy, distances_, z_norms), w') →
  if return_orig_weights
  then weights_copy ∪ params w' = params w ∧
       ∀ k, is_Some (weights_copy !! k) ↔ edited_weight hp k
  else weights_copy = ∅.
Proof.
  unfold apply_memit_lti_rect_to_model. intros Hrun.
  apply bind_Ok in Hrun as ([deltas zn] & w1 & Hex & Hins).
  apply bind_Ok in Hins as ([wc rep] & w2 & Hins & Hret).
  unfold ret in Hret. simplify_eq.
  unfold execute_memit_lti in Hex. apply bind_Ok in Hex as (reqs & w0 & Hn & Hc).
  apply normalize_requests_same_params in Hn. unfold same_on in Hn.
  pose proof (compute_deltas_keys _ _ _ _ _ _ _ _ Hc) as [Hnd Hkeys].
  apply compute_deltas_restores in Hc as [Hp _].
  assert (params w1 = params w) as E1 by congruence.
  destruct (insert_loop_snapshot return_orig_weights deltas Hnd _ _ _ _ _ _ Hins)
    as [Hout Hin]; [done|].
  destruct return_orig_weights.
  - split.
    + apply map_eq. intros k. rewrite lookup_union.
      destruct (decide (k ∈ deltas.*1)) as [Hk|Hk].
      * destruct (Hin k Hk) as [[W HW] ->]. rewrite HW, <- E1, HW.
        by destruct (params w' !! k).
      * destruct (Hout k Hk) as [-> ->]. rewrite lookup_empty, E1.
        by destruct (params w !! k).
    + intros k. rewrite <- Hkeys. split.
      * intros Hs. destruct (decide (k ∈ deltas.*1)) as [Hk|Hk]; [done|].
        destruct (Hout k Hk) as [_ Hwc]. rewrite Hwc, lookup_empty in Hs.
        by destruct Hs.
      * intros Hk. destruct (Hin k Hk) as [Hs ->]. done.
  - apply map_eq. intros k. rewrite lookup_empty.
    destruct (decide (k ∈ deltas.*1)) as [Hk|Hk].
    + by destruct (Hin k Hk) as [_ ->].
    + destruct (Hout k Hk) as [_ ->]. by rewrite lookup_empty.
Qed.

Lemma insert_loop_result (b : bool) (items : list (string * Delta (R:=R))) :
  NoDup items.*1 →
  ∀ acc (w w' : world R) acc',
    foldM (insert_step b) items acc w = (Ok acc', w') →
    ∀ k δ, (k, δ) ∈ items →
      ∃ U0 U W W',
        params w !! k = Some W ∧
        matmul (adj_k δ) (transpose (resid δ)) = Ok U0 ∧
        upd_matrix_match_shape U0 (shape_of W) = Ok U ∧
        sparse_insert U W = Ok W' ∧
        params w' !! k = Some W'.
Proof.
  induction items as [|[k0 δ0] items IH]; intros Hnd [wc0 d0] w w' [wc d] Hrun k δ Hin.
  - by apply elem_of_nil in Hin.
  - cbn [foldM] in Hrun. apply bind_Ok in Hrun as ([wc1 d1] & w1 & Hstep & Hrest).
    apply insert_step_Ok in Hstep as (W & W' & HW & -> & _ & _ & U0 & U & HU0 & HU & HW').
    rewrite fmap_cons in Hnd. apply NoDup_cons in Hnd as [Hk0 Hnd]. simpl in Hk0.
    apply elem_of_cons in Hin as [[= -> ->]|Hin].
    + exists U0, U, W, W'. split_and!; [done..|].
      assert (preserves (params_frame (λ k', k' ∈ items.*1))
                (foldM (insert_step b) items (wc1, d1))) as Hp.
      { apply (preserves_foldM (params_frame (λ k', k' ∈ items.*1))).
        intros acc [k' δ'] Hin. apply insert_step_params_frame.
        apply list_elem_of_fmap. by exists (k', δ'). }
      specialize (Hp _ _ _ Hrest k0). simpl in Hp. rewrite lookup_insert_eq in Hp.
      destruct Hp as (t' & -> & _ & Hsame). by rewrite Hsame.
    + destruct (IH Hnd _ _ _ _ Hrest k δ Hin) as (U0' & U' & X & X' & HX & ? & ? & ? & ?).
      assert (k ≠ k0) as Hne.
      { intros ->. apply Hk0. apply list_elem_of_fmap. by exists (k0, δ). }
      simpl in HX. rewrite lookup_insert_ne in HX by done.
      by exists U0', U', X, X'.
Qed.

(** X26. The insertion works on the weights as they were on entry: when
    [apply_memit_lti_rect_to_model] returns, the weight named by every
    entry of the deltas that [execute_memit_lti] returned is the sparse
    insertion of that entry's update into the value the weight had before
    the call, what the loop over the layers wrote having been undone. *)
Theorem the_update_is_inserted_into_the_original_weights (hp : MEMITLTIHyperParams R)
    requests return_orig_weights cache_template (w w' : world R) v :
  apply_memit_lti_rect_to_model ext hp requests return_orig_weights cache_template w
    = (Ok v, w') →
  ∃ deltas w1,
    execute_memit_lti ext hp requests cache_template w = (Ok (deltas, v.2), w1) ∧
    ∀ k δ, (k, δ) ∈ deltas →
      ∃ U0 U W W',
        params w !! k = Some W ∧
        matmul (adj_k δ) (transpose (resid δ)) = Ok U0 ∧
        upd_matrix_match_shape U0 (shape_of W) = Ok U ∧
        sparse_insert U W = Ok W' ∧
        params w' !! k = Some W'.
Proof.
  unfold apply_memit_lti_rect_to_model. intros Hrun.
  apply bind_Ok in Hrun as ([deltas zn] & w1 & Hex & Hins).
  apply bind_Ok in Hins as ([wc rep] & w2 & Hins & Hret).
  unfold ret in Hret. simplify_eq.
  exists deltas, w1. split; [done|].
  unfold execute_memit_lti in Hex. apply bind_Ok in Hex as (reqs & w0 & Hn & Hc).
  apply normalize_requests_same_params in Hn. unfold same_on in Hn.
  pose proof (compute_deltas_keys _ _ _ _ _ _ _ _ Hc) as [Hnd _].
  apply compute_deltas_restores in Hc as [Hp _].
  intros k δ Hin.
  destruct (insert_loop_result _ _ Hnd _ _ _ _ Hins k δ Hin)
    as (U0 & U & W & W' & HW & ? & ? & ? & ?).
  exists U0, U, W, W'. split_and!; [congruence|done..].
Qed.

End ReturnedWeights.

(** ** The files of target representations *)

Lemma string_length_app (s t : string) :
  String.length (s +:+ t) = String.length s + String.length t.
Proof. induction s as [|c s IH]; [done|]. rewrite string_app_cons. simpl. by rewrite IH. Qed.

Lemma npz_name_fixed (f : string) :
  npz_name f = f ↔ ends_with ".npz" f = true.
Proof.
  unfold npz_name. destruct (ends_with ".npz" f); split; try done.
  intros E. apply (f_equal String.length) in E. rewrite string_length_app in E.
  simpl in E. lia.
Qed.

Section TargetFiles.
Context {R : Type} `{Scalar R}.
Variable ext : Externals R.

(** X18. With a cache template, a turn of the loop over the requests that
    returns has appended one target representation [z]. When the file name
    built from the template ends in [.npz], that file now holds [z], and a
    later turn for the same request reads it back: it appends [z] and
    neither changes the state nor records norms. When the name lacks the
    suffix, [np.savez] writes to another file, and the file the loop looks
    for is as it was. *)
Theorem target_files_round_trip (hp : MEMITLTIHyperParams R) tmpl z_layer
    context_templates z_list z_norms r_id request (w w' : world R) z_list' z_norms' :
  compute_z_step ext hp (Some tmpl) z_layer context_templates (z_list, z_norms)
    (r_id, request) w = (Ok (z_list', z_norms'), w') →
  ∃ z, z_list' = z_list ++ [z] ∧
       if ends_with ".npz"
            (cache_path ext tmpl z_layer (clamp_norm_factor hp) (case_id request))
       then
         files w' !! cache_path ext tmpl z_layer (clamp_norm_factor hp) (case_id request)
           = Some (Some z) ∧
         ∀ context_templates' acc r_id' (w'' : world R),
           files w'' !! cache_path ext tmpl z_layer (clamp_norm_factor hp) (case_id request)
             = Some (Some z) →
           compute_z_step ext hp (Some tmpl) z_layer context_templates' acc
             (r_id', request) w''
             = (Ok (acc.1 ++ [z], acc.2), w'')
       else
         files w' !! cache_path ext tmpl z_layer (clamp_norm_factor hp) (case_id request)
           = files w !! cache_path ext tmpl z_layer (clamp_norm_factor hp)
                          (case_id request).
Proof.
  set (f := cache_path ext tmpl z_layer (clamp_norm_factor hp) (case_id request)).
  intros Hrun.
  assert (∀ z context_templates' acc r_id' (w'' : world R),
            files w'' !! f = Some (Some z) →
            compute_z_step ext hp (Some tmpl) z_layer context_templates' acc
              (r_id', request) w'' = (Ok (acc.1 ++ [z], acc.2), w'')) as Hhit.
  { intros z ct' [zl zn] r_id' w'' Hf. unfold compute_z_step, bind, get, ret.
    fold f. by rewrite Hf. }
  unfold compute_z_step, bind, get, ret, lift, modify in Hrun. fold f in Hrun.
  destruct (files w !! f) as [[z|]|] eqn:Ef.
  - simplify_eq. exists z. split; [done|].
    destruct (ends_with ".npz" f); [|done]. split; [done|]. apply Hhit.
  - destruct (compute_z ext _ _ _ _ _) as [[[z dn] inorm]|e]; simplify_eq.
    exists z. split; [done|]. simpl.
    destruct (ends_with ".npz" f) eqn:Ee.
    + apply npz_name_fixed in Ee as Ename. rewrite Ename, lookup_insert_eq.
      split; [done|]. apply Hhit.
    + rewrite lookup_insert_ne; [done|].
      intros Ename. apply npz_name_fixed in Ename. congruence.
  - destruct (compute_z ext _ _ _ _ _) as [[[z dn] inorm]|e]; simplify_eq.
    exists z. split; [done|]. simpl.
    destruct (ends_with ".npz" f) eqn:Ee.
    + apply npz_name_fixed in Ee as Ename. rewrite Ename, lookup_insert_eq.
      split; [done|]. apply Hhit.
    + rewrite lookup_insert_ne; [done|].
      intros Ename. apply npz_name_fixed in Ename. congruence.
Qed.

End TargetFiles.

(** ** The names of the edited weights *)

Lemma py_format_placeholder (pre post x : string) :
  brace_free pre = true → py_format (pre +:+ "{}" +:+ post) x = pre +:+ x +:+ post.
Proof.
  induction pre as [|c pre IH]; intros Hb.
  - done.
  - cbn [brace_free] in Hb. apply andb_prop in Hb as [Hc Hb].
    apply andb_prop in Hc as [Hc _]. apply negb_true_iff in Hc.
    rewrite !(string_app_cons c pre), py_format_step, IH; [done..|].
    by destruct pre.
Qed.

Lemma string_app_inv_r (x y t : string) : x +:+ t = y +:+ t → x = y.
Proof.
  revert y. induction x as [|c x IH]; intros [|d y] E.
  - done.
  - apply (f_equal String.length) in E. rewrite !string_length_app in E.
    simpl in E. lia.
  - apply (f_equal String.length) in E. rewrite !string_length_app in E.
    simpl in E. lia.
  - rewrite !string_app_cons in E. injection E as -> E. f_equal. by apply IH.
Qed.

Lemma string_app_inv_l (s x y : string) : s +:+ x = s +:+ y → x = y.
Proof.
  induction s as [|c s IH]; [done|]. rewrite !string_app_cons. intros [= E]. by apply IH.
Qed.

Section WeightNames.
Context {R : Type} `{Scalar R}.
Variable ext : Externals R.

Lemma weight_name_placeholder (hp : MEMITLTIHyperParams R) pre post layer :
  rewrite_module_tmp hp = pre +:+ "{}" +:+ post →
  brace_free pre = true →
  weight_name hp layer = pre +:+ pretty layer +:+ post +:+ ".weight".
Proof.
  intros Et Hpre. unfold weight_name. rewrite Et, py_format_placeholder by done.
  by rewrite !string_app_assoc.
Qed.

Lemma weight_name_inj (hp : MEMITLTIHyperParams R) pre post l1 l2 :
  rewrite_module_tmp hp = pre +:+ "{}" +:+ post →
  brace_free pre = true →
  weight_name hp l1 = weight_name hp l2 → l1 = l2.
Proof.
  intros Et Hpre E.
  rewrite !(weight_name_placeholder hp pre post) in E by done.
  apply string_app_inv_l in E.
  rewrite <- !string_app_assoc in E. apply string_app_inv_r in E.
  apply string_app_inv_r in E. by apply (inj pretty) in E.
Qed.

Lemma dict_set_fresh {V} k (v : V) d : k ∉ d.*1 → dict_set k v d = d ++ [(k, v)].
Proof.
  induction d as [|[k0 v0] d IH]; [done|]. simpl. intros Hk.
  apply not_elem_of_cons in Hk as [Hne Hk].
  rewrite decide_False by done. by rewrite IH.
Qed.

Lemma layer_loop_order (hp : MEMITLTIHyperParams R) requests ct zl zs wc items :
  ∀ acc (w w' : world R) deltas,
    NoDup (acc.*1 ++ map (λ item, weight_name hp item.2) items) →
    foldM (layer_step ext hp requests ct zl zs wc) items acc w = (Ok deltas, w') →
    deltas.*1 = acc.*1 ++ map (λ item, weight_name hp item.2) items.
Proof.
  induction items as [|[i layer] items IH]; intros acc w w' deltas Hnd Hrun;
    cbn [foldM] in Hrun.
  - unfold ret in Hrun. simplify_eq. by rewrite app_nil_r.
  - apply bind_Ok in Hrun as (d1 & w1 & Hstep & Hrest).
    apply layer_step_inv in Hstep
      as (ks & targets & cur_zs & cov & pk & w0 & adj & w2 & upd0 & v & upd & orig &
          new & new' & dist & _ & _ & _ & _ & _ & _ & _ & _ & _ & _ & _ & _ & ->).
    simpl in Hnd.
    assert (weight_name hp layer ∉ acc.*1) as Hfresh.
    { apply NoDup_app in Hnd as (_ & Hdisj & _). intros Hin.
      apply (Hdisj _ Hin). by left. }
    rewrite dict_set_fresh in Hrest by done.
    apply IH in Hrest.
    + rewrite Hrest, fmap_app. simpl. by rewrite <- app_assoc.
    + rewrite fmap_app. simpl. by rewrite <- app_assoc.
Qed.

Lemma enumerate_snd {A} (l : list A) : (enumerate l).*2 = l.
Proof. unfold enumerate. apply snd_zip. by rewrite length_seq. Qed.

Lemma execute_memit_lti_keys_in_order (hp : MEMITLTIHyperParams R) requests
    cache_template (w w' : world R) deltas z_norms :
  (∀ l1 l2, weight_name hp l1 = weight_name hp l2 → l1 = l2) →
  NoDup (layers hp) →
  execute_memit_lti ext hp requests cache_template w = (Ok (deltas, z_norms), w') →
  deltas.*1 = map (weight_name hp) (layers hp).
Proof.
  intros Hinj Hnd Hrun.
  unfold execute_memit_lti in Hrun. apply bind_Ok in Hrun as (reqs & w0 & _ & Hc).
  unfold compute_deltas in Hc. inv_ok.
  match goal with Hf : foldM (layer_step _ _ _ _ _ _ _) _ _ _ = _ |- _ =>
    rename Hf into Hloop end.
  apply layer_loop_order in Hloop.
  - rewrite Hloop. simpl.
    rewrite <- (enumerate_snd (layers hp)) at 2. by rewrite <- list_fmap_compose.
  - simpl. change (map (λ item : nat * Z, weight_name hp item.2) (enumerate (layers hp)))
      with ((weight_name hp ∘ snd) <$> enumerate (layers hp)).
    rewrite list_fmap_compose, enumerate_snd.
    apply NoDup_fmap_2; [|done]. intros l1 l2. apply Hinj.
Qed.

(** X19. With a rewrite template that has its placeholder (and no other
    brace), distinct layers select distinct weights; when [hparams.layers]
    has no repetition and [execute_memit_lti] returns, the keys of [deltas]
    are the weight names of the layers in the order of [hparams.layers]. *)
Theorem deltas_follow_the_layers (hp : MEMITLTIHyperParams R) pre post requests
    cache_template (w w' : world R) deltas z_norms :
  rewrite_module_tmp hp = pre +:+ "{}" +:+ post →
  brace_free pre = true → brace_free post = true →
  NoDup (layers hp) →
  execute_memit_lti ext hp requests cache_template w = (Ok (deltas, z_norms), w') →
  (∀ l1 l2, weight_name hp l1 = weight_name hp l2 → l1 = l2) ∧
  deltas.*1 = map (weight_name hp) (layers hp).
Proof.
  intros Et Hpre _ Hnd Hrun.
  assert (∀ l1 l2, weight_name hp l1 = weight_name hp l2 → l1 = l2) as Hinj
    by (intros l1 l2; by apply (weight_name_inj hp pre post)).
  split; [done|]. by eapply execute_memit_lti_keys_in_order.
Qed.

End WeightNames.

(** ** The keys of the report *)

Lemma split_on_dot_free_head (a s : string) :
  dot_free a = true → split_on "." (a +:+ "." +:+ s) = a :: split_on "." s.
Proof.
  induction a as [|c a IH]; intros Ha.
  - done.
  - cbn [dot_free] in Ha. apply andb_prop in Ha as [Hc Ha]. apply negb_true_iff in Hc.
    rewrite string_app_cons. cbn [split_on]. rewrite Hc, IH by done. done.
Qed.

Lemma pretty_N_go_dot_free (x : N) (s : string) :
  dot_free s = true → dot_free (pretty_N_go x s) = true.
Proof.
  revert s. induction (N.lt_wf_0 x) as [x _ IH]; intros s Hs.
  assert (x = 0 ∨ 0 < x)%N as [->|Hpos] by lia.
  - by rewrite pretty_N_go_0.
  - rewrite pretty_N_go_step by done. apply IH; [by apply N.div_lt|].
    cbn [dot_free]. rewrite Hs, andb_true_r.
    unfold pretty_N_char. by repeat case_match.
Qed.

Lemma pretty_Z_dot_free (x : Z) : dot_free (pretty x) = true.
Proof.
  assert (∀ p : positive, dot_free (pretty p) = true) as Hp.
  { intros p. unfold pretty, pretty_positive, pretty, pretty_N.
    rewrite decide_False by done. by apply pretty_N_go_dot_free. }
  destruct x as [|p|p]; [done|apply Hp|].
  unfold pretty, pretty_Z. rewrite string_app_cons. cbn [dot_free].
  change ("" +:+ pretty p) with (pretty p). by rewrite Hp.
Qed.

Section ReportKeys.
Context {R : Type} `{Scalar R}.
Variable ext : Externals R.

Lemma insert_loop_order (b : bool) (items : list (string * Delta (R:=R))) :
  ∀ keys wc0 d0 (w w' : world R) wc d,
    Forall2 (λ item k, split_on "." item.1 !! 2 = Some k) items keys →
    NoDup (d0.*1 ++ keys) →
    foldM (insert_step b) items (wc0, d0) w = (Ok (wc, d), w') →
    d.*1 = d0.*1 ++ keys.
Proof.
  induction items as [|[k δ] items IH]; intros keys wc0 d0 w w' wc d Hkeys Hnd Hrun.
  - apply Forall2_nil_inv_l in Hkeys as ->. cbn in Hrun. unfold ret in Hrun.
    simplify_eq. by rewrite app_nil_r.
  - apply Forall2_cons_inv_l in Hkeys as (key & keys' & Hkey & Hkeys & ->).
    cbn [foldM] in Hrun. apply bind_Ok in Hrun as ([wc1 d1] & w1 & Hstep & Hrest).
    apply insert_step_Ok in Hstep as (W & W' & _ & _ & _ & (layer & rep & Hl & ->) & _).
    simpl in Hkey. rewrite Hkey in Hl. injection Hl as <-.
    assert (key ∉ d0.*1) as Hfresh.
    { apply NoDup_app in Hnd as (_ & Hdisj & _). intros Hin.
      apply (Hdisj _ Hin). by left. }
    rewrite dict_set_fresh in Hrest by done.
    apply (IH keys') in Hrest; [|done|].
    + rewrite Hrest, fmap_app. simpl. by rewrite <- app_assoc.
    + rewrite fmap_app. simpl. by rewrite <- app_assoc.
Qed.

(** X20. With a rewrite template of the form [a.b.{}] or [a.b.{}.rest],
    as the templates of GPT-2, GPT-J and Llama are, the third component of
    a weight name is the layer number: when [hparams.layers] has no
    repetition and [apply_memit_lti_rect_to_model] returns, the report has
    one entry for each layer, keyed by the decimal layer number, in the
    order of [hparams.layers]. *)
Theorem reports_are_keyed_by_layer_number (hp : MEMITLTIHyperParams R) a b post requests
    return_orig_weights cache_template (w w' : world R) weights_copy distances_ z_norms :
  rewrite_module_tmp hp = a +:+ "." +:+ b +:+ ".{}" +:+ post →
  dot_free a = true → dot_free b = true →
  brace_free a = true → brace_free b = true → brace_free post = true →
  post = "" ∨ (∃ p, post = "." +:+ p) →
  NoDup (layers hp) →
  apply_memit_lti_rect_to_model ext hp requests return_orig_weights cache_template w
    = (Ok (weights_copy, distances_, z_norms), w') →
  (∀ layer, split_on "." (weight_name hp layer) !! 2 = Some (pretty layer)) ∧
  distances_.*1 = map pretty (layers hp).
Proof.
  intros Et Hda Hdb Hba Hbb _ Hpost Hnd Hrun.
  assert (rewrite_module_tmp hp = (a +:+ "." +:+ b +:+ ".") +:+ "{}" +:+ post) as Et'.
  { rewrite Et, !string_app_assoc. done. }
  assert (brace_free (a +:+ "." +:+ b +:+ ".") = true) as Hpre.
  { rewrite !brace_free_app, Hba, Hbb. done. }
  assert (∃ q, post +:+ ".weight" = "." +:+ q) as [q Hq].
  { destruct Hpost as [->|[p ->]]; [by exists "weight"|].
    exists (p +:+ ".weight"). by rewrite string_app_assoc. }
  assert (∀ layer, split_on "." (weight_name hp layer) !! 2 = Some (pretty layer))
    as Hthird.
  { intros layer.
    rewrite (weight_name_placeholder hp _ post layer Et' Hpre).
    rewrite !string_app_assoc, Hq.
    rewrite split_on_dot_free_head by done.
    rewrite split_on_dot_free_head by done.
    rewrite split_on_dot_free_head by apply pretty_Z_dot_free. done. }
  split; [done|].
  unfold apply_memit_lti_rect_to_model in Hrun.
  apply bind_Ok in Hrun as ([deltas zn] & w1 & Hex & Hins).
  apply bind_Ok in Hins as ([wc rep] & w2 & Hins & Hret).
  unfold ret in Hret. simplify_eq.
  apply execute_memit_lti_keys_in_order in Hex; [|
    intros l1 l2; by apply (weight_name_inj hp _ post l1 l2 Et' Hpre)|done].
  apply (insert_loop_order _ _ (map pretty (layers hp))) in Hins; [done| |].
  - revert Hex. generalize (layers hp). clear -Hthird.
    induction deltas as [|[k δ] deltas IH]; intros [|l ls] E; simplify_eq/=.
    + constructor.
    + constructor; [by simpl|]. by apply IH.
  - simpl. apply NoDup_fmap_2; [apply _|done].
Qed.

(** X21. A weight name with fewer than three components separated by dots
    makes the insertion step raise, and when the sparse insertion itself
    succeeded, it raises the [IndexError] of [w_name.split('.')[2]] after
    the weight has been overwritten. *)
Theorem short_weight_name_fails_after_the_write (return_orig_weights : bool) acc w_name
    (d : Delta) (w w' : world R) r :
  split_on "." w_name !! 2 = None →
  insert_step return_orig_weights acc (w_name, d) w = (r, w') →
  (∃ e, r = Raise e) ∧
  ∀ U0 W U W',
    matmul (adj_k d) (transpose (resid d)) = Ok U0 →
    params w !! w_name = Some W →
    upd_matrix_match_shape U0 (shape_of W) = Ok U →
    sparse_insert U W = Ok W' →
    r = Raise IndexError ∧ w' = set_params <[w_name := W']> w.
Proof.
  intros Hshort Hrun. unfold insert_step in Hrun. destruct acc as [wc dists].
  unfold get_parameter, bind, get, lift, modify, ret, raise in Hrun.
  rewrite Hshort in Hrun. split.
  - destruct (matmul _ _); [|by simplify_eq; eexists].
    destruct (params w !! w_name); [|by simplify_eq; eexists].
    destruct (upd_matrix_match_shape _ _); [|by simplify_eq; eexists].
    destruct (sparse_insert _ _); simplify_eq; by eexists.
  - intros U0 W U W' HU0 HW HU HW'. rewrite HU0, HW, HU, HW' in Hrun. by simplify_eq.
Qed.

End ReportKeys.

(** ** The requests the collaborators read *)

Lemma with_leading_space_idemp s :
  with_leading_space (with_leading_space s) = with_leading_space s.
Proof.
  destruct s as [|c s]; [done|]. simpl.
  destruct (Ascii.eqb c " ") eqn:E; simpl; by rewrite ?E.
Qed.

Lemma with_leading_space_empty s : with_leading_space s = "" ↔ s = "".
Proof.
  destruct s as [|c s]; [done|]. simpl. by destruct (Ascii.eqb c " ").
Qed.

Lemma normalized_idemp r : normalized (normalized r) = normalized r.
Proof. unfold normalized. simpl. by rewrite with_leading_space_idemp. Qed.

Section ReadRequests.
Context {R : Type} `{Scalar R}.

Lemma read_request_read_heap l (w w' : world R) r :
  read_request l w = (Ok r, w') ↔ read_heap (heap w) l = Some r ∧ w' = w.
Proof.
  unfold read_request, read_heap, load_obj, bind, get, ret, raise.
  destruct (heap w !! l) as [[| p s c t |]|]; try (split; [by intros [=]|by intros [[=] _]]).
  destruct (heap w !! t) as [[| |str]|]; try (split; [by intros [=]|by intros [[=] _]]).
  split; [by intros [= <- <-]|by intros [[= <-] ->]].
Qed.

(** One turn of the loop of lines 123 to 127. *)
Lemma normalize_target_Ok l (w w' : world R) :
  normalize_target l w = (Ok tt, w') →
  ∃ r, read_heap (heap w) l = Some r ∧ target_new r ≠ "" ∧
       read_heap (heap w') l = Some (normalized r) ∧
       spaces (heap w) (heap w').
Proof.
  unfold normalize_target, load_obj, bind, get, ret, raise, modify.
  destruct (heap w !! l) as [[| p s c t |]|] eqn:El; try by intros [=].
  destruct (heap w !! t) as [[| |str]|] eqn:Et; try by intros [=].
  destruct str as [|c0 str]; [by intros [=]|].
  destruct (Ascii.eqb c0 " ") eqn:Ec.
  - intros [= <-]. exists (Request p s (String c0 str) c). unfold read_heap.
    rewrite El, Et. unfold normalized. simpl. rewrite Ec. split_and!; [done..|].
    intros l2. by left.
  - intros [= <-]. exists (Request p s (String c0 str) c).
    assert (l ≠ t) as Hlt by (intros ->; congruence).
    unfold read_heap at 1 2. rewrite El, Et. simpl.
    rewrite lookup_insert_ne by done. rewrite El, lookup_insert_eq.
    unfold normalized. simpl. rewrite Ec. split_and!; [done..|].
    intros l2. unfold read_heap.
    destruct (decide (l2 = t)) as [->|Hne].
    + rewrite lookup_insert_eq, Et. by left.
    + rewrite lookup_insert_ne by done.
      destruct (heap w !! l2) as [[| p2 s2 c2 t2 |]|]; try by left.
      destruct (decide (t2 = t)) as [->|Hne2].
      * rewrite lookup_insert_eq, Et. right. simpl. unfold normalized. simpl.
        by rewrite Ec.
      * rewrite lookup_insert_ne by done. by left.
Qed.

Lemma normalize_loop_Ok items :
  ∀ (w w' : world R),
    foldM (λ _ request, normalize_target request) items tt w = (Ok tt, w') →
    spaces (heap w) (heap w') ∧
    ∀ l, l ∈ items →
      ∃ r, read_heap (heap w) l = Some r ∧ target_new r ≠ "" ∧
           read_heap (heap w') l = Some (normalized r).
Proof.
  induction items as [|l0 items IH]; intros w w' Hrun; cbn [foldM] in Hrun.
  - unfold ret in Hrun. simplify_eq. split; [by left|]. by intros l ?%elem_of_nil.
  - apply bind_Ok in Hrun as ([] & w1 & Hstep & Hrest).
    apply normalize_target_Ok in Hstep as (r0 & Hr0 & Hne0 & Hr0' & Hsp).
    apply IH in Hrest as [Hsp' Hitems].
    assert (spaces (heap w) (heap w')) as Hsp2.
    { intros l. destruct (Hsp l) as [E1|E1], (Hsp' l) as [E2|E2];
        rewrite E2, E1; [by left|by right|by right|].
      right. destruct (read_heap (heap w) l); [|done]. simpl.
      by rewrite normalized_idemp. }
    split; [done|]. intros l [->|Hin]%elem_of_cons.
    + exists r0. split_and!; [done..|].
      destruct (Hsp' l0) as [E|E]; rewrite E, Hr0'; [done|].
      simpl. by rewrite normalized_idemp.
    + destruct (Hitems l Hin) as (r1 & Hr1 & Hne1 & Hr1').
      destruct (Hsp l) as [E|E]; rewrite E in Hr1.
      * by exists r1.
      * destruct (read_heap (heap w) l) as [r|]; [|done]. simpl in Hr1.
        injection Hr1 as <-. exists r. split_and!; [done| |].
        -- intros Hempty. apply Hne1. simpl. by apply with_leading_space_empty.
        -- by rewrite Hr1', normalized_idemp.
Qed.

Lemma read_loop_Ok items :
  ∀ acc (w w' : world R) reqs,
    foldM (λ acc l, r <- read_request l;; ret (acc ++ [r])) items acc w = (Ok reqs, w') →
    w' = w ∧ ∃ rs, reqs = acc ++ rs ∧
                   Forall2 (λ l r, read_heap (heap w) l = Some r) items rs.
Proof.
  induction items as [|l items IH]; intros acc w w' reqs Hrun; cbn [foldM] in Hrun.
  - unfold ret in Hrun. simplify_eq. split; [done|]. exists []. by rewrite app_nil_r.
  - apply bind_Ok in Hrun as (acc1 & w1 & Hstep & Hrest).
    apply bind_Ok in Hstep as (r & w2 & Hread & Hret).
    unfold ret in Hret. simplify_eq.
    apply read_request_read_heap in Hread as [Hr ->].
    apply IH in Hrest as (-> & rs & -> & Hrs).
    split; [done|]. exists (r :: rs). rewrite <- app_assoc. split; [done|].
    by constructor.
Qed.

(** [deepcopy] *)

Lemma alloc_Ok o (w w' : world R) l :
  alloc o w = (Ok l, w') →
  (l ∉ dom (heap w)) ∧ w' = set_heap <[l := o]> w.
Proof.
  unfold alloc, bind, get, modify, ret. intros [= <- <-].
  split; [apply is_fresh|done].
Qed.

Lemma copy_inv_alloc h0 h memo l o :
  h0 ⊆ h → l ∉ dom h → copy_inv h0 h memo → copy_inv h0 (<[l := o]> h) memo.
Proof.
  intros Hsub Hl Hinv k v Hkv. destruct (Hinv k v Hkv) as [Hv Hcopy].
  split; [done|].
  assert (∀ o', h !! v = Some o' → <[l := o]> h !! v = Some o') as Hkeep.
  { intros o' Ho'. rewrite lookup_insert_ne; [done|]. intros <-.
    apply Hl. apply elem_of_dom. by eexists. }
  destruct (h0 !! k) as [[| p s c t |s]|]; [done| |by apply Hkeep|done].
  destruct Hcopy as (t' & Hv' & Ht'). exists t'. split; [by apply Hkeep|done].
Qed.

Lemma copy_inv_memo h0 h memo k v :
  copy_inv h0 h memo → memo !! k = None →
  v ∉ dom h0 →
  match h0 !! k with
  | Some (TargetDict s) => h !! v = Some (TargetDict s)
  | Some (ReqDict p s c t) =>
      ∃ t', h !! v = Some (ReqDict p s c t') ∧ <[k := v]> memo !! t = Some t'
  | _ => False
  end →
  copy_inv h0 h (<[k := v]> memo).
Proof.
  intros Hinv Hnone Hv Hnew k' v' Hkv.
  destruct (decide (k' = k)) as [->|Hne].
  - rewrite lookup_insert_eq in Hkv. injection Hkv as <-. done.
  - rewrite lookup_insert_ne in Hkv by done. destruct (Hinv k' v' Hkv) as [Hv' Hcopy].
    split; [done|].
    destruct (h0 !! k') as [[| p s c t |s]|]; [done| |done|done].
    destruct Hcopy as (t' & Hh & Ht). exists t'. split; [done|].
    destruct (decide (t = k)) as [->|Hne']; [congruence|].
    by rewrite lookup_insert_ne.
Qed.

Lemma insert_subseteq_fresh (h0 h : gmap loc obj) l o :
  h0 ⊆ h → l ∉ dom h → h0 ⊆ <[l := o]> h.
Proof.
  intros Hsub Hl. etrans; [exact Hsub|]. apply insert_subseteq.
  by apply not_elem_of_dom.
Qed.

Lemma deepcopy_target_Ok h0 memo t (w w' : world R) t' memo' :
  h0 ⊆ heap w → copy_inv h0 (heap w) memo → is_Some (h0 !! t) →
  deepcopy_target memo t w = (Ok (t', memo'), w') →
  h0 ⊆ heap w' ∧ copy_inv h0 (heap w') memo' ∧ memo' !! t = Some t' ∧ memo ⊆ memo' ∧
  (∀ k, k ≠ t → memo' !! k = memo !! k) ∧
  (memo !! t = None → ∃ s, h0 !! t = Some (TargetDict s)).
Proof.
  intros Hsub Hinv [o Ho] Hrun. unfold deepcopy_target in Hrun.
  destruct (memo !! t) as [t0|] eqn:Et.
  { unfold ret in Hrun. by simplify_eq. }
  pose proof (lookup_weaken _ _ _ _ Ho Hsub) as Ho'.
  unfold bind at 1, load_obj, bind, get, ret in Hrun. rewrite Ho' in Hrun.
  destruct o as [| |s]; try by (unfold raise in Hrun; simplify_eq).
  destruct (alloc (TargetDict s) w) as [[l|e] w1] eqn:Ea; [|by simplify_eq].
  injection Hrun as <- <- <-.
  apply alloc_Ok in Ea as [Hl ->]. simpl.
  assert (l ∉ dom h0) as Hl0.
  { intros Hin. apply Hl. by eapply subseteq_dom. }
  split_and!.
  - by apply insert_subseteq_fresh.
  - apply copy_inv_memo; [by apply copy_inv_alloc|done|done|].
    rewrite Ho. by rewrite lookup_insert_eq.
  - by rewrite lookup_insert_eq.
  - by apply insert_subseteq.
  - intros k Hk. by rewrite lookup_insert_ne.
  - by eauto.
Qed.

Lemma deepcopy_request_Ok h0 memo l (w w' : world R) l' memo' :
  heap_closed h0 →
  h0 ⊆ heap w → copy_inv h0 (heap w) memo → is_Some (h0 !! l) →
  deepcopy_request memo l w = (Ok (l', memo'), w') →
  h0 ⊆ heap w' ∧ copy_inv h0 (heap w') memo' ∧ memo' !! l = Some l' ∧ memo ⊆ memo'.
Proof.
  intros Hclosed Hsub Hinv [o Ho] Hrun. unfold deepcopy_request in Hrun.
  destruct (memo !! l) as [l0|] eqn:El.
  { unfold ret in Hrun. by simplify_eq. }
  pose proof (lookup_weaken _ _ _ _ Ho Hsub) as Ho'.
  unfold bind at 1, load_obj, bind at 1, get, ret in Hrun. rewrite Ho' in Hrun.
  destruct o as [| p s c t |]; try by (unfold raise in Hrun; simplify_eq).
  assert (is_Some (h0 !! t)) as Ht by (eapply Hclosed; [exact Ho|by left]).
  apply bind_Ok in Hrun as ([t' memo1] & w1 & Hcopy & Hrun).
  apply (deepcopy_target_Ok h0) in Hcopy
    as (Hsub1 & Hinv1 & Ht' & Hmemo1 & Hother & Hkind); [|done..].
  apply bind_Ok in Hrun as (l1 & w2 & Ha & Hret). unfold ret in Hret. simplify_eq.
  apply alloc_Ok in Ha as [Hl ->]. simpl.
  assert (l' ∉ dom h0) as Hl0.
  { intros Hin. apply Hl. by eapply subseteq_dom. }
  assert (l ≠ t) as Hlt.
  { intros ->. destruct (Hkind El) as [s0 Hs0]. congruence. }
  assert (memo1 !! l = None) as El1 by (by rewrite Hother).
  split_and!.
  - by apply insert_subseteq_fresh.
  - apply copy_inv_memo; [by apply copy_inv_alloc|done|done|].
    rewrite Ho. exists t'. rewrite lookup_insert_eq. split; [done|].
    by rewrite lookup_insert_ne.
  - by rewrite lookup_insert_eq.
  - etrans; [exact Hmemo1|]. by apply insert_subseteq.
Qed.

Lemma deepcopy_loop_Ok h0 items :
  heap_closed h0 →
  (∀ l, l ∈ items → is_Some (h0 !! l)) →
  ∀ acc memo (w w' : world R) copies memo',
    h0 ⊆ heap w → copy_inv h0 (heap w) memo →
    foldM (λ '(acc, memo) l,
             let* (l', memo) := deepcopy_request memo l in
             ret (acc ++ [l'], memo))
          items (acc, memo) w = (Ok (copies, memo'), w') →
    h0 ⊆ heap w' ∧ copy_inv h0 (heap w') memo' ∧ memo ⊆ memo' ∧
    ∃ cs, copies = acc ++ cs ∧ Forall2 (λ l l', memo' !! l = Some l') items cs.
Proof.
  intros Hclosed. induction items as [|l items IH];
    intros Hall acc memo w w' copies memo' Hsub Hinv Hrun; cbn [foldM] in Hrun.
  - unfold ret in Hrun. simplify_eq. split_and!; [done..|].
    exists []. by rewrite app_nil_r.
  - apply bind_Ok in Hrun as ([acc1 memo1] & w1 & Hstep & Hrest).
    apply bind_Ok in Hstep as ([l' memo2] & w2 & Hcopy & Hret).
    unfold ret in Hret. simplify_eq.
    apply (deepcopy_request_Ok h0) in Hcopy as (Hsub1 & Hinv1 & Hl' & Hmemo1);
      [|done|done|done|by apply Hall; left].
    apply IH in Hrest as (Hsub2 & Hinv2 & Hmemo2 & cs & -> & Hcs);
      [|by intros; apply Hall; right|done|done].
    split_and!; [done|done|by etrans|].
    exists (l' :: cs). rewrite <- app_assoc. split; [done|].
    constructor; [|done]. by eapply lookup_weaken.
Qed.

Lemma deepcopy_Ok requests items (w w' : world R) copy :
  heap_closed (heap w) →
  heap w !! requests = Some (ListObj items) →
  deepcopy requests w = (Ok copy, w') →
  ∃ copies memo,
    heap w' !! copy = Some (ListObj copies) ∧
    copy_inv (heap w) (heap w') memo ∧
    Forall2 (λ l l', memo !! l = Some l') items copies.
Proof.
  intros Hclosed Hitems Hrun. unfold deepcopy in Hrun.
  unfold bind at 1, load_obj, bind, get, ret in Hrun. rewrite Hitems in Hrun.
  destruct (foldM _ items ([], ∅) w) as [[[copies memo]|e] w1] eqn:Hloop;
    [|by simplify_eq].
  apply (deepcopy_loop_Ok (heap w)) in Hloop as (Hsub & Hinv & _ & cs & -> & Hcs);
    [|done|by intros; eapply Hclosed|done|].
  - apply alloc_Ok in Hrun as [Hl ->]. simpl. exists cs, memo.
    rewrite lookup_insert_eq. split_and!; [done| |done].
    by apply copy_inv_alloc.
  - intros k v. by rewrite lookup_empty.
Qed.

(** X22. The requests that the rest of [execute_memit_lti] reads are the
    caller's requests, in their order, each with a space put before its
    target string when the string does not start with one; no target
    string is empty, since the test of the first character would raise. *)
Theorem collaborators_read_the_normalized_requests requests items (w w' : world R) reqs :
  heap_closed (heap w) →
  heap w !! requests = Some (ListObj items) →
  normalize_requests requests w = (Ok reqs, w') →
  Forall2 (λ l r, ∃ r0, read_request l w = (Ok r0, w) ∧ target_new r0 ≠ "" ∧
                        r = normalized r0) items reqs.
Proof.
  intros Hclosed Hitems Hrun. unfold normalize_requests in Hrun.
  apply bind_Ok in Hrun as (copy & w1 & Hcopy & Hrun).
  apply (deepcopy_Ok _ items) in Hcopy as (copies & memo & Hlist & Hinv & Hcopies);
    [|done..].
  unfold bind at 1, load_obj, bind, get, ret in Hrun. rewrite Hlist in Hrun.
  destruct (foldM _ copies tt w1) as [[[]|e] w2] eqn:Hnorm; [|by simplify_eq].
  apply normalize_loop_Ok in Hnorm as [_ Hnorm].
  apply read_loop_Ok in Hrun as (-> & rs & -> & Hrs). simpl.
  clear Hitems Hlist. revert rs Hrs Hnorm. induction Hcopies as [|l l' items copies Hl _ IH];
    intros rs Hrs Hnorm.
  - apply Forall2_nil_inv_l in Hrs as ->. constructor.
  - apply Forall2_cons_inv_l in Hrs as (r & rs' & Hr & Hrs & ->).
    constructor; [|apply IH; [done|by intros; apply Hnorm; right]].
    destruct (Hnorm l') as (r1 & Hr1 & Hne & Hr1'); [by left|].
    exists r1. split_and!; [|done|congruence].
    apply read_request_read_heap. split; [|done].
    destruct (Hinv l l' Hl) as [_ Hc]. unfold read_heap in Hr1 |- *.
    destruct (heap w !! l) as [[| p s c t |s]|]; [done| |by rewrite Hc in Hr1|done].
    destruct Hc as (t' & Hl' & Ht'). rewrite Hl' in Hr1.
    destruct (Hinv t t' Ht') as [_ Hc'].
    destruct (heap w !! t) as [[| p2 s2 c2 t2 |s2]|]; [done| |by rewrite Hc' in Hr1|done].
    destruct Hc' as (t'' & Hc' & _). by rewrite Hc' in Hr1.
Qed.

End ReadRequests.

(** ** The norms of the target representations *)

Section TargetNorms.
Context {R : Type} `{Scalar R}.
Variable ext : Externals R.

Lemma deepcopy_loop_length items :
  ∀ acc memo (w w' : world R) copies memo',
    foldM (λ '(acc, memo) l,
             let* (l', memo) := deepcopy_request memo l in
             ret (acc ++ [l'], memo))
          items (acc, memo) w = (Ok (copies, memo'), w') →
    length copies = length acc + length items.
Proof.
  induction items as [|l items IH]; intros acc memo w w' copies memo' Hrun;
    cbn [foldM] in Hrun.
  - unfold ret in Hrun. simplify_eq. simpl. lia.
  - apply bind_Ok in Hrun as ([acc1 memo1] & w1 & Hstep & Hrest).
    apply bind_Ok in Hstep as ([l' memo2] & w2 & Hcopy & Hret).
    unfold ret in Hret. simplify_eq.
    apply IH in Hrest. rewrite Hrest, length_app. simpl. lia.
Qed.

Lemma normalize_requests_length requests items (w w' : world R) reqs :
  heap w !! requests = Some (ListObj items) →
  normalize_requests requests w = (Ok reqs, w') →
  length reqs = length items.
Proof.
  intros Hitems Hrun. unfold normalize_requests in Hrun.
  apply bind_Ok in Hrun as (copy & w1 & Hcopy & Hrun).
  unfold deepcopy in Hcopy.
  unfold bind at 1, load_obj, bind, get, ret in Hcopy. rewrite Hitems in Hcopy.
  destruct (foldM _ items ([], ∅) w) as [[[copies memo]|e] w0] eqn:Hloop;
    [|by simplify_eq].
  apply deepcopy_loop_length in Hloop. apply alloc_Ok in Hcopy as [_ ->].
  unfold bind at 1, load_obj, bind, get, ret in Hrun. simpl in Hrun.
  rewrite lookup_insert_eq in Hrun.
  destruct (foldM _ copies tt _) as [[[]|e] w2]; [|by simplify_eq].
  apply read_loop_Ok in Hrun as (_ & rs & -> & Hrs).
  apply Forall2_length in Hrs. simpl in *. lia.
Qed.

(** Without a cache template, the loop over the requests calls [compute_z]
    for every request and leaves the state as it was. *)
Lemma z_loop_without_template (hp : MEMITLTIHyperParams R) z_layer ct items :
  ∀ z_list z_norms (w w' : world R) z_list' z_norms',
    foldM (compute_z_step ext hp None z_layer ct) items (z_list, z_norms) w
      = (Ok (z_list', z_norms'), w') →
    w' = w ∧ z_norms'.*1 = z_norms.*1 ++ items.*1 ∧
    length z_list' = length z_list + length items.
Proof.
  induction items as [|[r_id request] items IH];
    intros z_list z_norms w w' z_list' z_norms' Hrun; cbn [foldM] in Hrun.
  - unfold ret in Hrun. simplify_eq. rewrite app_nil_r. simpl. split_and!; [done..|lia].
  - apply bind_Ok in Hrun as ([zl1 zn1] & w1 & Hstep & Hrest).
    unfold compute_z_step, bind, get, lift, ret in Hstep.
    destruct (compute_z ext _ _ _ _ _) as [[[z dn] inorm]|e]; simplify_eq.
    apply IH in Hrest as (-> & -> & ->).
    rewrite fmap_app, length_app, <- app_assoc. simpl. split_and!; [done..|lia].
Qed.

Lemma enumerate_fst {A} (l : list A) : (enumerate l).*1 = seq 0 (length l).
Proof. unfold enumerate. apply fst_zip. by rewrite length_seq. Qed.

(** X23. Without a cache template, when [execute_memit_lti] returns,
    [z_norms] has one entry for each request, keyed by the index of the
    request in the batch, in order. *)
Theorem z_norms_are_keyed_by_request_index (hp : MEMITLTIHyperParams R) requests items
    (w w' : world R) deltas z_norms :
  heap w !! requests = Some (ListObj items) →
  execute_memit_lti ext hp requests None w = (Ok (deltas, z_norms), w') →
  z_norms.*1 = seq 0 (length items).
Proof.
  intros Hitems Hrun. unfold execute_memit_lti in Hrun.
  apply bind_Ok in Hrun as (reqs & w0 & Hn & Hc).
  apply (normalize_requests_length _ items) in Hn; [|done].
  unfold compute_deltas in Hc. inv_ok.
  match goal with Hz : foldM (compute_z_step _ _ _ _ _) _ _ _ = _ |- _ =>
    rename Hz into Hloop end.
  apply z_loop_without_template in Hloop as (_ & Hloop & _).
  rewrite Hloop, enumerate_fst, Hn. done.
Qed.

End TargetNorms.

(** ** The calls of the collaborators *)

Section Calls.
Context {R : Type} `{Scalar R}.
Variable ext : Externals R.

#[export] Instance calls_as_expected_preorder hp : PreOrder (calls_as_expected (R:=R) hp).
Proof.
  split.
  - intros w. exists []. by rewrite app_nil_r.
  - intros w1 w2 w3 (e1 & E1 & F1) (e2 & E2 & F2). exists (e1 ++ e2).
    rewrite E2, E1, app_assoc. split; [done|]. by apply Forall_app.
Qed.

Lemma same_trace_expected hp (w w' : world R) :
  trace w' = trace w → calls_as_expected hp w w'.
Proof. intros E. exists []. by rewrite app_nil_r. Qed.

#[export] Instance calls_as_expected_ignores hp : IgnoresModel (calls_as_expected (R:=R) hp).
Proof. split; intros; by apply same_trace_expected. Qed.

Lemma log_expected hp e (w : world R) :
  expected_call hp e → calls_as_expected hp w (log e w).
Proof. intros He. exists [e]. split; [done|]. by apply Forall_singleton. Qed.

Lemma layer_cov_expected (hp : MEMITLTIHyperParams R) layer :
  layer ∈ layers hp → preserves (calls_as_expected hp) (layer_cov ext hp layer).
Proof.
  intros Hin. unfold layer_cov, get_cov. simpl.
  frame; apply (preserves_modify (calls_as_expected hp)); intros ?;
    first [ by apply same_trace_expected | apply log_expected; simpl; by eauto ].
Qed.

Lemma solve_layer_expected (hp : MEMITLTIHyperParams R) layer cov K :
  preserves (calls_as_expected hp) (solve_layer ext hp layer cov K).
Proof.
  apply (solve_layer_same_cov ext (calls_as_expected hp)).
  - intros. by apply same_trace_expected.
  - intros. by apply log_expected.
Qed.

(** X24. Whatever the outcome of [execute_memit_lti] or
    [apply_memit_lti_rect_to_model], the calls it made are appended to the
    calls made before, and every call of [layer_stats] among them is for a
    layer of [hparams.layers], with the sample size
    [hparams.mom2_n_samples] and not forced: the branch
    [hparams.mom2_n_samples // 10] is never taken. *)
Theorem layer_stats_is_never_forced (hp : MEMITLTIHyperParams R) requests
    return_orig_weights cache_template (w w' : world R) r1 r2 :
  execute_memit_lti ext hp requests cache_template w = (r1, w') ∨
  apply_memit_lti_rect_to_model ext hp requests return_orig_weights cache_template w
    = (r2, w') →
  ∃ calls, trace w' = trace w ++ calls ∧
    ∀ name n force, CallLayerStats name n force ∈ calls →
      force = false ∧ n = mom2_n_samples hp ∧
      ∃ layer, layer ∈ layers hp ∧ name = py_format (rewrite_module_tmp hp) (pretty layer).
Proof.
  intros Hrun.
  assert (preserves (calls_as_expected hp) (get_context_templates ext)) as Ht.
  { apply (get_context_templates_ignored ext (calls_as_expected hp)).
    intros; by apply same_trace_expected. }
  assert (∀ zl ct acc item,
            preserves (calls_as_expected hp) (compute_z_step ext hp cache_template zl ct acc item))
    as Hz.
  { apply (compute_z_step_ignored ext (calls_as_expected hp)). intros; by apply same_trace_expected. }
  assert (calls_as_expected hp w w') as (calls & E & Hcalls).
  { destruct Hrun as [Hrun|Hrun].
    - by apply (execute_memit_lti_preserves_gen ext (calls_as_expected hp) Ht hp
                  (layer_cov_expected hp)
                  (λ layer cov K _, solve_layer_expected hp layer cov K) _ Hz _ _ _ _ Hrun).
    - by apply (apply_memit_lti_rect_to_model_preserves_gen ext (calls_as_expected hp)
                  Ht hp (layer_cov_expected hp)
                  (λ layer cov K _, solve_layer_expected hp layer cov K)
                  _ Hz _ _ _ _ _ Hrun). }
  exists calls. split; [done|]. intros name n force Hin.
  rewrite Forall_forall in Hcalls. apply (Hcalls _ Hin).
Qed.

End Calls.

(** ** The history and the result of an edit *)

Section HistoryBlind.
Context {R : Type} `{Scalar R}.

Lemma blind_ret {A} (a : A) : history_blind (R:=R) (ret a).
Proof. by intros f w. Qed.

Lemma blind_raise {A} e : history_blind (@raise R A e).
Proof. by intros f w. Qed.

Lemma blind_lift {A} (x : result A) : history_blind (R:=R) (lift x).
Proof. by intros f w. Qed.

Lemma blind_modify (g : world R → world R) :
  (∀ f w, g (set_SEQ_CACHE f w) = set_SEQ_CACHE f (g w)) → history_blind (modify g).
Proof. intros Hg f w. unfold modify. simpl. by rewrite Hg. Qed.

Lemma blind_bind {A B} (m : M R A) (k : A → M R B) :
  history_blind m → (∀ a, history_blind (k a)) → history_blind (bind m k).
Proof.
  intros Hm Hk f w. unfold bind. rewrite Hm.
  destruct (m w) as [[a|e] w1]; simpl; [apply Hk|done].
Qed.

Lemma blind_get_bind {B} (k : world R → M R B) :
  (∀ f w0 w, k (set_SEQ_CACHE f w0) w = k w0 w) →
  (∀ w0, history_blind (k w0)) →
  history_blind (bind get k).
Proof. intros Hext Hk f w. unfold bind, get. rewrite Hext. apply Hk. Qed.

Lemma blind_foldM {A B} (g : B → A → M R B) (l : list A) (b : B) :
  (∀ b a, history_blind (g b a)) → history_blind (foldM g l b).
Proof.
  intros Hg. revert b. induction l as [|a l IH]; intros b; simpl.
  - apply blind_ret.
  - apply blind_bind; [apply Hg|]. intros b'. apply IH.
Qed.

Lemma blind_same {A} (m : M R A) f (w w1 w2 : world R) a1 a2 :
  history_blind m → m w = (Ok a1, w1) → m (set_SEQ_CACHE f w) = (Ok a2, w2) →
  a2 = a1 ∧ w2 = set_SEQ_CACHE f w1.
Proof. intros Hm H1 H2. rewrite Hm, H1 in H2. simpl in H2. by simplify_eq. Qed.

End HistoryBlind.

Ltac blind_step :=
  cbv beta;
  match goal with
  | |- history_blind (ret _) => apply blind_ret
  | |- history_blind (raise _) => apply blind_raise
  | |- history_blind (lift _) => apply blind_lift
  | |- history_blind (modify _) => apply blind_modify; intros ? []; reflexivity
  | |- history_blind (bind get _) =>
      apply blind_get_bind; [intros ? [] ?; reflexivity|intros ?]
  | |- history_blind (bind _ _) => apply blind_bind; [|intros ?]
  | |- history_blind (foldM _ _ _) => apply blind_foldM; intros ? ?
  | |- history_blind (match ?x with _ => _ end) => destruct x
  | |- history_blind ((match ?x with _ => _ end) _) => destruct x
  end.
Ltac blind := repeat blind_step.

Section HistoryUnused.
Context {R : Type} `{Scalar R}.
Variable ext : Externals R.

Lemma normalize_requests_blind requests : history_blind (normalize_requests (R:=R) requests).
Proof.
  unfold normalize_requests, deepcopy, deepcopy_request, deepcopy_target,
    normalize_target, read_request, alloc, load_obj.
  blind.
Qed.

Lemma get_parameter_blind name : history_blind (get_parameter (R:=R) name).
Proof. unfold get_parameter. blind. Qed.

Lemma assign_parameter_blind name x : history_blind (assign_parameter (R:=R) name x).
Proof. unfold assign_parameter, get_parameter. blind. Qed.

Lemma collect_weights_blind hp : history_blind (collect_weights (R:=R) hp).
Proof. unfold collect_weights, get_parameter. blind. Qed.

Lemma restore_weights_blind weights wc : history_blind (restore_weights (R:=R) weights wc).
Proof. unfold restore_weights, assign_parameter, get_parameter. blind. Qed.

Lemma get_context_templates_blind : history_blind (get_context_templates ext).
Proof. unfold get_context_templates. blind. Qed.

Lemma compute_z_step_blind hp ct zl templ acc item :
  history_blind (compute_z_step ext hp ct zl templ acc item).
Proof. unfold compute_z_step. destruct acc, item. blind. Qed.

Lemma layer_targets_blind hp requests zl zs K :
  history_blind (layer_targets ext hp requests zl zs K).
Proof. unfold layer_targets. blind. Qed.

Lemma layer_cov_blind hp layer : history_blind (layer_cov ext hp layer).
Proof. unfold layer_cov, get_cov. simpl. blind. Qed.

Lemma insert_step_blind b acc item : history_blind (insert_step (R:=R) b acc item).
Proof. unfold insert_step, get_parameter. destruct acc, item. blind. Qed.

End HistoryUnused.

Section HistoryTheorem.
Context {R : Type} `{Scalar R}.
Variable ext : Externals R.
Variable hp : MEMITLTIHyperParams R.
Hypothesis options_off : sequential hp && add_prev_edits hp = false.

Lemma solve_layer_history_unused layer cov K f (w w1 w2 : world R) adj1 adj2 :
  solve_layer ext hp layer cov K w = (Ok adj1, w1) →
  solve_layer ext hp layer cov K (set_SEQ_CACHE f w) = (Ok adj2, w2) →
  adj1 = adj2 ∧ ∃ f', w2 = set_SEQ_CACHE f' w1.
Proof.
  intros H1 H2.
  apply solve_layer_inv in H1 as (C1 & G1 & N1 & A1 & HC1 & HG1 & _ & HA1 & Hs1 & ->).
  apply solve_layer_inv in H2 as (C2 & G2 & N2 & A2 & HC2 & HG2 & _ & HA2 & Hs2 & ->).
  rewrite options_off in HC1, HC2.
  assert (C1 = cov) as -> by (by destruct (SEQ_CACHE w !! layer)).
  assert (C2 = cov) as -> by (by destruct (SEQ_CACHE (set_SEQ_CACHE f w) !! layer)).
  assert (G2 = G1) as -> by congruence.
  assert (A2 = A1) as -> by congruence.
  split; [congruence|].
  exists (λ _, <[layer := N2]> (f (SEQ_CACHE w))). by destruct w.
Qed.

Lemma layer_step_history_unused requests ct zl zs wc deltas i layer f
    (w w1 w2 : world R) d1 d2 :
  layer_step ext hp requests ct zl zs wc deltas (i, layer) w = (Ok d1, w1) →
  layer_step ext hp requests ct zl zs wc deltas (i, layer) (set_SEQ_CACHE f w)
    = (Ok d2, w2) →
  d1 = d2 ∧ ∃ f', w2 = set_SEQ_CACHE f' w1.
Proof.
  intros H1 H2.
  apply layer_step_inv in H1
    as (ks & targets & cur & cov & pk & wa & adj & wb & upd0 & v & upd & orig & new &
        new' & dist & Hks & Ht & Hcov & Hsolve & Hupd0 & Hv & Hupd & Horig & Hnew &
        Hnew' & -> & Hdist & ->).
  apply layer_step_inv in H2
    as (ks2 & targets2 & cur2 & cov2 & pk2 & wa2 & adj2 & wb2 & upd02 & v2 & upd2 &
        orig2 & new2 & new2' & dist2 & Hks2 & Ht2 & Hcov2 & Hsolve2 & Hupd02 & Hv2 &
        Hupd2 & Horig2 & Hnew2 & Hnew2' & -> & Hdist2 & ->).
  assert (ks2 = ks) as -> by (destruct w; simpl in *; congruence).
  destruct (blind_same _ _ _ _ _ _ _ (layer_targets_blind ext hp _ _ _ _) Ht Ht2)
    as [[= -> ->] _].
  destruct (blind_same _ _ _ _ _ _ _ (layer_cov_blind ext hp _) Hcov Hcov2)
    as [[= -> ->] ->].
  destruct (solve_layer_history_unused _ _ _ _ _ _ _ _ _ Hsolve Hsolve2)
    as [<- [f' ->]].
  assert (upd02 = upd0) as -> by congruence.
  assert (v2 = v) as -> by (destruct wb; simpl in *; congruence).
  assert (upd2 = upd) as -> by congruence.
  assert (orig2 = orig) as -> by congruence.
  assert (new2 = new) as -> by congruence.
  assert (new2' = new') as -> by congruence.
  assert (dist2 = dist) as ->.
  { destruct (calculate_objective_value hp); [|congruence].
    destruct Hdist as (d & Hd & ->), Hdist2 as (d' & Hd' & ->). congruence. }
  split; [done|]. exists f'. by destruct wb.
Qed.

Lemma layer_loop_history_unused requests ct zl zs wc items :
  ∀ deltas f (w w1 w2 : world R) d1 d2,
    foldM (layer_step ext hp requests ct zl zs wc) items deltas w = (Ok d1, w1) →
    foldM (layer_step ext hp requests ct zl zs wc) items deltas (set_SEQ_CACHE f w)
      = (Ok d2, w2) →
    d1 = d2 ∧ ∃ f', w2 = set_SEQ_CACHE f' w1.
Proof.
  induction items as [|[i layer] items IH]; intros deltas f w w1 w2 d1 d2 H1 H2;
    cbn [foldM] in H1, H2.
  - unfold ret in H1, H2. simplify_eq. split; [done|]. by exists f.
  - apply bind_Ok in H1 as (da & wa & Hstep1 & Hrest1).
    apply bind_Ok in H2 as (db & wb & Hstep2 & Hrest2).
    destruct (layer_step_history_unused _ _ _ _ _ _ _ _ _ _ _ _ _ _ Hstep1 Hstep2)
      as [<- [f' ->]].
    by eapply IH.
Qed.

Lemma compute_deltas_history_unused requests cache_template f (w w1 w2 : world R) v1 v2 :
  compute_deltas ext hp requests cache_template w = (Ok v1, w1) →
  compute_deltas ext hp requests cache_template (set_SEQ_CACHE f w) = (Ok v2, w2) →
  v1 = v2 ∧ ∃ f', w2 = set_SEQ_CACHE f' w1.
Proof.
  unfold compute_deltas. intros H1 H2.
  apply bind_Ok in H1 as ([ws cp] & wa & Hc1 & H1).
  apply bind_Ok in H2 as ([ws2 cp2] & wa2 & Hc2 & H2).
  destruct (blind_same _ _ _ _ _ _ _ (collect_weights_blind hp) Hc1 Hc2)
    as [[= -> ->] ->].
  apply bind_Ok in H1 as (ct & wb & Ht1 & H1).
  apply bind_Ok in H2 as (ct2 & wb2 & Ht2 & H2).
  destruct (blind_same _ _ _ _ _ _ _ (get_context_templates_blind ext) Ht1 Ht2)
    as [-> ->].
  apply bind_Ok in H1 as (zl & wc1 & Hl1 & H1).
  apply bind_Ok in H2 as (zl2 & wc2 & Hl2 & H2).
  unfold lift in Hl1, Hl2.
  assert (zl2 = zl) as -> by congruence.
  assert (wc1 = wb) as -> by congruence.
  assert (wc2 = set_SEQ_CACHE f wb) as -> by congruence.
  apply bind_Ok in H1 as ([zs zn] & wd & Hz1 & H1).
  apply bind_Ok in H2 as ([zs2 zn2] & wd2 & Hz2 & H2).
  destruct (blind_same _ _ _ _ _ _ _
              (blind_foldM _ _ _ (compute_z_step_blind ext hp _ _ _)) Hz1 Hz2)
    as [[= -> ->] ->].
  apply bind_Ok in H1 as (st & we & Hs1 & H1).
  apply bind_Ok in H2 as (st2 & we2 & Hs2 & H2).
  unfold lift in Hs1, Hs2.
  assert (st2 = st) as -> by congruence.
  assert (we = wd) as -> by congruence.
  assert (we2 = set_SEQ_CACHE f wd) as -> by congruence.
  apply bind_Ok in H1 as (d1 & wf & Hloop1 & H1).
  apply bind_Ok in H2 as (d2 & wf2 & Hloop2 & H2).
  destruct (layer_loop_history_unused _ _ _ _ _ _ _ _ _ _ _ _ _ Hloop1 Hloop2)
    as [<- [f' ->]].
  apply bind_Ok in H1 as ([] & wg & Hr1 & H1).
  apply bind_Ok in H2 as ([] & wg2 & Hr2 & H2).
  destruct (blind_same _ _ _ _ _ _ _ (restore_weights_blind _ _) Hr1 Hr2) as [_ ->].
  unfold ret in H1, H2. simplify_eq.
  split; [done|]. by exists f'.
Qed.

(** X25. Unless [hparams.sequential] and [hparams.add_prev_edits] are both
    set, the history has no influence on an edit: two calls of
    [execute_memit_lti], or of [apply_memit_lti_rect_to_model], that return
    from states that differ only in [SEQ_CACHE], return the same value and
    leave states that differ only in [SEQ_CACHE]. *)
Theorem history_is_unused_when_the_options_are_off requests return_orig_weights
    cache_template f (w : world R) :
  (∀ v1 v2 w1 w2,
     execute_memit_lti ext hp requests cache_template w = (Ok v1, w1) →
     execute_memit_lti ext hp requests cache_template (set_SEQ_CACHE f w) = (Ok v2, w2) →
     v1 = v2 ∧ ∃ f', w2 = set_SEQ_CACHE f' w1) ∧
  (∀ v1 v2 w1 w2,
     apply_memit_lti_rect_to_model ext hp requests return_orig_weights cache_template w
       = (Ok v1, w1) →
     apply_memit_lti_rect_to_model ext hp requests return_orig_weights cache_template
       (set_SEQ_CACHE f w) = (Ok v2, w2) →
     v1 = v2 ∧ ∃ f', w2 = set_SEQ_CACHE f' w1).
Proof.
  assert (∀ v1 v2 w1 w2,
            execute_memit_lti ext hp requests cache_template w = (Ok v1, w1) →
            execute_memit_lti ext hp requests cache_template (set_SEQ_CACHE f w)
              = (Ok v2, w2) →
            v1 = v2 ∧ ∃ f', w2 = set_SEQ_CACHE f' w1) as Hex.
  { intros v1 v2 w1 w2 H1 H2. unfold execute_memit_lti in H1, H2.
    apply bind_Ok in H1 as (reqs & wa & Hn1 & H1).
    apply bind_Ok in H2 as (reqs2 & wa2 & Hn2 & H2).
    destruct (blind_same _ _ _ _ _ _ _ (normalize_requests_blind _) Hn1 Hn2) as [-> ->].
    by eapply compute_deltas_history_unused. }
  split; [done|].
  intros v1 v2 w1 w2 H1 H2. unfold apply_memit_lti_rect_to_model in H1, H2.
  apply bind_Ok in H1 as ([deltas zn] & wa & He1 & H1).
  apply bind_Ok in H2 as ([deltas2 zn2] & wa2 & He2 & H2).
  destruct (Hex _ _ _ _ He1 He2) as [[= <- <-] [f' ->]].
  apply bind_Ok in H1 as ([wc rep] & wb & Hi1 & H1).
  apply bind_Ok in H2 as ([wc2 rep2] & wb2 & Hi2 & H2).
  destruct (blind_same _ _ _ _ _ _ _
              (blind_foldM _ _ _ (insert_step_blind _)) Hi1 Hi2) as [[= -> ->] ->].
  unfold ret in H1, H2. simplify_eq.
  split; [done|]. by exists f'.
Qed.

End HistoryTheorem.

(** ** Square weights, and the distances *)

Section SquareWeights.
Context {R : Type} `{Scalar R}.
Variable ext : Externals R.

Lemma upd_matrix_match_shape_square (m m' W : tensor R) :
  fst (tshape W) = snd (tshape W) →
  upd_matrix_match_shape m (shape_of W) = Ok m' → m' = m.
Proof.
  intros Hsq. unfold upd_matrix_match_shape.
  destruct (decide (shape_of m = shape_of W)) as [E|Hne]; [congruence|].
  destruct (decide (shape_of (transpose m) = shape_of W)) as [E|Hne']; [|done].
  exfalso. apply Hne. rewrite shape_of_transpose in E. unfold shape_of in *.
  rewrite Hsq in *. congruence.
Qed.

(** X27. For a square weight the orientation of an update cannot be read
    off its shape, and no update is transposed: the loop over the layers
    writes the saved weight plus [resid @ adj_k.T], while the insertion
    step inserts [adj_k @ resid.T], each as computed. *)
Theorem square_weights_take_the_update_as_computed (hp : MEMITLTIHyperParams R) :
  (∀ requests ct zl zs wc deltas i layer (w w' : world R) deltas' W,
     layer_step ext hp requests ct zl zs wc deltas (i, layer) w = (Ok deltas', w') →
     params w !! weight_name hp layer = Some W →
     fst (tshape W) = snd (tshape W) →
     ∃ δ upd orig new,
       dict_get (weight_name hp layer) deltas' = Some δ ∧
       matmul (resid δ) (transpose (adj_k δ)) = Ok upd ∧
       wc !! weight_name hp layer = Some orig ∧
       tadd orig (float upd) = Ok new ∧
       (tshape new = tshape W → params w' !! weight_name hp layer = Some new)) ∧
  (∀ return_orig_weights acc k δ (w w' : world R) acc' W,
     insert_step return_orig_weights acc (k, δ) w = (Ok acc', w') →
     params w !! k = Some W →
     fst (tshape W) = snd (tshape W) →
     ∃ U W',
       matmul (adj_k δ) (transpose (resid δ)) = Ok U ∧
       sparse_insert U W = Ok W' ∧
       params w' !! k = Some W').
Proof.
  split.
  - intros requests ct zl zs wc deltas i layer w w' deltas' W Hrun HW Hsq.
    apply layer_step_inv in Hrun
      as (ks & targets & cur & cov & pk & wa & adj & wb & upd0 & v & upd & orig & new &
          new' & dist & _ & _ & Hcov & Hsolve & Hupd0 & Hv & Hupd & Horig & Hnew &
          Hnew' & -> & _ & ->).
    assert (params wb = params w) as Ep.
    { apply (layer_cov_preserves ext (same_on params)) in Hcov.
      apply (solve_layer_preserves ext (same_on params)) in Hsolve.
      unfold same_on in *. congruence. }
    rewrite Ep, HW in Hv. injection Hv as <-.
    apply (upd_matrix_match_shape_square _ _ W Hsq) in Hupd as ->.
    eexists _, upd0, orig, new. rewrite dict_get_set_eq. split_and!; [done..|].
    intros Es. simpl. rewrite lookup_insert_eq. f_equal.
    unfold expand_to in Hnew'. rewrite decide_True in Hnew' by done. congruence.
  - intros b [wc0 d0] k δ w w' [wc1 d1] W Hrun HW Hsq.
    apply insert_step_Ok in Hrun
      as (W0 & W' & HW0 & -> & _ & _ & U0 & U & HU0 & HU & HW').
    rewrite HW in HW0. injection HW0 as <-.
    apply (upd_matrix_match_shape_square _ _ W Hsq) in HU as ->.
    exists U0, W'. split_and!; [done..|]. simpl. by rewrite lookup_insert_eq.
Qed.

Lemma layer_loop_distances (hp : MEMITLTIHyperParams R) requests ct zl zs wc items :
  ∀ deltas (w w' : world R) deltas',
    foldM (layer_step ext hp requests ct zl zs wc) items deltas w = (Ok deltas', w') →
    (∀ k δ, (k, δ) ∈ deltas →
            (is_Some (distances δ) ↔ calculate_objective_value hp = true)) →
    ∀ k δ, (k, δ) ∈ deltas' →
           (is_Some (distances δ) ↔ calculate_objective_value hp = true).
Proof.
  induction items as [|[i layer] items IH]; intros deltas w w' deltas' Hrun Hacc;
    cbn [foldM] in Hrun.
  - unfold ret in Hrun. by simplify_eq.
  - apply bind_Ok in Hrun as (d1 & w1 & Hstep & Hrest).
    apply (IH _ _ _ _ Hrest).
    apply layer_step_inv in Hstep
      as (ks & targets & cur & cov & pk & wa & adj & wb & upd0 & v & upd & orig & new &
          new' & dist & _ & _ & _ & _ & _ & _ & _ & _ & _ & _ & _ & Hdist & ->).
    intros k δ Hin. apply dict_set_elem in Hin as [[= -> ->]|Hin]; [|by eapply Hacc].
    simpl.
    destruct (calculate_objective_value hp).
    + destruct Hdist as (d & _ & ->). split; [done|by eexists].
    + rewrite Hdist. split; [by intros [? ?]|done].
Qed.

(** X28. The distances are computed exactly when
    [hparams.calculate_objective_value] is set: every entry of the deltas
    that [execute_memit_lti] returns holds its three distances when the
    option is set, and none when it is not. *)
Theorem distances_follow_the_option (hp : MEMITLTIHyperParams R) requests cache_template
    (w w' : world R) deltas z_norms :
  execute_memit_lti ext hp requests cache_template w = (Ok (deltas, z_norms), w') →
  ∀ k δ, (k, δ) ∈ deltas →
    (is_Some (distances δ) ↔ calculate_objective_value hp = true).
Proof.
  unfold execute_memit_lti. intros Hrun.
  apply bind_Ok in Hrun as (reqs & w0 & _ & Hc).
  unfold compute_deltas in Hc. inv_ok.
  match goal with Hf : foldM (layer_step _ _ _ _ _ _ _) _ _ _ = _ |- _ =>
    rename Hf into Hloop end.
  apply (layer_loop_distances _ _ _ _ _ _ _ _ _ _ _ Hloop).
  by intros k δ ?%elem_of_nil.
Qed.

End SquareWeights.

(** ** The further properties at concrete inputs *)

Import FurtherExamples.

(** An insertion into the wide model: the embedding, which no layer of
    [hparams.layers] selects, is as it was. *)
Lemma only_edited_weights_are_touched_witness :
  wide_apply false wide_world
    = (Ok (returned (∅, [], []) (fst (wide_apply false wide_world))),
       snd (wide_apply false wide_world)) ∧
  ∀ k, match params wide_world !! k with
       | Some t =>
           ∃ t', params (snd (wide_apply false wide_world)) !! k = Some t' ∧
                 tshape t' = tshape t ∧ (¬ edited_weight hp_two_layers k → t' = t)
       | None => params (snd (wide_apply false wide_world)) !! k = None
       end.
Proof.
  assert (wide_apply false wide_world
            = (Ok (returned (∅, [], []) (fst (wide_apply false wide_world))),
               snd (wide_apply false wide_world))) as Hrun
    by (vm_compute; reflexivity).
  split; [exact Hrun|].
  exact (only_edited_weights_are_touched wide_ext hp_two_layers 3%positive false None
           wide_world _ (Raise KeyError) _ (or_intror Hrun)).
Defined.

(** Layer 5 is not a layer of the wide model. *)
Lemma missing_weight_fails_first_witness :
  5%Z ∈ layers hp_missing ∧
  params wide_world !! weight_name hp_missing 5 = None ∧
  compute_deltas wide_ext hp_missing toy_requests None wide_world
    = (Raise LookupError, wide_world) ∧
  (∃ e, fst (execute_memit_lti wide_ext hp_missing 3%positive None wide_world) = Raise e) ∧
  snd (execute_memit_lti wide_ext hp_missing 3%positive None wide_world)
    = set_heap (λ _, heap (snd (execute_memit_lti wide_ext hp_missing 3%positive None
                                  wide_world))) wide_world.
Proof.
  assert (5%Z ∈ layers hp_missing) as Hin by (right; left).
  assert (params wide_world !! weight_name hp_missing 5 = None) as Hnone
    by (vm_compute; reflexivity).
  split_and!; [exact Hin|exact Hnone|..];
    apply (missing_weight_fails_first wide_ext hp_missing 3%positive toy_requests None
             wide_world _ _ 5%Z Hin Hnone (surjective_pairing _)).
Defined.

(** No layer to edit. *)
Lemma empty_layers_are_refused_witness :
  layers hp_no_layers = [] ∧
  is_Some (CONTEXT_TEMPLATES_CACHE empty_batch_world) ∧
  (∃ e, fst (execute_memit_lti wide_ext hp_no_layers 3%positive None empty_batch_world)
          = Raise e) ∧
  compute_deltas wide_ext hp_no_layers toy_requests None empty_batch_world
    = (Raise IndexError, empty_batch_world).
Proof.
  assert (is_Some (CONTEXT_TEMPLATES_CACHE empty_batch_world)) as Hc by (by eexists).
  split_and!; [reflexivity|exact Hc|..].
  - apply (empty_layers_are_refused wide_ext hp_no_layers 3%positive toy_requests None
             empty_batch_world _ _ eq_refl (surjective_pairing _)).
  - by apply (empty_layers_are_refused wide_ext hp_no_layers 3%positive toy_requests None
                empty_batch_world _ _ eq_refl (surjective_pairing _)).
Defined.

(** No request to process. *)
Lemma empty_batch_is_refused_witness :
  heap empty_batch_world !! 3%positive = Some (ListObj []) ∧
  (∀ layer, layer ∈ layers hp_two_layers →
     is_Some (params empty_batch_world !! weight_name hp_two_layers layer)) ∧
  layers hp_two_layers ≠ [] ∧
  is_Some (CONTEXT_TEMPLATES_CACHE empty_batch_world) ∧
  fst (wide_execute empty_batch_world) = Raise RuntimeError.
Proof.
  assert (heap empty_batch_world !! 3%positive = Some (ListObj [])) as Hl
    by (vm_compute; reflexivity).
  assert (∀ layer, layer ∈ layers hp_two_layers →
            is_Some (params empty_batch_world !! weight_name hp_two_layers layer)) as Hall.
  { intros layer [->|[->|[]%elem_of_nil]%elem_of_cons]%elem_of_cons; by eexists. }
  assert (layers hp_two_layers ≠ []) as Hne by discriminate.
  assert (is_Some (CONTEXT_TEMPLATES_CACHE empty_batch_world)) as Hc by (by eexists).
  split_and!; [exact Hl|exact Hall|exact Hne|exact Hc|].
  exact (proj2 (empty_batch_is_refused wide_ext hp_two_layers 3%positive None
                  empty_batch_world _ _ Hl (surjective_pairing _)) Hall Hne Hc).
Defined.

(** The deltas of a run of two layers. *)
Lemma deltas_cover_the_edited_layers_witness :
  wide_execute wide_world
    = (Ok ((returned ([], []) (fst (wide_execute wide_world))).1,
           (returned ([], []) (fst (wide_execute wide_world))).2),
       snd (wide_execute wide_world)) ∧
  NoDup (returned ([], []) (fst (wide_execute wide_world))).1.*1 ∧
  (∀ k, k ∈ (returned ([], []) (fst (wide_execute wide_world))).1.*1
        ↔ edited_weight hp_two_layers k) ∧
  ∀ layer, layer ∈ layers hp_two_layers →
    is_Some (dict_get (weight_name hp_two_layers layer)
               (returned ([], []) (fst (wide_execute wide_world))).1).
Proof.
  assert (wide_execute wide_world
            = (Ok ((returned ([], []) (fst (wide_execute wide_world))).1,
                   (returned ([], []) (fst (wide_execute wide_world))).2),
               snd (wide_execute wide_world))) as Hrun
    by (vm_compute; reflexivity).
  split; [exact Hrun|].
  exact (deltas_cover_the_edited_layers wide_ext hp_two_layers 3%positive None
           wide_world _ _ _ Hrun).
Defined.

(** An edit of layers 0 and 1 of the wide model, which has a history at
    layer 5. *)
Lemma history_changes_only_for_edited_layers_witness :
  wide_apply true wide_world
    = (Ok (returned (∅, [], []) (fst (wide_apply true wide_world))), edited_world) ∧
  ∀ layer,
    (is_Some (SEQ_CACHE wide_world !! layer) → is_Some (SEQ_CACHE edited_world !! layer)) ∧
    (layer ∉ layers hp_two_layers →
     SEQ_CACHE edited_world !! layer = SEQ_CACHE wide_world !! layer).
Proof.
  assert (wide_apply true wide_world
            = (Ok (returned (∅, [], []) (fst (wide_apply true wide_world))), edited_world))
    as Hrun by (vm_compute; reflexivity).
  split; [exact Hrun|].
  exact (history_changes_only_for_edited_layers wide_ext hp_two_layers 3%positive true
           None wide_world _ (Raise KeyError) _ (or_intror Hrun)).
Defined.

Lemma every_edited_layer_has_a_history_witness :
  wide_apply true wide_world
    = (Ok (returned (∅, [], []) (fst (wide_apply true wide_world))), edited_world) ∧
  ∀ layer, layer ∈ layers hp_two_layers → is_Some (SEQ_CACHE edited_world !! layer).
Proof.
  assert (wide_apply true wide_world
            = (Ok (returned (∅, [], []) (fst (wide_apply true wide_world))), edited_world))
    as Hrun by (vm_compute; reflexivity).
  split; [exact Hrun|].
  exact (every_edited_layer_has_a_history wide_ext hp_two_layers 3%positive true None
           wide_world _ ([], []) _ (or_intror Hrun)).
Defined.

(** The solve of a null system fails; the history of layer 0 has the keys
    of the batch. *)
Lemma failed_solve_keeps_the_history_witness :
  null_solve = (Raise LinAlgError, snd null_solve) ∧
  trace (snd null_solve) ≠ trace world_with_history ∧
  ∃ G A,
    matmul (scalar1 0%Qc) (transpose (scalar1 0%Qc)) = Ok G ∧
    linalg_solve unit_ext A (scalar1 0%Qc) = Raise LinAlgError ∧
    trace (snd null_solve) = trace world_with_history ++ [CallSolve A (scalar1 0%Qc)] ∧
    match SEQ_CACHE world_with_history !! 0%Z with
    | None => SEQ_CACHE (snd null_solve) !! 0%Z = Some G
    | Some h => ∃ h', tadd_ h G = Ok h' ∧ SEQ_CACHE (snd null_solve) !! 0%Z = Some h'
    end.
Proof.
  assert (null_solve = (Raise LinAlgError, snd null_solve)) as Hrun
    by (vm_compute; reflexivity).
  assert (trace (snd null_solve) ≠ trace world_with_history) as Htrace
    by (vm_compute; discriminate).
  split_and!; [exact Hrun|exact Htrace|].
  exact (failed_solve_keeps_the_history unit_ext hp_plain 0%Z (scalar1 0%Qc)
           (scalar1 0%Qc) world_with_history _ _ Hrun Htrace).
Defined.

Lemma cov_cache_stays_paired_witness :
  cov_paired wide_world ∧ cov_paired edited_world.
Proof.
  assert (cov_paired wide_world) as Hp.
  { intros m l [x Hx]. by vm_compute in Hx. }
  split; [exact Hp|].
  exact (cov_cache_stays_paired wide_ext hp_two_layers 3%positive true None
           wide_world _ (Raise KeyError) _ Hp (or_intror (surjective_pairing _))).
Defined.

(** The statistics cannot be computed. *)
Lemma get_cov_fails_only_with_layer_stats_witness :
  cov_paired wide_world ∧
  get_cov no_stats_ext "transformer.h.0.mlp.c_proj" "wikipedia" 100 "float32" false
    wide_world
    = (Raise (ExternalError "no statistics"),
       snd (get_cov no_stats_ext "transformer.h.0.mlp.c_proj" "wikipedia" 100 "float32"
              false wide_world)) ∧
  layer_stats no_stats_ext (params wide_world) "transformer.h.0.mlp.c_proj" "wikipedia"
    100 "float32" false (length (trace wide_world))
    = Raise (ExternalError "no statistics") ∧
  COV_CACHE (snd (get_cov no_stats_ext "transformer.h.0.mlp.c_proj" "wikipedia" 100
                    "float32" false wide_world))
    = COV_CACHE wide_world.
Proof.
  assert (cov_paired wide_world) as Hp.
  { intros m l [x Hx]. by vm_compute in Hx. }
  assert (get_cov no_stats_ext "transformer.h.0.mlp.c_proj" "wikipedia" 100 "float32"
            false wide_world
          = (Raise (ExternalError "no statistics"),
             snd (get_cov no_stats_ext "transformer.h.0.mlp.c_proj" "wikipedia" 100
                    "float32" false wide_world))) as Hrun
    by (vm_compute; reflexivity).
  split_and!; [exact Hp|exact Hrun|..];
    apply (get_cov_fails_only_with_layer_stats no_stats_ext "transformer.h.0.mlp.c_proj"
             "wikipedia" 100 "float32" false wide_world _ _ Hp Hrun).
Defined.

Lemma an_edit_caches_the_covariances_witness :
  wide_apply true wide_world
    = (Ok (returned (∅, [], []) (fst (wide_apply true wide_world))), edited_world) ∧
  cov_cached hp_two_layers edited_world.
Proof.
  assert (wide_apply true wide_world
            = (Ok (returned (∅, [], []) (fst (wide_apply true wide_world))), edited_world))
    as Hrun by (vm_compute; reflexivity).
  split; [exact Hrun|].
  exact (an_edit_caches_the_covariances wide_ext hp_two_layers 3%positive true None
           wide_world _ ([], []) _ (or_intror Hrun)).
Defined.

(** A second edit of the wide model, even when the statistics can no
    longer be computed. *)
Lemma cached_covariances_are_not_recomputed_witness :
  cov_cached hp_two_layers edited_world ∧
  cov_cached hp_two_layers
    (snd (apply_memit_lti_rect_to_model no_stats_ext hp_two_layers 3%positive false None
            edited_world)) ∧
  stats_calls (trace (snd (apply_memit_lti_rect_to_model no_stats_ext hp_two_layers
                             3%positive false None edited_world)))
    = stats_calls (trace edited_world).
Proof.
  assert (cov_cached hp_two_layers edited_world) as Hc.
  { intros layer [->|[->|[]%elem_of_nil]%elem_of_cons]%elem_of_cons;
      split; vm_compute; by eexists. }
  split; [exact Hc|].
  exact (cached_covariances_are_not_recomputed no_stats_ext hp_two_layers 3%positive
           false None edited_world _ (Raise KeyError) _ Hc
           (or_intror (surjective_pairing _))).
Defined.

(** The first call for the wide model. *)
Lemma context_templates_are_computed_once_witness :
  match fst (get_context_templates wide_ext wide_world) with
  | Ok c =>
      CONTEXT_TEMPLATES_CACHE (snd (get_context_templates wide_ext wide_world)) = Some c ∧
      ∀ (ext' : Externals Qc) (w'' : world Qc),
        CONTEXT_TEMPLATES_CACHE w'' = Some c →
        get_context_templates ext' w'' = (Ok c, w'')
  | Raise e =>
      snd (get_context_templates wide_ext wide_world) = wide_world ∧
      CONTEXT_TEMPLATES_CACHE wide_world = None ∧
      generate_fast wide_ext (params wide_world)
        ["The"; "Therefore"; "Because"; "I"; "You"] 1 10 = Raise e
  end.
Proof.
  exact (context_templates_are_computed_once wide_ext wide_world _ _
           (surjective_pairing _)).
Defined.

(** A second edit keeps the templates of the first. *)
Lemma cached_templates_are_kept_witness :
  CONTEXT_TEMPLATES_CACHE edited_world
    = Some [["{}"]; ["The  a . {}"; "Therefore b. {}"; "Because c. {}"; "I d. {}";
                     "You e. {}"]] ∧
  CONTEXT_TEMPLATES_CACHE (snd (wide_execute edited_world))
    = Some [["{}"]; ["The  a . {}"; "Therefore b. {}"; "Because c. {}"; "I d. {}";
                     "You e. {}"]].
Proof.
  assert (CONTEXT_TEMPLATES_CACHE edited_world
          = Some [["{}"]; ["The  a . {}"; "Therefore b. {}"; "Because c. {}"; "I d. {}";
                           "You e. {}"]]) as Hc by (vm_compute; reflexivity).
  split; [exact Hc|].
  exact (cached_templates_are_kept wide_ext hp_two_layers 3%positive false None
           edited_world _ _ (Raise KeyError) _ Hc (or_introl (surjective_pairing _))).
Defined.

(** The generator of the wide model writes braces in its first text. *)
Lemma generated_templates_end_in_the_placeholder_witness :
  CONTEXT_TEMPLATES_CACHE wide_world = None ∧
  get_context_templates wide_ext wide_world
    = (Ok (returned [] (fst (get_context_templates wide_ext wide_world))),
       snd (get_context_templates wide_ext wide_world)) ∧
  ∀ group t,
    group ∈ returned [] (fst (get_context_templates wide_ext wide_world)) →
    t ∈ group →
    ∃ body, brace_free body = true ∧ t = body +:+ "{}" ∧
            ∀ x, py_format t x = body +:+ x.
Proof.
  assert (get_context_templates wide_ext wide_world
          = (Ok (returned [] (fst (get_context_templates wide_ext wide_world))),
             snd (get_context_templates wide_ext wide_world))) as Hrun
    by (vm_compute; reflexivity).
  split_and!; [reflexivity|exact Hrun|].
  exact (generated_templates_end_in_the_placeholder wide_ext wide_world _ _ eq_refl Hrun).
Defined.

(** A weight of one element, and a weight of two. *)
Lemma sparse_insert_needs_two_elements_witness :
  sparse_insert (scalar1 1%Qc) (scalar1 1%Qc) = Raise RuntimeError ∧
  ∃ W', sparse_insert (Tensor (1, 2) [1%Qc; (1 + 1)%Qc]) (Tensor (1, 2) [1%Qc; 1%Qc])
        = Ok W'.
Proof.
  split.
  - apply (sparse_insert_needs_two_elements (scalar1 1%Qc) (scalar1 1%Qc)
             eq_refl eq_refl eq_refl). vm_compute. lia.
  - apply (sparse_insert_needs_two_elements (Tensor (1, 2) [1%Qc; (1 + 1)%Qc])
             (Tensor (1, 2) [1%Qc; 1%Qc]) eq_refl eq_refl eq_refl). vm_compute. lia.
Defined.

(** The weights returned by an edit of the wide model. *)
Lemma returned_weights_undo_the_edit_witness :
  wide_apply true wide_world
    = (Ok ((returned (∅, [], []) (fst (wide_apply true wide_world))).1.1,
           (returned (∅, [], []) (fst (wide_apply true wide_world))).1.2,
           (returned (∅, [], []) (fst (wide_apply true wide_world))).2),
       edited_world) ∧
  (returned (∅, [], []) (fst (wide_apply true wide_world))).1.1 ∪ params edited_world
    = params wide_world ∧
  ∀ k, is_Some ((returned (∅, [], []) (fst (wide_apply true wide_world))).1.1 !! k)
       ↔ edited_weight hp_two_layers k.
Proof.
  assert (wide_apply true wide_world
            = (Ok ((returned (∅, [], []) (fst (wide_apply true wide_world))).1.1,
                   (returned (∅, [], []) (fst (wide_apply true wide_world))).1.2,
                   (returned (∅, [], []) (fst (wide_apply true wide_world))).2),
               edited_world)) as Hrun by (vm_compute; reflexivity).
  split; [exact Hrun|].
  exact (returned_weights_undo_the_edit wide_ext hp_two_layers 3%positive true None
           wide_world _ _ _ _ Hrun).
Defined.

(** A first turn for the request of case 7 with the template [cache/z_]. *)
Lemma target_files_round_trip_witness :
  cached_z_step
    = (Ok ((returned ([], []) (fst cached_z_step)).1,
           (returned ([], []) (fst cached_z_step)).2), snd cached_z_step) ∧
  ∃ z, (returned ([], []) (fst cached_z_step)).1 = [] ++ [z] ∧
       files (snd cached_z_step) !! "cache/z_7.npz" = Some (Some z) ∧
       ∀ context_templates' acc r_id' (w'' : world Qc),
         files w'' !! "cache/z_7.npz" = Some (Some z) →
         compute_z_step wide_ext hp_two_layers (Some "cache/z_") 1 context_templates' acc
           (r_id', toy_request) w''
           = (Ok (acc.1 ++ [z], acc.2), w'').
Proof.
  assert (cached_z_step
            = (Ok ((returned ([], []) (fst cached_z_step)).1,
                   (returned ([], []) (fst cached_z_step)).2), snd cached_z_step))
    as Hrun by (vm_compute; reflexivity).
  split; [exact Hrun|].
  exact (target_files_round_trip wide_ext hp_two_layers "cache/z_" 1 [["{}"]] [] []
           0 toy_request wide_world _ _ _ Hrun).
Defined.

Lemma deltas_follow_the_layers_witness :
  rewrite_module_tmp hp_two_layers = "transformer.h." +:+ "{}" +:+ ".mlp.c_proj" ∧
  NoDup (layers hp_two_layers) ∧
  wide_execute wide_world
    = (Ok ((returned ([], []) (fst (wide_execute wide_world))).1,
           (returned ([], []) (fst (wide_execute wide_world))).2),
       snd (wide_execute wide_world)) ∧
  (∀ l1 l2, weight_name hp_two_layers l1 = weight_name hp_two_layers l2 → l1 = l2) ∧
  (returned ([], []) (fst (wide_execute wide_world))).1.*1
    = map (weight_name hp_two_layers) (layers hp_two_layers).
Proof.
  assert (NoDup (layers hp_two_layers)) as Hnd.
  { apply NoDup_cons. split; [|apply NoDup_singleton].
    intros Hin%list_elem_of_singleton. discriminate. }
  assert (wide_execute wide_world
            = (Ok ((returned ([], []) (fst (wide_execute wide_world))).1,
                   (returned ([], []) (fst (wide_execute wide_world))).2),
               snd (wide_execute wide_world))) as Hrun
    by (vm_compute; reflexivity).
  split_and!; [reflexivity|exact Hnd|exact Hrun|..];
    apply (deltas_follow_the_layers wide_ext hp_two_layers "transformer.h." ".mlp.c_proj"
             3%positive None wide_world _ _ _ eq_refl eq_refl eq_refl Hnd Hrun).
Defined.

Lemma reports_are_keyed_by_layer_number_witness :
  rewrite_module_tmp hp_two_layers
    = "transformer" +:+ "." +:+ "h" +:+ ".{}" +:+ ".mlp.c_proj" ∧
  NoDup (layers hp_two_layers) ∧
  wide_apply true wide_world
    = (Ok ((returned (∅, [], []) (fst (wide_apply true wide_world))).1.1,
           (returned (∅, [], []) (fst (wide_apply true wide_world))).1.2,
           (returned (∅, [], []) (fst (wide_apply true wide_world))).2),
       edited_world) ∧
  (∀ layer, split_on "." (weight_name hp_two_layers layer) !! 2 = Some (pretty layer)) ∧
  (returned (∅, [], []) (fst (wide_apply true wide_world))).1.2.*1
    = map pretty (layers hp_two_layers).
Proof.
  assert (NoDup (layers hp_two_layers)) as Hnd.
  { apply NoDup_cons. split; [|apply NoDup_singleton].
    intros Hin%list_elem_of_singleton. discriminate. }
  assert (wide_apply true wide_world
            = (Ok ((returned (∅, [], []) (fst (wide_apply true wide_world))).1.1,
                   (returned (∅, [], []) (fst (wide_apply true wide_world))).1.2,
                   (returned (∅, [], []) (fst (wide_apply true wide_world))).2),
               edited_world)) as Hrun by (vm_compute; reflexivity).
  split_and!; [reflexivity|exact Hnd|exact Hrun|..];
    apply (reports_are_keyed_by_layer_number wide_ext hp_two_layers "transformer" "h"
             ".mlp.c_proj" 3%positive true None wide_world _ _ _ _
             eq_refl eq_refl eq_refl eq_refl eq_refl eq_refl
             (or_intror (ex_intro _ "mlp.c_proj" eq_refl)) Hnd Hrun).
Defined.

(** The weight [lm_head.weight] is overwritten, and the step raises. *)
Lemma short_weight_name_fails_after_the_write_witness :
  split_on "." "lm_head.weight" !! 2 = None ∧
  fst short_insert = Raise IndexError ∧
  fractions <$> params short_world !! "lm_head.weight" = Some ((1, 2), [1%Q; 1%Q]) ∧
  fractions <$> params (snd short_insert) !! "lm_head.weight"
    = Some ((1, 2), [(1 + 1)%Q; (1 + 1 + 1)%Q]).
Proof.
  assert (split_on "." "lm_head.weight" !! 2 = None) as Hshort by reflexivity.
  destruct (short_weight_name_fails_after_the_write false (∅, []) "lm_head.weight"
              pair_delta short_world _ _ Hshort (surjective_pairing short_insert))
    as [_ Hwrite].
  destruct (Hwrite (Tensor (1, 2) [1%Qc; (1 + 1)%Qc]) (Tensor (1, 2) [1%Qc; 1%Qc])
              (Tensor (1, 2) [1%Qc; (1 + 1)%Qc])
              (Tensor (1, 2) [(1 + 1)%Qc; (1 + 1 + 1)%Qc])) as [Hr Hw].
  - by vm_compute.
  - by vm_compute.
  - by vm_compute.
  - by vm_compute.
  - split_and!; [exact Hshort|exact Hr|by vm_compute|by rewrite Hw; vm_compute].
Defined.

Ltac concrete_heap_entry H :=
  apply elem_of_map_to_list in H; vm_compute in H;
  repeat (apply elem_of_cons in H as [H|H]; [injection H as -> ->|]);
  [..|by apply elem_of_nil in H].

(** Four requests, two of them one object and two with a shared target. *)
Lemma collaborators_read_the_normalized_requests_witness :
  heap_closed (heap shared_world) ∧
  heap shared_world !! 3%positive = Some (ListObj [1; 4; 5; 1]%positive) ∧
  normalize_requests 3%positive shared_world
    = (Ok [Request "The capital of {} is" "Italy" " Rome" 7;
           Request "{} has its seat in" "The Vatican" " Rome" 8;
           Request "The capital of {} is" "France" " Paris" 9;
           Request "The capital of {} is" "Italy" " Rome" 7],
       snd (normalize_requests 3%positive shared_world)) ∧
  Forall2 (λ l r, ∃ r0, read_request l shared_world = (Ok r0, shared_world) ∧
                        target_new r0 ≠ "" ∧ r = normalized r0)
    [1; 4; 5; 1]%positive
    [Request "The capital of {} is" "Italy" " Rome" 7;
     Request "{} has its seat in" "The Vatican" " Rome" 8;
     Request "The capital of {} is" "France" " Paris" 9;
     Request "The capital of {} is" "Italy" " Rome" 7].
Proof.
  assert (heap_closed (heap shared_world)) as Hclosed.
  { intros l o x Hl Hx. concrete_heap_entry Hl; simpl in Hx;
      repeat (apply elem_of_cons in Hx as [->|Hx]; [by eexists|]);
      by apply elem_of_nil in Hx. }
  assert (heap shared_world !! 3%positive = Some (ListObj [1; 4; 5; 1]%positive))
    as Hitems by (vm_compute; reflexivity).
  assert (normalize_requests 3%positive shared_world
          = (Ok [Request "The capital of {} is" "Italy" " Rome" 7;
                 Request "{} has its seat in" "The Vatican" " Rome" 8;
                 Request "The capital of {} is" "France" " Paris" 9;
                 Request "The capital of {} is" "Italy" " Rome" 7],
             snd (normalize_requests 3%positive shared_world))) as Hrun
    by (vm_compute; reflexivity).
  split_and!; [exact Hclosed|exact Hitems|exact Hrun|].
  exact (collaborators_read_the_normalized_requests 3%positive _ shared_world _ _
           Hclosed Hitems Hrun).
Defined.

Lemma z_norms_are_keyed_by_request_index_witness :
  heap wide_world !! 3%positive = Some (ListObj [1%positive]) ∧
  wide_execute wide_world
    = (Ok ((returned ([], []) (fst (wide_execute wide_world))).1,
           (returned ([], []) (fst (wide_execute wide_world))).2),
       snd (wide_execute wide_world)) ∧
  (returned ([], []) (fst (wide_execute wide_world))).2.*1 = seq 0 (length [1%positive]).
Proof.
  assert (heap wide_world !! 3%positive = Some (ListObj [1%positive])) as Hitems
    by (vm_compute; reflexivity).
  assert (wide_execute wide_world
            = (Ok ((returned ([], []) (fst (wide_execute wide_world))).1,
                   (returned ([], []) (fst (wide_execute wide_world))).2),
               snd (wide_execute wide_world))) as Hrun
    by (vm_compute; reflexivity).
  split_and!; [exact Hitems|exact Hrun|].
  exact (z_norms_are_keyed_by_request_index wide_ext hp_two_layers 3%positive _
           wide_world _ _ _ Hitems Hrun).
Defined.

(** The calls of an edit of the wide model: the statistics of the two
    layers, and two solves. *)
Lemma layer_stats_is_never_forced_witness :
  wide_apply true wide_world
    = (Ok (returned (∅, [], []) (fst (wide_apply true wide_world))), edited_world) ∧
  ∃ calls, trace edited_world = trace wide_world ++ calls ∧
    ∀ name n force, CallLayerStats name n force ∈ calls →
      force = false ∧ n = mom2_n_samples hp_two_layers ∧
      ∃ layer, layer ∈ layers hp_two_layers ∧
               name = py_format (rewrite_module_tmp hp_two_layers) (pretty layer).
Proof.
  assert (wide_apply true wide_world
            = (Ok (returned (∅, [], []) (fst (wide_apply true wide_world))), edited_world))
    as Hrun by (vm_compute; reflexivity).
  split; [exact Hrun|].
  exact (layer_stats_is_never_forced wide_ext hp_two_layers 3%positive true None
           wide_world _ (Raise KeyError) _ (or_intror Hrun)).
Defined.

(** The same edit without and with a history at layer 0: the histories
    left differ, the values returned do not. *)
Lemma history_is_unused_when_the_options_are_off_witness :
  sequential hp_two_layers && add_prev_edits hp_two_layers = false ∧
  wide_execute wide_world
    = (Ok (returned ([], []) (fst (wide_execute wide_world))),
       snd (wide_execute wide_world)) ∧
  wide_execute wide_world_with_history
    = (Ok (returned ([], []) (fst (wide_execute wide_world_with_history))),
       snd (wide_execute wide_world_with_history)) ∧
  fractions <$> SEQ_CACHE (snd (wide_execute wide_world)) !! 0%Z
    = Some ((2, 2), [1%Q; 0%Q; 0%Q; 0%Q]) ∧
  fractions <$> SEQ_CACHE (snd (wide_execute wide_world_with_history)) !! 0%Z
    = Some ((2, 2), [(1 + 1 + 1)%Q; 0%Q; 0%Q; (1 + 1)%Q]) ∧
  returned ([], []) (fst (wide_execute wide_world))
    = returned ([], []) (fst (wide_execute wide_world_with_history)) ∧
  ∃ f', snd (wide_execute wide_world_with_history)
        = set_SEQ_CACHE f' (snd (wide_execute wide_world)).
Proof.
  assert (sequential hp_two_layers && add_prev_edits hp_two_layers = false) as Hoff
    by reflexivity.
  assert (wide_execute wide_world
            = (Ok (returned ([], []) (fst (wide_execute wide_world))),
               snd (wide_execute wide_world))) as Hrun1
    by (vm_compute; reflexivity).
  assert (wide_execute wide_world_with_history
            = (Ok (returned ([], []) (fst (wide_execute wide_world_with_history))),
               snd (wide_execute wide_world_with_history))) as Hrun2
    by (vm_compute; reflexivity).
  split_and!; [exact Hoff|exact Hrun1|exact Hrun2|by vm_compute|by vm_compute|..];
    apply (proj1 (history_is_unused_when_the_options_are_off wide_ext hp_two_layers Hoff
                    3%positive false None
                    (λ _, {[ 0%Z := Tensor (2, 2) [(1 + 1)%Qc; 0%Qc; 0%Qc; (1 + 1)%Qc] ]})
                    wide_world) _ _ _ _ Hrun1 Hrun2).
Defined.

Lemma the_update_is_inserted_into_the_original_weights_witness :
  wide_apply true wide_world
    = (Ok (returned (∅, [], []) (fst (wide_apply true wide_world))), edited_world) ∧
  ∃ deltas w1,
    wide_execute wide_world
      = (Ok (deltas, (returned (∅, [], []) (fst (wide_apply true wide_world))).2), w1) ∧
    ∀ k δ, (k, δ) ∈ deltas →
      ∃ U0 U W W',
        params wide_world !! k = Some W ∧
        matmul (adj_k δ) (transpose (resid δ)) = Ok U0 ∧
        upd_matrix_match_shape U0 (shape_of W) = Ok U ∧
        sparse_insert U W = Ok W' ∧
        params edited_world !! k = Some W'.
Proof.
  assert (wide_apply true wide_world
            = (Ok (returned (∅, [], []) (fst (wide_apply true wide_world))), edited_world))
    as Hrun by (vm_compute; reflexivity).
  split; [exact Hrun|].
  exact (the_update_is_inserted_into_the_original_weights wide_ext hp_two_layers
           3%positive true None wide_world _ _ Hrun).
Defined.

(** The update [[1, 2], [0, 0]] is inserted into the square weight of
    layer 0 as it is. *)
Lemma square_weights_take_the_update_as_computed_witness :
  square_insert = (Ok (returned (∅, []) (fst square_insert)), snd square_insert) ∧
  fractions <$> params wide_world !! "transformer.h.0.mlp.c_proj.weight"
    = Some ((2, 2), [1%Q; 1%Q; 1%Q; 1%Q]) ∧
  fractions (returned (scalar1 0%Qc)
               (matmul (adj_k square_delta) (transpose (resid square_delta))))
    = ((2, 2), [1%Q; (1 + 1)%Q; 0%Q; 0%Q]) ∧
  fractions <$> params (snd square_insert) !! "transformer.h.0.mlp.c_proj.weight"
    = Some ((2, 2), [(1 + 1)%Q; (1 + 1 + 1)%Q; 1%Q; 1%Q]) ∧
  ∃ U W',
    matmul (adj_k square_delta) (transpose (resid square_delta)) = Ok U ∧
    sparse_insert U (Tensor (2, 2) [1%Qc; 1%Qc; 1%Qc; 1%Qc]) = Ok W' ∧
    params (snd square_insert) !! "transformer.h.0.mlp.c_proj.weight" = Some W'.
Proof.
  assert (square_insert = (Ok (returned (∅, []) (fst square_insert)), snd square_insert))
    as Hrun by (vm_compute; reflexivity).
  split_and!; [exact Hrun|by vm_compute..|].
  exact (proj2 (square_weights_take_the_update_as_computed wide_ext hp_two_layers)
           false (∅, []) "transformer.h.0.mlp.c_proj.weight" square_delta wide_world
           _ _ (Tensor (2, 2) [1%Qc; 1%Qc; 1%Qc; 1%Qc]) Hrun eq_refl eq_refl).
Defined.

Lemma distances_follow_the_option_witness :
  distances_execute
    = (Ok ((returned ([], []) (fst distances_execute)).1,
           (returned ([], []) (fst distances_execute)).2), snd distances_execute) ∧
  ∀ k δ, (k, δ) ∈ (returned ([], []) (fst distances_execute)).1 →
    (is_Some (distances δ) ↔ calculate_objective_value hp_distances = true).
Proof.
  assert (distances_execute
            = (Ok ((returned ([], []) (fst distances_execute)).1,
                   (returned ([], []) (fst distances_execute)).2), snd distances_execute))
    as Hrun by (vm_compute; reflexivity).
  split; [exact Hrun|].
  exact (distances_follow_the_option wide_ext hp_distances 3%positive None wide_world
           _ _ _ Hrun).
Defined.
